(** * Resume screener: the extraction cascade, the validator and the store

    A shallow embedding of the core of the repository:
    - [utils/helpers.py]      ([clean_text]),
    - [utils/validators.py]   ([validate_resume_data], [is_valid_email],
      [clean_phone_number]),
    - [extractors/langchain_extractor.py] ([extract_with_rules],
      [extract_with_langchain]),
    - [extractors/vision_extractor.py]    ([_pdf_to_images],
      [extract_with_openai_vision]),
    - [parsers/pdf_parser.py] ([extract_text_from_pdf],
      [extract_text_with_ocr]),
    - [parsers/docx_parser.py] ([extract_text_from_docx]),
    - [app.py]                ([process_single_resume]),
    - [storage/excel_handler.py] ([save_to_excel], [load_from_excel]).

    Modelling conventions.
    - A Python [str] is a list of characters, each a code point below 256
      ([ascii]); the character classes of [str.strip], [str.split],
      [str.splitlines], [str.lower] and of the [re] module are the
      Unicode ones restricted to that range.
    - A Python [dict] is a [gmap] from keys to values; [None] results and
      raised exceptions are explicit ([option], [outcome]).
    - A Python [float] is either a number, an infinity or NaN.  A number
      is kept as the rational it denotes: the overflow threshold of
      binary64 is modelled, the rounding of the significand is not.
    - External collaborators (the language model, the vision service, the
      text extractors, the PDF rasteriser, pandas and the file system) are
      fields of a record of oracles; calls to the tiers of the cascade are
      recorded in a trace.
    - A path is the file it names: two spellings of one path are one key
      of the store. *)

From Stdlib Require Import ZArith QArith Ascii String List Bool Lia DecimalString
  Sorted.
From stdpp Require Import base option list gmap strings fin_maps.

Close Scope Q_scope.
Open Scope nat_scope.

(* ===================================================================== *)
(** * Part I.  The embedding                                              *)
(* ===================================================================== *)

(** ** Python strings *)

Module Str.

Definition str := list ascii.

(** A string literal of the source, as a list of characters. *)
Definition lit (s : string) : str := list_ascii_of_string s.

Definition code (c : ascii) : nat := nat_of_ascii c.

Definition in_range (lo hi : nat) (c : ascii) : bool :=
  (lo <=? code c) && (code c <=? hi).

(** [str.isspace] / the class [\s]: Unicode white space below 256. *)
Definition isspace (c : ascii) : bool :=
  in_range 9 13 c || in_range 28 32 c || (code c =? 133) || (code c =? 160).

(** The class [\d]: decimal digits (below 256 only 0-9). *)
Definition isdigit (c : ascii) : bool := in_range 48 57 c.

Definition isupper_ascii (c : ascii) : bool := in_range 65 90 c.
Definition islower_ascii (c : ascii) : bool := in_range 97 122 c.
Definition isalpha_ascii (c : ascii) : bool := isupper_ascii c || islower_ascii c.

(** The class [\w]: alphanumeric characters (letters, decimals, digits and
    numerics of Latin-1) and the underscore. *)
Definition isword (c : ascii) : bool :=
  isalpha_ascii c || isdigit c || (code c =? 95)
  || (code c =? 170) || (code c =? 178) || (code c =? 179) || (code c =? 181)
  || (code c =? 185) || (code c =? 186) || in_range 188 190 c
  || in_range 192 214 c || in_range 216 246 c || in_range 248 255 c.

(** [str.lower] on one character. *)
Definition lower_char (c : ascii) : ascii :=
  if isupper_ascii c || (in_range 192 222 c && negb (code c =? 215))
  then ascii_of_nat (code c + 32) else c.

Definition lower (s : str) : str := map lower_char s.

Fixpoint drop_while (p : ascii -> bool) (s : str) : str :=
  match s with
  | [] => []
  | c :: r => if p c then drop_while p r else s
  end.

Definition lstrip (s : str) : str := drop_while isspace s.
Definition rstrip (s : str) : str := rev (drop_while isspace (rev s)).

(** [s.strip()] *)
Definition strip (s : str) : str := lstrip (rstrip s).

(** [s.replace(a, b)] for one-character [a] and [b]. *)
Definition replace_char (a b : ascii) (s : str) : str :=
  map (fun c => if Ascii.eqb c a then b else c) s.

Fixpoint starts_with (p s : str) : bool :=
  match p, s with
  | [], _ => true
  | _ :: _, [] => false
  | a :: p', b :: s' => Ascii.eqb a b && starts_with p' s'
  end.

(** [p in s] on strings: [p] occurs as a substring of [s]. *)
Fixpoint contains (p s : str) : bool :=
  starts_with p s ||
  match s with
  | [] => false
  | _ :: s' => contains p s'
  end.

(** [sep.join(parts)] *)
Fixpoint join (sep : str) (parts : list str) : str :=
  match parts with
  | [] => []
  | [p] => p
  | p :: ps => p ++ sep ++ join sep ps
  end.

(** Splitting at every character of a class: [re.split(r"[...]", s)], and
    the scanning loop shared with [split] and [splitlines].  [cur] is the
    piece being read, reversed. *)
Fixpoint split_on (p : ascii -> bool) (cur : str) (s : str) : list str :=
  match s with
  | [] => [rev cur]
  | c :: r => if p c then rev cur :: split_on p [] r else split_on p (c :: cur) r
  end.

(** [s.split()]: the maximal runs of non-space characters. *)
Definition split_ws (s : str) : list str :=
  filter (fun w => w ≠ []) (split_on isspace [] s).

(** Line boundaries of [str.splitlines] below 256. *)
Definition islinebreak (c : ascii) : bool :=
  in_range 10 13 c || in_range 28 30 c || (code c =? 133).

(** [s.splitlines()]: a carriage return followed by a line feed is one
    boundary, and no empty last line is produced. *)
Fixpoint splitlines_from (cur : str) (s : str) : list str :=
  match s with
  | [] => match cur with [] => [] | _ => [rev cur] end
  | c :: r =>
      if code c =? 13 then
        match r with
        | d :: r' => if code d =? 10 then rev cur :: splitlines_from [] r'
                     else rev cur :: splitlines_from [] r
        | [] => [rev cur]
        end
      else if islinebreak c then rev cur :: splitlines_from [] r
      else splitlines_from (c :: cur) r
  end.

Definition splitlines (s : str) : list str := splitlines_from [] s.

(** Lexicographic order on code points, the order of [sorted] on strings. *)
Fixpoint ltb (s t : str) : bool :=
  match s, t with
  | [], [] => false
  | [], _ :: _ => true
  | _ :: _, [] => false
  | a :: s', b :: t' =>
      if code a <? code b then true
      else if code b <? code a then false
      else ltb s' t'
  end.

(** [sorted(set(l))]: insertion into a strictly increasing list. *)
Fixpoint insert_sorted (x : str) (l : list str) : list str :=
  match l with
  | [] => [x]
  | y :: r => if ltb x y then x :: l
              else if ltb y x then y :: insert_sorted x r
              else l
  end.

Definition sorted_set (l : list str) : list str :=
  foldr insert_sorted [] l.

End Str.

Import Str.

(** ** The [re] module

    Patterns are built from character classes; matching is the backtracking
    search of [re]: alternatives are tried in order, repetitions are greedy.
    The state of a match is the character before the current position
    (for [^] and [\b]) and the text that remains.  The bodies of the
    repetitions of the source never match the empty string; an iteration
    that consumes nothing is not taken. *)

Module Re.

Inductive regex : Type :=
| Eps
| Chr (p : ascii -> bool)
| Seq (a b : regex)
| Alt (a b : regex)
| Rep (a : regex) (lo : nat) (hi : option nat)
| Bol
| Bnd.

Definition below (n : nat) (hi : option nat) : bool :=
  match hi with
  | Some h => n <? h
  | None => true
  end.

Definition is_word_at (c : option ascii) : bool :=
  match c with
  | Some c => isword c
  | None => false
  end.

(** The loop of a greedy repetition [a{lo,hi}], [body] being the match of
    [a]: after [n] iterations one more is tried first, and the
    continuation only when that fails.  [fuel] bounds the iterations left
    ([length s] suffices, every iteration consumes a character). *)
Fixpoint rep_loop
    (body : option ascii -> str -> (option ascii -> str -> option str) -> option str)
    (lo : nat) (hi : option nat) (k : option ascii -> str -> option str)
    (fuel n : nat) (prev : option ascii) (s : str) {struct fuel} : option str :=
  let stop := if lo <=? n then k prev s else None in
  match fuel with
  | 0 => stop
  | S fuel' =>
      if below n hi then
        match body prev s (fun prev' s' =>
                if length s' <? length s
                then rep_loop body lo hi k fuel' (S n) prev' s' else None) with
        | Some x => Some x
        | None => stop
        end
      else stop
  end.

(** [run r prev s k]: match [r] at the head of [s], then continue with [k]
    on the character last read and the rest; [None] when every way of
    matching fails. *)
Fixpoint run (r : regex) (prev : option ascii) (s : str)
    (k : option ascii -> str -> option str) {struct r} : option str :=
  match r with
  | Eps => k prev s
  | Chr p =>
      match s with
      | c :: s' => if p c then k (Some c) s' else None
      | [] => None
      end
  | Seq a b => run a prev s (fun prev' s' => run b prev' s' k)
  | Alt a b =>
      match run a prev s k with
      | Some x => Some x
      | None => run b prev s k
      end
  | Rep a lo hi => rep_loop (run a) lo hi k (length s) 0 prev s
  | Bol =>
      match prev with
      | None => k prev s
      | Some _ => None
      end
  | Bnd =>
      if xorb (is_word_at prev) (is_word_at (head s)) then k prev s else None
  end.

(** A match object: the text before the match, [group(0)], and the text
    after it. *)
Record rmatch : Type := MkMatch { m_pre : str; group0 : str; m_post : str }.

(** [re.match(r, s)] when [prev] is [None] and [pre] is empty; in general
    the attempt at one position. *)
Definition match_at (r : regex) (pre : str) (prev : option ascii) (s : str)
  : option rmatch :=
  match run r prev s (fun _ rest => Some rest) with
  | Some rest =>
      Some (MkMatch (rev pre) (take (length s - length rest) s) rest)
  | None => None
  end.

(** The scan of [re.search]: positions are tried from left to right;
    [pre] is the text already skipped, reversed. *)
Fixpoint search_from (r : regex) (pre : str) (s : str) : option rmatch :=
  match match_at r pre (head pre) s with
  | Some m => Some m
  | None =>
      match s with
      | [] => None
      | c :: s' => search_from r (c :: pre) s'
      end
  end.

(** [re.search(r, s)] *)
Definition search (r : regex) (s : str) : option rmatch := search_from r [] s.

(** [re.match(r, s)] *)
Definition rematch (r : regex) (s : str) : option rmatch := match_at r [] None s.

(** [re.findall(r, s)] for a pattern without groups: the successive
    non-overlapping matches.  After an empty match the scan moves one
    character on. *)
Fixpoint findall_from (fuel : nat) (r : regex) (pre : str) (s : str) : list str :=
  match fuel with
  | 0 => []
  | S fuel' =>
      match search_from r pre s with
      | None => []
      | Some m =>
          let pre' := rev (group0 m) ++ rev (m_pre m) in
          match group0 m, m_post m with
          | [], [] => [[]]
          | [], c :: rest => [] :: findall_from fuel' r (c :: pre') rest
          | _ :: _, rest => group0 m :: findall_from fuel' r pre' rest
          end
      end
  end.

Definition findall (r : regex) (s : str) : list str :=
  findall_from (S (length s)) r [] s.

(** Pattern syntax. *)
Definition opt (a : regex) : regex := Rep a 0 (Some 1).
Definition plus (a : regex) : regex := Rep a 1 None.
Definition star (a : regex) : regex := Rep a 0 None.
Definition times (a : regex) (lo hi : nat) : regex := Rep a lo (Some hi).
Definition at_least (a : regex) (lo : nat) : regex := Rep a lo None.

Definition char (c : ascii) : regex := Chr (Ascii.eqb c).
(** A character of a pattern compiled with [re.I]. *)
Definition char_i (c : ascii) : regex :=
  Chr (fun x => Ascii.eqb (lower_char x) (lower_char c)).

Fixpoint seqs (l : list regex) : regex :=
  match l with
  | [] => Eps
  | [a] => a
  | a :: l' => Seq a (seqs l')
  end.

Definition word (s : string) : regex := seqs (map char (lit s)).
Definition word_i (s : string) : regex := seqs (map char_i (lit s)).

Definition one_of (s : string) (c : ascii) : bool :=
  existsb (Ascii.eqb c) (lit s).

Definition digit : regex := Chr isdigit.

(** The texts of a pattern.  [matches r prev m rest]: [r] matches the text
    [m] when [prev] is the character before it and [rest] is what
    follows. *)
Definition last_char (prev : option ascii) (m : str) : option ascii :=
  match last m with
  | Some c => Some c
  | None => prev
  end.

Fixpoint iterated (P : option ascii -> str -> str -> Prop) (n : nat)
    (prev : option ascii) (m rest : str) : Prop :=
  match n with
  | 0 => m = []
  | S n' => exists m1 m2, m = m1 ++ m2 /\ m1 <> [] /\ P prev m1 (m2 ++ rest)
                          /\ iterated P n' (last_char prev m1) m2 rest
  end.

Fixpoint matches (r : regex) (prev : option ascii) (m rest : str) : Prop :=
  match r with
  | Eps => m = []
  | Chr p => exists c, m = [c] /\ p c = true
  | Seq a b =>
      exists m1 m2, m = m1 ++ m2 /\ matches a prev m1 (m2 ++ rest)
                    /\ matches b (last_char prev m1) m2 rest
  | Alt a b => matches a prev m rest \/ matches b prev m rest
  | Rep a lo hi =>
      exists n, lo <= n /\ (forall h, hi = Some h -> n <= h)
                /\ iterated (matches a) n prev m rest
  | Bol => m = [] /\ prev = None
  | Bnd => m = [] /\ xorb (is_word_at prev) (is_word_at (head rest)) = true
  end.

(** What a sound matcher of a pattern with texts [P] does. *)
Definition sound_for
    (body : option ascii -> str -> (option ascii -> str -> option str) -> option str)
    (P : option ascii -> str -> str -> Prop) : Prop :=
  forall prev s k x,
    body prev s k = Some x ->
    exists m rest, s = m ++ rest /\ P prev m rest
                   /\ k (last_char prev m) rest = Some x.

End Re.

(** ** utils/helpers.py *)

Module Helpers.

Definition CR : ascii := ascii_of_nat 13.
Definition LF : ascii := ascii_of_nat 10.
Definition SP : ascii := ascii_of_nat 32.

(** [re.sub(r'[p]+', ' ', s)]: every maximal run of characters of the class
    is replaced by one space; [inrun] tells that the previous character
    belonged to the run being replaced. *)
Fixpoint sub_runs (p : ascii -> bool) (inrun : bool) (s : str) : str :=
  match s with
  | [] => []
  | c :: r =>
      if p c then (if inrun then sub_runs p true r else SP :: sub_runs p true r)
      else c :: sub_runs p false r
  end.

(** [clean_text(text)] *)
Definition clean_text (text : str) : str :=
  let text := replace_char LF SP (replace_char CR SP text) in
  let text := sub_runs isspace false text in
  strip text.

End Helpers.

(** ** Python values *)

Module Py.

(** A [float]: a number (kept as the rational it denotes), an infinity or
    NaN. *)
Inductive pyfloat : Type :=
| FNum (q : Q)
| FInf (negative : bool)
| FNaN.

(** The values that reach the validator and the store: what a JSON reply
    or a parsed model carries.  [VOther] is any other object (a list or a
    dict of a JSON reply), given by its [str()]. *)
Inductive value : Type :=
| VNone
| VBool (b : bool)
| VInt (z : Z)
| VFloat (f : pyfloat)
| VStr (s : str)
| VOther (repr : str).

#[global] Instance Q_eq_dec : EqDecision Q.
Proof. solve_decision. Defined.
#[global] Instance pyfloat_eq_dec : EqDecision pyfloat.
Proof. solve_decision. Defined.
#[global] Instance value_eq_dec : EqDecision value.
Proof. solve_decision. Defined.

(** The result of a call that may raise. *)
Inductive outcome (A : Type) : Type :=
| Returned (a : A)
| Raised.
Arguments Returned {A} a.
Arguments Raised {A}.

(** Values at or beyond this bound do not fit a binary64 float. *)
Definition float_bound : Z := (2 ^ 1024 - 2 ^ 970)%Z.

(** Conversion of an exact number read from a string: out of range gives
    an infinity. *)
Definition float_of_Q (q : Q) : pyfloat :=
  if Qle_bool (inject_Z float_bound) q then FInf false
  else if Qle_bool q (inject_Z (- float_bound)) then FInf true
  else FNum q.

(** [float(z)] on an [int]: [None] stands for [OverflowError]. *)
Definition float_of_int (z : Z) : option pyfloat :=
  if (float_bound <=? Z.abs z)%Z then None else Some (FNum (inject_Z z)).

Definition digit_val (c : ascii) : Z := Z.of_nat (code c - 48).

Fixpoint int_of_digits (acc : Z) (s : str) : option Z :=
  match s with
  | [] => Some acc
  | c :: r =>
      if isdigit c then int_of_digits (10 * acc + digit_val c)%Z r else None
  end.

(** [float(s)] on the unsigned decimal numerals [ddd] and [ddd.ddd], the
    only strings the source passes to it; [None] stands for [ValueError]. *)
Definition float_of_str (s : str) : option pyfloat :=
  match split_on (Ascii.eqb ".") [] s with
  | [ip] =>
      match ip with
      | [] => None
      | _ => z ← int_of_digits 0 ip; Some (float_of_Q (inject_Z z))
      end
  | [ip; fp] =>
      match ip ++ fp with
      | [] => None
      | ds => z ← int_of_digits 0 ds;
              Some (float_of_Q (Qmake z (Z.to_pos (10 ^ Z.of_nat (length fp)))))
      end
  | _ => None
  end.

Definition float_is_zero (f : pyfloat) : bool :=
  match f with
  | FNum q => Qeq_bool q (inject_Z 0)
  | _ => false
  end.

(** A finite float that is not negative. *)
Definition finite_nonneg (f : pyfloat) : bool :=
  match f with
  | FNum q => Qle_bool (inject_Z 0) q
  | _ => false
  end.

(** [str(z)] on an [int]. *)
Definition str_of_int (z : Z) : str :=
  lit (DecimalString.NilZero.string_of_int (Z.to_int z)).

Section Repr.

(** [repr] of a float (the shortest numeral that reads back as it) is the
    interpreter's. *)
Variable float_repr : pyfloat -> str.

(** [str(v)] *)
Definition py_str (v : value) : str :=
  match v with
  | VNone => lit "None"
  | VBool true => lit "True"
  | VBool false => lit "False"
  | VInt z => str_of_int z
  | VFloat f => float_repr f
  | VStr s => s
  | VOther r => r
  end.

End Repr.

(** [not v] *)
Definition falsy (v : value) : bool :=
  match v with
  | VNone => true
  | VBool b => negb b
  | VInt z => (z =? 0)%Z
  | VFloat f => float_is_zero f
  | VStr s => bool_decide (s = [])
  | VOther r => bool_decide (r = lit "[]") || bool_decide (r = lit "{}")
  end.

Definition NOT_FOUND : str := lit "Not Found".

End Py.

Import Py.

(** ** utils/validators.py *)

Module Validators.

Import Re.

Definition keys : list string :=
  [ "resume_id"; "file_name"; "upload_date"; "name"; "email"; "phone";
    "highest_degree"; "college_name"; "graduation_year"; "major"; "cgpa";
    "total_experience_years"; "current_company"; "current_designation";
    "previous_companies"; "technical_skills"; "programming_languages";
    "frameworks_tools"; "soft_skills"; "certifications"; "linkedin";
    "github" ]%string.

(** [\d+(?:\.\d+)?] *)
Definition number_re : regex :=
  Seq (plus digit) (opt (Seq (char ".") (plus digit))).

(** [(19|20)\d{2}] *)
Definition year_re : regex :=
  Seq (Alt (word "19") (word "20")) (times digit 2 2).

(** The texts of [(19|20)\d{2}]. *)
Definition year_text (m : str) : Prop :=
  exists a b c d, m = [a; b; c; d]
    /\ ((a = "1"%char /\ b = "9"%char) \/ (a = "2"%char /\ b = "0"%char))
    /\ isdigit c = true /\ isdigit d = true.

(** The texts of [\d+(?:\.\d+)?]. *)
Definition number_text (m : str) : Prop :=
  exists ip fp, ip <> [] /\ Forall (fun c => isdigit c = true) ip
    /\ Forall (fun c => isdigit c = true) fp
    /\ (m = ip \/ (fp <> [] /\ m = ip ++ "."%char :: fp)).

Section Validate.

Variable float_repr : pyfloat -> str.

(** The branch for [total_experience_years]; every exception of the
    [try] block gives [0.0]. *)
Definition coerce_experience (v : value) : value :=
  let zero := VFloat (FNum (inject_Z 0)) in
  match v with
  | VBool b => VFloat (FNum (inject_Z (if b then 1 else 0)))
  | VInt z =>
      match float_of_int z with
      | Some f => VFloat f
      | None => zero
      end
  | VFloat f => VFloat f
  | _ =>
      match findall number_re (py_str float_repr v) with
      | num0 :: _ =>
          match float_of_str num0 with
          | Some f => VFloat f
          | None => zero
          end
      | [] => zero
      end
  end.

(** The branch for [graduation_year], before the final [strip]. *)
Definition coerce_year (v : value) : value :=
  match search year_re (py_str float_repr v) with
  | Some year_match => VStr (group0 year_match)
  | None => VStr []
  end.

Definition strip_value (v : value) : value :=
  match v with
  | VStr s => VStr (strip s)
  | _ => v
  end.

(** One turn of the loop over [keys], on [v = data.get(k, 'Not Found')]. *)
Definition validate_field (k : string) (v : value) : value :=
  if decide (k = "total_experience_years"%string) then coerce_experience v
  else if decide (k = "graduation_year"%string) then strip_value (coerce_year v)
  else strip_value v.

(** [validate_resume_data(data)] *)
Definition validate_resume_data (data : gmap string value) : gmap string value :=
  foldl (fun clean k =>
           <[k := validate_field k (default (VStr NOT_FOUND) (data !! k))]> clean)
        ∅ keys.

End Validate.

End Validators.

(** ** Calls to collaborators

    A computation yields its result together with the calls it made, in
    order. *)

Module Trace.

Inductive call : Type :=
| CallVision (file_type : str)     (* extract_with_openai_vision *)
| CallTextPdf                      (* extract_text_from_pdf *)
| CallTextDocx                     (* extract_text_from_docx *)
| CallModel (resume_text : str)    (* chain.invoke *)
| CallRules (resume_text : str)    (* extract_with_rules *)
| Report (message : str).          (* st.warning / st.error *)

Definition traced (A : Type) : Type := (A * list call)%type.

Definition ret {A : Type} (a : A) : traced A := (a, []).

Definition bind {A B : Type} (m : traced A) (f : A -> traced B) : traced B :=
  let (a, t) := m in
  let (b, t') := f a in
  (b, t ++ t').

Definition emit (c : call) : traced unit := (tt, [c]).

Definition result {A : Type} (m : traced A) : A := fst m.
Definition calls {A : Type} (m : traced A) : list call := snd m.

(** The calls of the second and third tier. *)
Definition is_extraction_call (c : call) : bool :=
  match c with
  | CallModel _ | CallRules _ => true
  | _ => false
  end.

End Trace.

Import Trace.

Notation "'let*' x ':=' m 'in' k" := (Trace.bind m (fun x => k))
  (at level 10, x name, m at level 100, k at level 200).

(** ** extractors/langchain_extractor.py *)

Module LangchainExtractor.

Import Re.

(** [class ResumeFields(BaseModel)] *)
Record ResumeFields : Type := {
  name : str;
  email : str;
  phone : str;
  linkedin : str;
  github : str;
  highest_degree : str;
  college_name : str;
  graduation_year : str;
  major : str;
  cgpa : str;
  total_experience_years : pyfloat;
  current_company : str;
  current_designation : str;
  previous_companies : str;
  technical_skills : str;
  programming_languages : str;
  frameworks_tools : str;
  soft_skills : str;
  certifications : str
}.

(** [result.model_dump()] *)
Definition model_dump (r : ResumeFields) : gmap string value :=
  list_to_map
    [ ("name", VStr (name r)); ("email", VStr (email r));
      ("phone", VStr (phone r)); ("linkedin", VStr (linkedin r));
      ("github", VStr (github r));
      ("highest_degree", VStr (highest_degree r));
      ("college_name", VStr (college_name r));
      ("graduation_year", VStr (graduation_year r));
      ("major", VStr (major r)); ("cgpa", VStr (cgpa r));
      ("total_experience_years", VFloat (total_experience_years r));
      ("current_company", VStr (current_company r));
      ("current_designation", VStr (current_designation r));
      ("previous_companies", VStr (previous_companies r));
      ("technical_skills", VStr (technical_skills r));
      ("programming_languages", VStr (programming_languages r));
      ("frameworks_tools", VStr (frameworks_tools r));
      ("soft_skills", VStr (soft_skills r));
      ("certifications", VStr (certifications r)) ]%string.

(** The keys of the literal that [extract_with_rules] starts from. *)
Definition rule_keys : list string :=
  [ "name"; "email"; "phone"; "linkedin"; "github"; "highest_degree";
    "college_name"; "graduation_year"; "major"; "cgpa";
    "total_experience_years"; "current_company"; "current_designation";
    "previous_companies"; "technical_skills"; "programming_languages";
    "frameworks_tools"; "soft_skills"; "certifications" ]%string.

(** A mapping with exactly the keys of the literal the extractor starts
    from. *)
Definition rule_shaped (data : gmap string value) : Prop :=
  dom data = list_to_set rule_keys.

Definition rule_default (k : string) : value :=
  if decide (k = "total_experience_years"%string)
  then VFloat (FNum (inject_Z 0)) else VStr NOT_FOUND.

Definition rule_defaults : gmap string value :=
  list_to_map (map (fun k => (k, rule_default k)) rule_keys).

(** [[A-Za-z0-9._%+-]+@[A-Za-z0-9.-]+\.[A-Za-z]{2,}] *)
Definition email_local (c : ascii) : bool :=
  isalpha_ascii c || isdigit c || one_of "._%+-" c.
Definition email_domain (c : ascii) : bool :=
  isalpha_ascii c || isdigit c || one_of ".-" c.
Definition email_re : regex :=
  seqs [ plus (Chr email_local); char "@"; plus (Chr email_domain);
         char "."; at_least (Chr isalpha_ascii) 2 ].

(** [(?:(?:\+?\d{1,3}[\s.-]?)?(?:\(\d{2,4}\)[\s.-]?)?\d{3,4}[\s.-]?\d{3,4}[\s.-]?\d{0,4})] *)
Definition phone_sep (c : ascii) : bool := isspace c || one_of ".-" c.
Definition phone_re : regex :=
  seqs [ opt (seqs [ opt (char "+"); times digit 1 3; opt (Chr phone_sep) ]);
         opt (seqs [ char "("; times digit 2 4; char ")"; opt (Chr phone_sep) ]);
         times digit 3 4; opt (Chr phone_sep);
         times digit 3 4; opt (Chr phone_sep);
         times digit 0 4 ].

(** [linkedin\.com\S*] and [github\.com\S*], compiled with [re.IGNORECASE] *)
Definition nonspace (c : ascii) : bool := negb (isspace c).
Definition linkedin_re : regex :=
  seqs [ word_i "linkedin"; char_i "."; word_i "com"; star (Chr nonspace) ].
Definition github_re : regex :=
  seqs [ word_i "github"; char_i "."; word_i "com"; star (Chr nonspace) ].

(** [@|linkedin|github|\d], compiled with [re.I] *)
Definition not_a_name_re : regex :=
  Alt (char_i "@") (Alt (word_i "linkedin") (Alt (word_i "github") digit)).

(** [(19|20)\d{2}] *)
Definition year_re : regex :=
  Seq (Alt (word "19") (word "20")) (times digit 2 2).

(** [^skills\b], compiled with [re.I] *)
Definition skills_re : regex := seqs [ Bol; word_i "skills"; Bnd ].

Definition header_keywords : list str :=
  map lit [ "objective"; "summary"; "experience"; "education"; "skills" ]%string.

Definition degree_map : list (str * str) :=
  map (fun kv => (lit (fst kv), lit (snd kv)))
    [ ("phd", "PhD"); ("doctor", "PhD"); ("masters", "Masters");
      ("ms", "Masters"); ("m.s", "Masters"); ("m.tech", "Masters");
      ("mtech", "Masters"); ("bachelors", "Bachelors"); ("bs", "Bachelors");
      ("b.s", "Bachelors"); ("b.tech", "Bachelors"); ("btech", "Bachelors")
    ]%string.

(** The test of the name loop on one line. *)
Definition name_candidate (ln : str) : bool :=
  (length (split_ws ln) <=? 6)
  && negb (bool_decide (lower ln ∈ header_keywords))
  && negb (bool_decide (is_Some (search not_a_name_re ln))).

(** The loop over [enumerate(lines)] that finds the skills section. *)
Fixpoint find_skills_section (lines : list str) : option str :=
  match lines with
  | [] => None
  | ln :: rest =>
      if bool_decide (is_Some (rematch skills_re ln))
      then Some (join (lit " ") (take 10 lines))
      else find_skills_section rest
  end.

(** [[,\|\n;]] *)
Definition skills_separator (c : ascii) : bool :=
  one_of ",|;" c || (code c =? 10).

Definition set_if {A : Type} (k : string) (o : option A) (f : A -> value)
    (data : gmap string value) : gmap string value :=
  match o with
  | Some a => <[k := f a]> data
  | None => data
  end.

(** [extract_with_rules(resume_text)]; the argument may be [None]. *)
Definition extract_with_rules (resume_text : option str) : gmap string value :=
  let text := default [] resume_text in
  let data := rule_defaults in
  (* Email *)
  let data := set_if "email" (search email_re text)
                (fun m => VStr (group0 m)) data in
  (* Phone *)
  let data :=
    match search phone_re text with
    | Some m => if 10 <=? length (strip (group0 m))
                then <["phone" := VStr (strip (group0 m))]> data else data
    | None => data
    end in
  (* LinkedIn / GitHub *)
  let data := set_if "linkedin" (search linkedin_re text)
                (fun m => VStr (group0 m)) data in
  let data := set_if "github" (search github_re text)
                (fun m => VStr (group0 m)) data in
  (* Name heuristic *)
  let lines := map strip (filter (fun ln => strip ln ≠ []) (splitlines text)) in
  let data := set_if "name" (find (fun ln => name_candidate ln) (take 10 lines))
                VStr data in
  (* Degree and graduation year *)
  let lowered := lower text in
  let data := set_if "highest_degree"
                (find (fun kv => contains (fst kv) lowered) degree_map)
                (fun kv => VStr (snd kv)) data in
  let data := set_if "graduation_year" (search year_re text)
                (fun m => VStr (group0 m)) data in
  (* Technical skills section *)
  match find_skills_section lines with
  | Some skills_section =>
      match skills_section with
      | [] => data
      | _ =>
          let parts := split_on skills_separator [] skills_section in
          let tokens :=
            sorted_set (map strip (filter (fun p => 2 <= length (strip p)) parts)) in
          match tokens with
          | [] => data
          | _ => <["technical_skills" := VStr (join (lit ", ") tokens)]> data
          end
      end
  | None => data
  end.

(** The text-model service: whether the [langchain] imports succeeded,
    and what building and invoking the chain does on a resume text
    (it returns the parsed fields, or raises). *)
Record model_service : Type := {
  ChatOpenAI : bool;
  chain_invoke : str -> outcome ResumeFields
}.

(** [v in ("Not Found", 0.0, "")] *)
Definition is_default (v : value) : bool :=
  match v with
  | VStr s => bool_decide (s = NOT_FOUND) || bool_decide (s = [])
  | VFloat f => float_is_zero f
  | VInt z => (z =? 0)%Z
  | VBool b => negb b
  | _ => false
  end.

(** [all(v in ("Not Found", 0.0, "") for v in data.values())] *)
Definition all_default (data : gmap string value) : bool :=
  forallb (fun kv => is_default (snd kv)) (map_to_list data).

(** One turn of the loop [for k, v in rule_data.items()]. *)
Definition backfill_step (data : gmap string value) (kv : string * value)
  : gmap string value :=
  match data !! fst kv with
  | Some d => if is_default d || falsy d then <[fst kv := snd kv]> data else data
  | None => data
  end.

Definition backfill (data rule_data : gmap string value) : gmap string value :=
  foldl backfill_step data (map_to_list rule_data).

Definition call_rules (resume_text : str) : traced (gmap string value) :=
  let* _ := emit (CallRules resume_text) in
  ret (extract_with_rules (Some resume_text)).

Definition call_model (svc : model_service) (resume_text : str)
  : traced (outcome ResumeFields) :=
  let* _ := emit (CallModel resume_text) in
  ret (chain_invoke svc resume_text).

(** The size of the slice [resume_text[:12000]]. *)
Definition TEXT_BUDGET : nat := 12 * 1000.

(** [extract_with_langchain(resume_text)] *)
Definition extract_with_langchain (svc : model_service) (resume_text : str)
  : traced (gmap string value) :=
  if bool_decide (resume_text = []) || (length (strip resume_text) <? 20)
  then ret ∅
  else if negb (ChatOpenAI svc) then call_rules resume_text
  else
    let* r := call_model svc (take TEXT_BUDGET resume_text) in
    match r with
    | Returned fields =>
        let data := model_dump fields in
        if bool_decide (data = ∅) || all_default data then
          let* rule_data := call_rules resume_text in
          ret (backfill data rule_data)
        else ret data
    | Raised => call_rules resume_text
    end.

End LangchainExtractor.

(** ** extractors/vision_extractor.py *)

Module VisionExtractor.

Definition bytes := list Byte.byte.

Section Pdfium.

(** Documents and images are those of the rasteriser. *)
Context {document image : Type}.

(** [pypdfium2] with [PIL]: opening a byte stream, [len(pdf)], and the
    body of the loop on page [i], [pdf[i].render(scale=scale).to_pil()]
    followed by [convert("RGB")].  Opening and rendering may raise. *)
Record pdfium_lib : Type := {
  PdfDocument : bytes -> outcome document;
  page_count : document -> nat;
  render : document -> nat -> Q -> outcome image
}.

(** The [for] loop inside the [try]: [n] pages are left, starting at page
    [i]; the first exception ends the loop and [images] is what the
    function goes on to return. *)
Fixpoint render_loop (lib : pdfium_lib) (pdf : document) (scale : Q)
    (i n : nat) (images : list image) : list image :=
  match n with
  | 0 => images
  | S n' =>
      match render lib pdf i scale with
      | Returned pil_image => render_loop lib pdf scale (S i) n' (images ++ [pil_image])
      | Raised => images
      end
  end.

(** [_pdf_to_images(pdf_bytes, max_pages, scale)]; [lib] is [None] when
    [pdfium is None or Image is None]. *)
Definition _pdf_to_images (lib : option pdfium_lib) (pdf_bytes : bytes)
    (max_pages : Z) (scale : Q) : list image :=
  match lib with
  | None => []
  | Some lib =>
      match PdfDocument lib pdf_bytes with
      | Returned pdf =>
          let n := Z.to_nat (Z.min (Z.of_nat (page_count lib pdf)) max_pages) in
          render_loop lib pdf scale 0 n []
      | Raised => []
      end
  end.

End Pdfium.

Arguments pdfium_lib : clear implicits.

(** The default arguments [max_pages=3] and [scale=2.0]. *)
Definition default_max_pages : Z := 3%Z.
Definition default_scale : Q := inject_Z 2.

End VisionExtractor.

(** ** app.py *)

Module App.

Import LangchainExtractor VisionExtractor.

(** What [process_single_resume] calls: the vision tier, the two text
    extractors, the text-model service, and the sources of the identity
    fields ([uuid4] and the clock). *)
Record services : Type := {
  extract_with_openai_vision : bytes -> str -> outcome (gmap string value);
  extract_text_from_pdf : bytes -> outcome str;
  extract_text_from_docx : bytes -> outcome str;
  model : model_service;
  generate_resume_id : str;
  now : str;
  float_repr : pyfloat -> str
}.

(** [Path(name).name] on a POSIX path: the last of the components between
    slashes, where an empty component and a component [.] do not count
    ([Path('b.pdf/.')] is [Path('b.pdf')]); [..] is a component like any
    other. *)
Definition final_component (name : str) : str :=
  List.last (filter (fun w => w ≠ [] /\ w ≠ ["."%char])
                    (split_on (Ascii.eqb "/") [] name)) [].

(** [Path(name).suffix]: the last dot of the final component and what
    follows, unless that dot is first or last.  (From Python 3.14 on a
    final dot is the suffix [.]; with or without it the extension is none
    of those that [process_single_resume] supports.) *)

Fixpoint take_until_dot (s : str) : option str :=
  match s with
  | [] => None
  | c :: r => if Ascii.eqb c "." then Some []
              else e ← take_until_dot r; Some (c :: e)
  end.

Definition suffix (name : str) : str :=
  let comp := final_component name in
  match take_until_dot (rev comp) with
  | Some ext_rev =>
      if bool_decide (ext_rev = []) || (length comp <=? S (length ext_rev))
      then [] else "."%char :: rev ext_rev
  | None => []
  end.

Definition call_vision (svc : services) (file_content : bytes) (file_type : str)
  : traced (outcome (gmap string value)) :=
  let* _ := emit (CallVision file_type) in
  ret (extract_with_openai_vision svc file_content file_type).

Definition call_text_pdf (svc : services) (file_content : bytes)
  : traced (outcome str) :=
  let* _ := emit CallTextPdf in
  ret (extract_text_from_pdf svc file_content).

Definition call_text_docx (svc : services) (file_content : bytes)
  : traced (outcome str) :=
  let* _ := emit CallTextDocx in
  ret (extract_text_from_docx svc file_content).

Definition report_none (message : string) (file_name : str)
  : traced (outcome (option (gmap string value))) :=
  let* _ := emit (Report (lit message ++ file_name)) in
  ret (Returned None).

(** From [if not ai_data:] after the branches on the extension to the
    [return resume_data]. *)
Definition finish (svc : services) (file_name : str) (ai_data : gmap string value)
  : traced (outcome (option (gmap string value))) :=
  if bool_decide (ai_data = ∅) then report_none "AI could not parse " file_name
  else
    let base : gmap string value :=
      {[ "resume_id"%string := VStr (generate_resume_id svc);
         "file_name"%string := VStr file_name;
         "upload_date"%string := VStr (now svc) ]} in
    ret (Returned (Some (Validators.validate_resume_data (float_repr svc)
                           (ai_data ∪ base)))).

(** The body of the [try] block; [Raised] is an exception on its way to
    the handler. *)
Definition process_body (svc : services) (file_name : str) (file_content : bytes)
  : traced (outcome (option (gmap string value))) :=
  let file_extension := lower (suffix file_name) in
  if bool_decide (file_extension = lit ".pdf") then
    let* v := call_vision svc file_content (lit "pdf") in
    match v with
    | Raised => ret Raised
    | Returned ai_data =>
        if bool_decide (ai_data = ∅) then
          let* t := call_text_pdf svc file_content in
          match t with
          | Raised => ret Raised
          | Returned text =>
              if bool_decide (text = []) || (length (strip text) <? 50)
              then report_none "Could not extract sufficient text from " file_name
              else
                let cleaned_text := Helpers.clean_text text in
                let* ai_data := extract_with_langchain (model svc) cleaned_text in
                finish svc file_name ai_data
          end
        else finish svc file_name ai_data
    end
  else if bool_decide (file_extension ∈ [lit ".docx"; lit ".doc"]) then
    let* v := call_vision svc file_content (lit "docx") in
    match v with
    | Raised => ret Raised
    | Returned ai_data =>
        if bool_decide (ai_data = ∅) then
          let* t := call_text_docx svc file_content in
          match t with
          | Raised => ret Raised
          | Returned text =>
              if bool_decide (text = [])
              then report_none "Failed to extract any text from " file_name
              else if length (strip text) <? 50
              then report_none "Could not extract sufficient text from " file_name
              else
                let cleaned_text := Helpers.clean_text text in
                let* ai_data := extract_with_langchain (model svc) cleaned_text in
                finish svc file_name ai_data
          end
        else finish svc file_name ai_data
    end
  else report_none "Unsupported file format: " file_extension.

(** [process_single_resume(file, file_content)]: the record, or [None]. *)
Definition process_single_resume (svc : services) (file_name : str)
    (file_content : bytes) : traced (option (gmap string value)) :=
  let* r := process_body svc file_name file_content in
  match r with
  | Returned resume_data => ret resume_data
  | Raised =>
      let* _ := emit (Report (lit "Error processing " ++ file_name)) in
      ret None
  end.

End App.

(** ** storage/excel_handler.py *)

Module ExcelHandler.

(** A [DataFrame]: the column labels in order, and the rows, each a
    mapping from labels to cells; a cell that a row does not hold is NaN. *)
Record DataFrame : Type := {
  columns : list string;
  rows : list (gmap string value)
}.

Definition NaN : value := VFloat FNaN.

Definition cell (r : gmap string value) (c : string) : value :=
  default NaN (r !! c).

(** [pd.isna] on a cell. *)
Definition isna (v : value) : bool :=
  match v with
  | VNone => true
  | VFloat FNaN => true
  | _ => false
  end.

(** [pd.DataFrame()] *)
Definition empty_frame : DataFrame := {| columns := []; rows := [] |}.

(** [df[cols]] and [df.reindex(columns=cols)]: the frame with exactly the
    columns [cols]. *)
Definition reindex (cols : list string) (df : DataFrame) : DataFrame :=
  {| columns := cols;
     rows := map (fun r => filter (fun kv => kv.1 ∈ cols) r) (rows df) |}.

(** [list(dict.fromkeys(l))]: the first occurrence of every label. *)
Fixpoint fromkeys (seen : list string) (l : list string) : list string :=
  match l with
  | [] => []
  | c :: r => if bool_decide (c ∈ seen) then fromkeys seen r
              else c :: fromkeys (c :: seen) r
  end.

(** [pd.concat([a, b], ignore_index=True)] on frames with the same columns. *)
Definition concat (a b : DataFrame) : DataFrame :=
  {| columns := fromkeys [] (columns a ++ columns b);
     rows := rows a ++ rows b |}.

(** What [drop_duplicates] compares cells by: missing cells ([None], NaN)
    are one value, numbers are compared by value whatever their type, and
    anything else by equality. *)
Inductive cell_id : Type :=
| IdMissing
| IdNum (q : Q)
| IdInf (negative : bool)
| IdStr (s : str)
| IdOther (repr : str).

#[global] Instance cell_id_eq_dec : EqDecision cell_id.
Proof. solve_decision. Defined.

Definition cell_key (v : value) : cell_id :=
  match v with
  | VNone => IdMissing
  | VFloat FNaN => IdMissing
  | VBool b => IdNum (inject_Z (if b then 1 else 0))
  | VInt z => IdNum (inject_Z z)
  | VFloat (FNum q) => IdNum (Qred q)
  | VFloat (FInf negative) => IdInf negative
  | VStr s => IdStr s
  | VOther repr => IdOther repr
  end.

(** The identity of a row: its cells under the labels of [subset]. *)
Definition identity (subset : list string) (r : gmap string value)
  : list cell_id :=
  map (fun c => cell_key (cell r c)) subset.

(** [drop_duplicates(subset=subset, keep='last')] on the rows: a row stays
    when no later row has the same cells under [subset]. *)
Fixpoint drop_duplicates_last (subset : list string)
    (rs : list (gmap string value)) : list (gmap string value) :=
  match rs with
  | [] => []
  | r :: rest =>
      if bool_decide (Exists (fun r' => identity subset r' = identity subset r) rest)
      then drop_duplicates_last subset rest
      else r :: drop_duplicates_last subset rest
  end.

(** What merge mode leaves under [subset]: the rows kept by the
    de-duplication, or all of them when there is no identity. *)
Definition kept_rows (subset : option (list string))
    (combined : list (gmap string value)) : list (gmap string value) :=
  match subset with
  | Some subset => drop_duplicates_last subset combined
  | None => combined
  end.

Definition drop_duplicates (subset : list string) (df : DataFrame) : DataFrame :=
  {| columns := columns df; rows := drop_duplicates_last subset (rows df) |}.

(** [df.fillna('Not Found')] *)
Definition fill_cell (v : value) : value :=
  if isna v then VStr NOT_FOUND else v.

Definition fill_row (cols : list string) (r : gmap string value)
  : gmap string value :=
  list_to_map (map (fun c => (c, fill_cell (cell r c))) cols).

Definition fillna (df : DataFrame) : DataFrame :=
  {| columns := columns df; rows := map (fill_row (columns df)) (rows df) |}.

#[global] Instance DataFrame_eq_dec : EqDecision DataFrame.
Proof. solve_decision. Defined.

(** A file of the store: a workbook, given by the frame whose cells its
    sheet holds (the frame that [to_excel] wrote it from), or a file that
    is no workbook. *)
Inductive file : Type :=
| Workbook (df : DataFrame)
| Unreadable.

Record filesystem : Type := {
  dirs : gset string;
  files : gmap string file
}.

(** What the model leaves to pandas and to the file system.
    - [read_excel]: the frame that [pd.read_excel] makes of a workbook.
      It is not the frame the workbook was written from: the cells are
      typed again, column by column (an empty string comes back as NaN, a
      column of digit strings as numbers), and the call may raise.
    - [mkdir_raises]: whether [Path('output').mkdir(exist_ok=True)]
      raises, as it does when [output] is a file.
    - [to_excel_raises]: whether [df.to_excel(out_path, index=False)]
      raises, as it does when the directory of [out_path] does not exist,
      when the extension of [out_path] names no engine, or when a cell
      cannot be written. *)
Record pandas : Type := {
  read_excel : DataFrame -> outcome DataFrame;
  mkdir_raises : filesystem -> bool;
  to_excel_raises : filesystem -> string -> DataFrame -> bool
}.

Definition default_path : string := "output/resume_data.xlsx".

(** [df.to_excel(out_path, index=False)] *)
Definition to_excel (io : pandas) (fs : filesystem) (out_path : string)
    (df : DataFrame) : outcome filesystem :=
  if to_excel_raises io fs out_path df then Raised
  else Returned {| dirs := dirs fs;
                   files := <[out_path := Workbook df]> (files fs) |}.

(** The rows loaded in merge mode: [pd.read_excel(out_path)] when the path
    exists and reads, [pd.DataFrame()] otherwise. *)
Definition load_existing (io : pandas) (fs : filesystem) (out_path : string)
  : DataFrame :=
  match files fs !! out_path with
  | Some (Workbook df) =>
      match read_excel io df with
      | Returned existing => existing
      | Raised => empty_frame
      end
  | Some Unreadable => empty_frame
  | None => empty_frame
  end.

(** The [if]/[elif] that picks the columns of the identity: [resume_id]
    when it is a column, else [file_name] with [upload_date] when both are,
    else none. *)
Definition dedup_subset (cols : list string) : option (list string) :=
  if bool_decide ("resume_id"%string ∈ cols)
  then Some ["resume_id"%string]
  else if forallb (fun c => bool_decide (c ∈ cols))
                  ["file_name"; "upload_date"]%string
  then Some ["file_name"; "upload_date"]%string
  else None.

(** The merge of the frame to save into the existing one, up to the
    [fillna]. *)
Definition merge_frames (existing df_to_save : DataFrame) : DataFrame :=
  let all_cols := fromkeys [] (columns existing ++ columns df_to_save) in
  let existing := reindex all_cols existing in
  let df_to_save := reindex all_cols df_to_save in
  let combined := concat existing df_to_save in
  let combined :=
    match dedup_subset (columns combined) with
    | Some subset => drop_duplicates subset combined
    | None => combined
    end in
  fillna combined.

(** The frame that merge mode saves: the argument, or its projection on
    those of [selected_columns] that it has. *)
Definition frame_to_save (df : DataFrame)
    (selected_columns : option (list string)) : DataFrame :=
  match selected_columns with
  | Some (c :: cs) =>
      reindex (List.filter (fun c => bool_decide (c ∈ columns df)) (c :: cs)) df
  | _ => df
  end.

(** The file system after [Path('output').mkdir(exist_ok=True)]. *)
Definition mkdir_output (fs : filesystem) : filesystem :=
  {| dirs := {[ "output"%string ]} ∪ dirs fs; files := files fs |}.

(** The frame that [save_to_excel] hands to [to_excel]: [combined] in
    merge mode, the filled [df_to_save] in overwrite mode. *)
Definition frame_written (io : pandas) (fs : filesystem) (df : DataFrame)
    (out_path : option string) (selected_columns : option (list string))
    (merge : bool) : DataFrame :=
  let out_path := default default_path out_path in
  let df_to_save := frame_to_save df selected_columns in
  if merge then merge_frames (load_existing io fs out_path) df_to_save
  else fillna df_to_save.

(** [save_to_excel(df, out_path, selected_columns, merge)]: the file
    system after the call and the path returned, or the exception of
    [mkdir] or of [to_excel]. *)
Definition save_to_excel (io : pandas) (fs : filesystem) (df : DataFrame)
    (out_path : option string) (selected_columns : option (list string))
    (merge : bool) : outcome (filesystem * string) :=
  let written := frame_written io fs df out_path selected_columns merge in
  let out_path := default default_path out_path in
  if mkdir_raises io fs then Raised
  else
    match to_excel io (mkdir_output fs) out_path written with
    | Returned fs => Returned (fs, out_path)
    | Raised => Raised
    end.



End ExcelHandler.

(** ** Sample collaborators and inputs *)

Module Samples.

Import LangchainExtractor App.

(** A parsed reply with every field at its default. *)
Definition blank_fields : ResumeFields :=
  {| name := NOT_FOUND; email := NOT_FOUND; phone := NOT_FOUND;
     linkedin := NOT_FOUND; github := NOT_FOUND; highest_degree := NOT_FOUND;
     college_name := NOT_FOUND; graduation_year := NOT_FOUND;
     major := NOT_FOUND; cgpa := NOT_FOUND;
     total_experience_years := FNum (inject_Z 0);
     current_company := NOT_FOUND; current_designation := NOT_FOUND;
     previous_companies := NOT_FOUND; technical_skills := NOT_FOUND;
     programming_languages := NOT_FOUND; frameworks_tools := NOT_FOUND;
     soft_skills := NOT_FOUND; certifications := NOT_FOUND |}.

(** A parsed reply that holds every field but the email. *)
Definition no_email_fields : ResumeFields :=
  {| name := lit "Jane Doe"; email := NOT_FOUND; phone := lit "555-123-4567";
     linkedin := lit "linkedin.com/in/jane"; github := lit "github.com/jane";
     highest_degree := lit "Bachelors"; college_name := lit "MIT";
     graduation_year := lit "2019"; major := lit "CS"; cgpa := lit "3.8";
     total_experience_years := FNum (inject_Z 5);
     current_company := lit "Acme"; current_designation := lit "Engineer";
     previous_companies := lit "Initech"; technical_skills := lit "Rocq";
     programming_languages := lit "OCaml"; frameworks_tools := lit "Dune";
     soft_skills := lit "Writing"; certifications := lit "None held" |}.

Definition resume_text : str := lit "Jane Doe jane.doe@example.com".

Definition blank_model : model_service :=
  {| ChatOpenAI := true; chain_invoke := fun _ => Returned blank_fields |}.

Definition no_email_model : model_service :=
  {| ChatOpenAI := true; chain_invoke := fun _ => Returned no_email_fields |}.

(** The vision tier yields nothing and the text layer holds ten
    characters. *)
Definition scanned_services : services :=
  {| extract_with_openai_vision := fun _ _ => Returned ∅;
     extract_text_from_pdf := fun _ => Returned (lit "  page 1 of 1  ");
     extract_text_from_docx := fun _ => Returned (lit "  page 1 of 1  ");
     model := blank_model;
     generate_resume_id := lit "0b0e3c1a";
     now := lit "2024-01-01 00:00:00";
     float_repr := fun _ => [] |}.

(** A word document renamed [.pdf]: the vision tier yields nothing for a
    PDF and would read the file as a word document, the PDF text layer
    holds ten characters, and the DOCX extractor would return a long
    text. *)
Definition renamed_services : services :=
  {| extract_with_openai_vision := fun _ file_type =>
       if bool_decide (file_type = lit "pdf") then Returned ∅
       else Returned {[ "name"%string := VStr (lit "Jane Doe") ]};
     extract_text_from_pdf := fun _ => Returned (lit "  page 1 of 1  ");
     extract_text_from_docx := fun _ =>
       Returned (lit "Jane Doe, jane.doe@example.com, B.Tech 2019, 5 years of Rocq");
     model := blank_model;
     generate_resume_id := lit "0b0e3c1a";
     now := lit "2024-01-01 00:00:00";
     float_repr := fun _ => [] |}.

(** The store and the frame of the last-wins test. *)
Definition old_frame : ExcelHandler.DataFrame :=
  {| ExcelHandler.columns := ["resume_id"; "name"]%string;
     ExcelHandler.rows :=
       [ {[ "resume_id"%string := VStr (lit "A");
            "name"%string := VStr (lit "Old") ]} ] |}.

Definition new_frame : ExcelHandler.DataFrame :=
  {| ExcelHandler.columns := ["resume_id"; "name"]%string;
     ExcelHandler.rows :=
       [ {[ "resume_id"%string := VStr (lit "A");
            "name"%string := VStr (lit "New") ]} ] |}.

Definition old_store : ExcelHandler.filesystem :=
  {| ExcelHandler.dirs := ∅;
     ExcelHandler.files :=
       {[ ExcelHandler.default_path := ExcelHandler.Workbook old_frame ]} |}.

(** pandas where nothing raises on the way to the file, and where the
    workbooks of the frames [known] read as they were written (their
    cells are words that [read_excel] types as text); no other workbook
    reads. *)
Definition reads_back (known : list ExcelHandler.DataFrame) : ExcelHandler.pandas :=
  {| ExcelHandler.read_excel := fun df =>
       if bool_decide (df ∈ known) then Returned df else Raised;
     ExcelHandler.mkdir_raises := fun _ => false;
     ExcelHandler.to_excel_raises := fun _ _ _ => false |}.

(** A frame that has the file name and neither [resume_id] nor
    [upload_date]. *)
Definition names_frame : ExcelHandler.DataFrame :=
  {| ExcelHandler.columns := ["file_name"]%string;
     ExcelHandler.rows := [ {[ "file_name"%string := VStr (lit "a.pdf") ]} ] |}.

(** pandas on the workbooks of the three frames above. *)
Definition word_io : ExcelHandler.pandas :=
  reads_back [old_frame; new_frame; names_frame].

(** A rasteriser for two-page documents whose second page fails to
    render; a document is its number of pages, an image the index of its
    page. *)
Definition torn_pdfium : VisionExtractor.pdfium_lib nat nat :=
  {| VisionExtractor.PdfDocument := fun _ => Returned 2;
     VisionExtractor.page_count := fun pdf => pdf;
     VisionExtractor.render := fun _ i _ =>
       match i with
       | 0 => Returned 0
       | _ => Raised
       end |}.

End Samples.

(** ** utils/validators.py: the contact helpers *)

Module Contact.

Import Re.

(** [[a-zA-Z0-9_.+-]], [[a-zA-Z0-9-]] and [[a-zA-Z0-9-.]] *)
Definition local_char (c : ascii) : bool :=
  isalpha_ascii c || isdigit c || one_of "_.+-" c.
Definition domain_char (c : ascii) : bool :=
  isalpha_ascii c || isdigit c || one_of "-" c.
Definition tail_char (c : ascii) : bool :=
  isalpha_ascii c || isdigit c || one_of "-." c.

(** [^[a-zA-Z0-9_.+-]+@[a-zA-Z0-9-]+\.[a-zA-Z0-9-.]+], the pattern of
    [is_valid_email] up to its final [$]. *)
Definition address_re : regex :=
  seqs [ Bol; plus (Chr local_char); char "@"; plus (Chr domain_char);
         char "."; plus (Chr tail_char) ].

(** The final [$] of a pattern: the end of the string, or the line feed
    that ends it. *)
Definition at_dollar (rest : str) : bool :=
  match rest with
  | [] => true
  | [c] => code c =? 10
  | _ => false
  end.

(** [is_valid_email(email)], that is [bool(re.match(pattern, email))] *)
Definition is_valid_email (email : str) : bool :=
  bool_decide
    (is_Some (run address_re None email
                (fun _ rest => if at_dollar rest then Some rest else None))).

(** The characters that [[^+\d]] does not match. *)
Definition phone_char (c : ascii) : bool := Ascii.eqb c "+" || isdigit c.

(** [clean_phone_number(phone)], that is [re.sub(r'[^+\d]', '', phone)]:
    every character of the class is deleted. *)
Definition clean_phone_number (phone : str) : str :=
  List.filter phone_char phone.

End Contact.

(** ** extractors/langchain_extractor.py: the keys the rules write *)

Module RuleSchema.

(** The keys that [extract_with_rules] assigns after the initial literal. *)
Definition written_keys : list string :=
  [ "email"; "phone"; "linkedin"; "github"; "name"; "highest_degree";
    "graduation_year"; "technical_skills" ]%string.

(** The keys of the literal that no later statement assigns. *)
Definition never_written : list string :=
  [ "college_name"; "major"; "cgpa"; "total_experience_years";
    "current_company"; "current_designation"; "previous_companies";
    "programming_languages"; "frameworks_tools"; "soft_skills";
    "certifications" ]%string.

(** The lines the name and the skills are looked for in:
    [[ln.strip() for ln in text.splitlines() if ln.strip()]]. *)
Definition lines_of (text : str) : list str :=
  map strip (filter (fun ln => strip ln <> []) (splitlines text)).

(** The tokens of the skills section, [[]] when there is no section. *)
Definition skill_tokens (text : str) : list str :=
  match LangchainExtractor.find_skills_section (lines_of text) with
  | Some skills_section =>
      sorted_set
        (map strip
           (filter (fun p => 2 <= length (strip p))
              (split_on LangchainExtractor.skills_separator [] skills_section)))
  | None => []
  end.

(** A link as the rules take it: the site's name in any case, then the
    characters up to the next white space or the end of the text. *)
Definition link_text (site : string) (g post : str) : Prop :=
  exists h tl,
    g = h ++ tl /\ lower h = lit site
    /\ Forall (fun c => isspace c = false) tl
    /\ (post = [] \/ exists c r, post = c :: r /\ isspace c = true).

(** [a < b] on strings, as [sorted] compares them. *)
Definition lt_str (a b : str) : Prop := Str.ltb a b = true.

End RuleSchema.

(** ** More sample collaborators *)

Module Samples2.

Import LangchainExtractor App.

(** The [langchain] imports failed. *)
Definition offline_model : model_service :=
  {| ChatOpenAI := false; chain_invoke := fun _ => Raised |}.

(** A text layer whose trimmed length is 62 and whose cleaned form is
    [a b]. *)
Definition sparse_text : str :=
  "a"%char :: repeat " "%char 60 ++ ["b"%char].

Definition make_services (vision : outcome (gmap string value)) (text : str)
  : services :=
  {| extract_with_openai_vision := fun _ _ => vision;
     extract_text_from_pdf := fun _ => Returned text;
     extract_text_from_docx := fun _ => Returned text;
     model := offline_model;
     generate_resume_id := lit "0b0e3c1a";
     now := lit "2024-01-01 00:00:00";
     float_repr := fun _ => [] |}.

Definition long_text : str :=
  lit "Jane Doe, jane.doe@example.com, B.Tech 2019, 5 years of Rocq".

End Samples2.

(** ** app.py: the records of the pipeline *)

Module Records.

Import LangchainExtractor App.

(** The identity fields that [process_single_resume] prepares. *)
Definition base_fields (svc : services) (file_name : str) : gmap string value :=
  {[ "resume_id"%string := VStr (generate_resume_id svc);
     "file_name"%string := VStr file_name;
     "upload_date"%string := VStr (now svc) ]}.

(** The two text branches: the extension, the name of the file type
    passed to the vision tier, and the text extractor used. *)
Definition branch (svc : services) (file_name : str) (file_content : VisionExtractor.bytes)
    (file_type : str) (text : outcome str) : Prop :=
  (lower (suffix file_name) = lit ".pdf" /\ file_type = lit "pdf"
   /\ text = extract_text_from_pdf svc file_content)
  \/ (lower (suffix file_name) <> lit ".pdf"
      /\ lower (suffix file_name) ∈ [lit ".docx"; lit ".doc"]
      /\ file_type = lit "docx"
      /\ text = extract_text_from_docx svc file_content).

Definition text_call (file_type : str) : call :=
  if bool_decide (file_type = lit "pdf") then CallTextPdf else CallTextDocx.

(** Where the extraction result [ai_data] of a file comes from: it is what
    the vision tier returned for the file type of the branch, or, when
    the vision tier returned the empty dict, what [extract_with_langchain]
    returned on the cleaned text of the extractor of the branch, a text
    of at least 50 characters once trimmed. *)
Definition extracted (svc : services) (file_name : str)
    (file_content : VisionExtractor.bytes) (ai_data : gmap string value) : Prop :=
  exists file_type text,
    branch svc file_name file_content file_type text
    /\ (extract_with_openai_vision svc file_content file_type = Returned ai_data
        \/ (extract_with_openai_vision svc file_content file_type = Returned ∅
            /\ exists t,
                 text = Returned t /\ 50 <= length (strip t)
                 /\ ai_data
                    = result (extract_with_langchain (model svc)
                                (Helpers.clean_text t)))).

End Records.


(** ** storage/excel_handler.py: rows and stores *)

Module Store.

Import ExcelHandler.

(** No cell of the row under the labels [cols] is missing. *)
Definition complete (cols : list string) (r : gmap string value) : Prop :=
  Forall (fun c => isna (cell r c) = false) cols.

(** The path holds no workbook that reads: [existing] is the empty frame. *)
Definition fresh (io : pandas) (fs : filesystem) (path : string) : Prop :=
  files fs !! path = None
  \/ files fs !! path = Some Unreadable
  \/ exists df, files fs !! path = Some (Workbook df)
                /\ read_excel io df = Raised.

(** The rows of [combined] that no row of [later] shares its identity
    with. *)
Definition unmatched (subset : list string) (later : list (gmap string value))
    (rs : list (gmap string value)) : list (gmap string value) :=
  List.filter
    (fun r => negb (bool_decide
                      (Exists (fun r' => identity subset r' = identity subset r)
                              later)))
    rs.

(** A row of [df.reindex(columns=cols)]: the cells under [cols]. *)
Definition project (cols : list string) (r : gmap string value)
  : gmap string value :=
  filter (fun kv : string * value => kv.1 ∈ cols) r.

(** A store whose workbook does not read. *)
Definition broken_store : filesystem :=
  {| dirs := ∅; files := {[ default_path := Unreadable ]} |}.

(** A frame of two resumes, one cell of which is missing. *)
Definition two_resumes : DataFrame :=
  {| columns := ["resume_id"; "name"; "email"]%string;
     rows :=
       [ {[ "resume_id"%string := VStr (lit "A");
            "name"%string := VStr (lit "Ann");
            "email"%string := VFloat FNaN ]};
         {[ "resume_id"%string := VStr (lit "B");
            "name"%string := VStr (lit "Bob");
            "email"%string := VStr (lit "bob@example.com") ]} ] |}.

(** pandas on the workbooks of [Samples.old_frame] and of its merge with
    [two_resumes]. *)
Definition sample_io : pandas :=
  Samples.reads_back
    [Samples.old_frame; merge_frames Samples.old_frame two_resumes].

(** A store of file names, and pandas on its workbook and on the merge of
    [Samples.names_frame] into it. *)
Definition names_store : filesystem :=
  {| dirs := ∅;
     files := {[ default_path := Workbook Samples.names_frame ]} |}.

Definition names_io : pandas :=
  Samples.reads_back
    [Samples.names_frame;
     merge_frames Samples.names_frame Samples.names_frame].

End Store.

(** ** extractors/vision_extractor.py: the request and its reply *)

Module Vision.

Import VisionExtractor.

(** [s.strip(chars)] for the characters [p], and [s.replace(old, '', 1)]. *)
Definition trim (p : ascii -> bool) (s : str) : str :=
  drop_while p (rev (drop_while p (rev s))).

Fixpoint remove_first (old s : str) : str :=
  match s with
  | [] => []
  | c :: r =>
      if starts_with old s then skipn (length old) s
      else c :: remove_first old r
  end.

Definition is_backtick (c : ascii) : bool := Ascii.eqb c "`".

(** The lines that take a reply out of its fence:
    [if text.startswith("```"): text = text.strip('`');
     text = text.replace("json", '', 1).strip()]. *)
Definition unfence (text : str) : str :=
  if starts_with (lit "```") text
  then strip (remove_first (lit "json") (trim is_backtick text))
  else text.

(** What [json.loads] returns: a dict, or another JSON value. *)
Inductive json : Type :=
| JDict (data : gmap string value)
| JOther.

Section Client.

Context {document image : Type}.

(** What the function calls: whether [from openai import OpenAI] worked,
    [os.getenv('OPENAI_API_KEY')], whether [OpenAI(api_key=api_key)]
    returns, the rasteriser, [_docx_to_images], which handles its own
    exceptions, [_img_to_data_url], the request
    [client.chat.completions.create(...)] with the reading of
    [resp.choices[0].message.content], and [json.loads]. *)
Record environment : Type := {
  OpenAI : bool;
  OPENAI_API_KEY : option str;
  new_client : str -> bool;
  pdfium : option (pdfium_lib document image);
  _docx_to_images : bytes -> list image;
  _img_to_data_url : image -> outcome str;
  reply : list str -> outcome (option str);
  json_loads : str -> outcome json
}.

(** The images of the file: [_docx_to_images(file_bytes)] when
    [file_type.lower() == 'docx'], else [_pdf_to_images(file_bytes)]. *)
Definition images_of (env : environment) (file_bytes : bytes) (file_type : str)
  : list image :=
  if bool_decide (lower file_type = lit "docx")
  then _docx_to_images env file_bytes
  else _pdf_to_images (pdfium env) file_bytes default_max_pages default_scale.

(** The loop that builds [contents]; it is outside every [try]. *)
Fixpoint data_urls (env : environment) (images : list image)
  : outcome (list str) :=
  match images with
  | [] => Returned []
  | img :: rest =>
      match _img_to_data_url env img with
      | Raised => Raised
      | Returned url =>
          match data_urls env rest with
          | Raised => Raised
          | Returned urls => Returned (url :: urls)
          end
      end
  end.

(** [extract_with_openai_vision(file_bytes, file_type)].  The name [json]
    is local to the function and bound by the [import json] that follows
    the request: an exception of the request reaches the clause
    [except json.JSONDecodeError] before the name is bound, the clause
    raises, and the exception leaves the function.  After the import an
    exception is handled and the result is the empty dict. *)
Definition extract_with_openai_vision (env : environment) (file_bytes : bytes)
    (file_type : str) : outcome (gmap string value) :=
  if bool_decide (file_bytes = []) then Returned ∅
  else if negb (OpenAI env) then Returned ∅
  else
    match OPENAI_API_KEY env with
    | None => Returned ∅
    | Some api_key =>
        if bool_decide (api_key = []) then Returned ∅
        else if negb (new_client env api_key) then Returned ∅
        else
          match images_of env file_bytes file_type with
          | [] => Returned ∅
          | images =>
              match data_urls env images with
              | Raised => Raised
              | Returned urls =>
                  match reply env urls with
                  | Raised => Raised
                  | Returned content =>
                      let text := strip (default [] content) in
                      let text := unfence text in
                      match json_loads env text with
                      | Returned (JDict data) => Returned data
                      | Returned JOther => Returned ∅
                      | Raised => Returned ∅
                      end
                  end
              end
          end
    end.

(** The call gets as far as the request, which is sent with [urls]. *)
Definition reaches_api (env : environment) (file_bytes : bytes)
    (file_type : str) (urls : list str) : Prop :=
  file_bytes <> []
  /\ OpenAI env = true
  /\ (exists api_key, OPENAI_API_KEY env = Some api_key /\ api_key <> []
                      /\ new_client env api_key = true)
  /\ images_of env file_bytes file_type <> []
  /\ data_urls env (images_of env file_bytes file_type) = Returned urls.

End Client.

Arguments environment : clear implicits.

(** A reply in a fence with the [json] tag. *)
Definition fenced (w1 w2 body w3 w4 : str) : str :=
  w1 ++ lit "```json" ++ w2 ++ body ++ w3 ++ lit "```" ++ w4.

(** An environment over the rasteriser of [Samples.torn_pdfium], which
    renders one page; the request gives [content] and the parser reads
    the text of [ann_json] as the dict [ann]. *)
Definition ann : gmap string value := {[ "name"%string := VStr (lit "Ann") ]}.

Definition dquote : ascii := "034"%char.

Definition ann_json : str :=
  lit "{" ++ [dquote] ++ lit "name" ++ [dquote] ++ lit ": "
  ++ [dquote] ++ lit "Ann" ++ [dquote] ++ lit "}".

Definition sample_env (content : outcome (option str)) : environment nat nat :=
  {| OpenAI := true;
     OPENAI_API_KEY := Some (lit "sk-test");
     new_client := fun _ => true;
     pdfium := Some Samples.torn_pdfium;
     _docx_to_images := fun _ => [];
     _img_to_data_url := fun _ => Returned (lit "data:image/png;base64,AA==");
     reply := fun _ => content;
     json_loads := fun text =>
       if bool_decide (text = ann_json)
       then Returned (JDict ann) else Raised |}.

(** The reply [```json], a line feed, [ann_json], a line feed, [```]. *)
Definition ann_reply : str :=
  fenced [] ["010"%char] ann_json ["010"%char] [].

Definition pdf_bytes : VisionExtractor.bytes :=
  [Byte.x25; Byte.x50; Byte.x44; Byte.x46].

(** Services whose vision tier is the function over [env], and whose text
    layer is long enough. *)
Definition sample_services (env : environment nat nat) : App.services :=
  {| App.extract_with_openai_vision := extract_with_openai_vision env;
     App.extract_text_from_pdf := fun _ => Returned Samples2.long_text;
     App.extract_text_from_docx := fun _ => Returned Samples2.long_text;
     App.model := Samples2.offline_model;
     App.generate_resume_id := lit "0b0e3c1a";
     App.now := lit "2024-01-01 00:00:00";
     App.float_repr := fun _ => [] |}.

End Vision.

(** ** parsers/pdf_parser.py *)

Module PdfParser.

Import VisionExtractor.

(** What a reader gives for a file: the texts of the pages it read, in
    order, [[]] for a page whose text is [None] or empty, and whether it
    stopped on an exception; the pages are then those read before it. *)
Record reading : Type := {
  page_texts : list str;
  failed : bool
}.

(** [pdfplumber], [PyPDF2], and [pdf2image] with [pytesseract]. *)
Record libraries : Type := {
  pdfplumber : bytes -> reading;
  PyPDF2 : bytes -> reading;
  tesseract : bytes -> reading
}.

(** The body of the three loops:
    [if page_text: text += page_text + "\n"]. *)
Definition add_page (text page_text : str) : str :=
  match page_text with
  | [] => text
  | _ => text ++ page_text ++ ["010"%char]
  end.

Definition add_pages (text : str) (pages : list str) : str :=
  fold_left add_page pages text.

(** [extract_text_with_ocr(file_content)]: an exception gives the empty
    string. *)
Definition extract_text_with_ocr (lib : libraries) (file_content : bytes) : str :=
  let r := tesseract lib file_content in
  if failed r then [] else add_pages [] (page_texts r).

(** [text and len(text.strip()) > 50] *)
Definition accepted (text : str) : bool :=
  negb (bool_decide (text = [])) && (50 <? length (strip text)).

(** [extract_text_from_pdf(file_content)]; [text] is one variable from
    the first reader to the last [return]. *)
Definition extract_text_from_pdf (lib : libraries) (file_content : bytes) : str :=
  let r := pdfplumber lib file_content in
  let text := add_pages [] (page_texts r) in
  if negb (failed r) && accepted text then text
  else
    let r := PyPDF2 lib file_content in
    let text := add_pages text (page_texts r) in
    if negb (failed r) && accepted text then text
    else if length (strip text) <? 50 then
      let ocr_text := extract_text_with_ocr lib file_content in
      if negb (bool_decide (ocr_text = [])) && (20 <? length (strip ocr_text))
      then ocr_text
      else text
    else text.

(** Two readers that read the same pages, and no OCR. *)
Definition same_readers (pages : list str) : libraries :=
  {| pdfplumber := fun _ => {| page_texts := pages; failed := false |};
     PyPDF2 := fun _ => {| page_texts := pages; failed := false |};
     tesseract := fun _ => {| page_texts := []; failed := true |} |}.

Definition short_page : str := lit "Jane Doe, jane.doe@example.com".

End PdfParser.

(** ** parsers/docx_parser.py *)

Module DocxParser.

Import VisionExtractor.

(** [Document(BytesIO(file_content))] and all that is read from it, up to
    [combined_text]; [Raised] when any of it raises. *)
Record library : Type := {
  combined_text : bytes -> outcome str
}.

(** [b'PK'] *)
Definition PK : bytes := [Byte.x50; Byte.x4b].

(** [s.startswith(prefix)] on bytes *)
Fixpoint startswith (prefix s : bytes) : bool :=
  match prefix, s with
  | [], _ => true
  | _ :: _, [] => false
  | a :: prefix', b :: s' => Byte.eqb a b && startswith prefix' s'
  end.

(** [extract_text_from_docx(file_content)] *)
Definition extract_text_from_docx (lib : library) (file_content : bytes) : str :=
  if bool_decide (file_content = []) then []
  else if negb (startswith PK file_content) then []
  else
    match combined_text lib file_content with
    | Returned text => text
    | Raised => []
    end.

(** The first bytes of a binary [.doc] file. *)
Definition ole_bytes : bytes := [Byte.xd0; Byte.xcf; Byte.x11; Byte.xe0].

Definition sample_services (lib : library) : App.services :=
  {| App.extract_with_openai_vision := fun _ _ => Returned ∅;
     App.extract_text_from_pdf := fun _ => Returned Samples2.long_text;
     App.extract_text_from_docx :=
       fun file_content => Returned (extract_text_from_docx lib file_content);
     App.model := Samples2.offline_model;
     App.generate_resume_id := lit "0b0e3c1a";
     App.now := lit "2024-01-01 00:00:00";
     App.float_repr := fun _ => [] |}.

End DocxParser.

(* ===================================================================== *)
(** * Part II.  Properties                                                *)
(* ===================================================================== *)

Example clean_text_sample :
  Helpers.clean_text (lit "  John   Doe  ") = lit "John Doe".
Proof. vm_compute. reflexivity. Qed.

Example validate_experience_sample :
  forall fr,
    Validators.validate_resume_data fr
      {[ "total_experience_years"%string := VStr (lit "5 years 3 months") ]}
      !! "total_experience_years"%string = Some (VFloat (FNum (inject_Z 5))).
Proof. intros. vm_compute. reflexivity. Qed.

Example validate_year_sample :
  forall fr,
    Validators.validate_resume_data fr
      {[ "graduation_year"%string := VStr (lit "Class of 2019, GPA 3.8") ]}
      !! "graduation_year"%string = Some (VStr (lit "2019")).
Proof. intros. vm_compute. reflexivity. Qed.

(** ** Strings: [strip] *)

Section DropWhile.

Variable p : ascii -> bool.

Lemma drop_while_split (s : str) :
  exists pre, s = pre ++ drop_while p s /\ Forall (fun c => p c = true) pre.
Proof.
  induction s as [|c r [pre [E F]]]; simpl.
  - exists []. split; [reflexivity | constructor].
  - destruct (p c) eqn:Hc.
    + exists (c :: pre). split; [simpl; congruence | by constructor].
    + exists []. split; [reflexivity | constructor].
Qed.

Lemma drop_while_head (s : str) (c : ascii) :
  head (drop_while p s) = Some c -> p c = false.
Proof.
  induction s as [|a r IH]; simpl; [discriminate|].
  destruct (p a) eqn:Ha; [exact IH|].
  simpl. intros [= <-]. exact Ha.
Qed.

Lemma drop_while_id (s : str) :
  (forall c, head s = Some c -> p c = false) -> drop_while p s = s.
Proof.
  destruct s as [|a r]; simpl; [reflexivity|].
  intros H. by rewrite (H a eq_refl).
Qed.

End DropWhile.

Lemma last_rev_head {A : Type} (l : list A) : last (rev l) = head l.
Proof.
  destruct l as [|a l]; [reflexivity|]. simpl.
  rewrite last_snoc. reflexivity.
Qed.

Lemma head_rev_last {A : Type} (l : list A) : head (rev l) = last l.
Proof. rewrite <- (rev_involutive l) at 2. symmetry. apply last_rev_head. Qed.

Lemma last_app_cons {A : Type} (pre : list A) (x : A) (l : list A) :
  last (pre ++ x :: l) = last (x :: l).
Proof.
  induction pre as [|a pre IH]; [reflexivity|].
  simpl. destruct (pre ++ x :: l) eqn:E; [by destruct pre|]. exact IH.
Qed.

Lemma last_cons_is_some {A : Type} (x : A) (l : list A) :
  exists y, last (x :: l) = Some y.
Proof.
  revert x. induction l as [|a l IH]; intros x; [by exists x|].
  destruct (IH a) as [y Hy]. exists y. exact Hy.
Qed.

Lemma rstrip_split (s : str) :
  exists post, s = rstrip s ++ post /\ Forall (fun c => isspace c = true) post.
Proof.
  unfold rstrip.
  destruct (drop_while_split isspace (rev s)) as [pre [E F]].
  exists (rev pre). split.
  - rewrite <- rev_app_distr, <- E. symmetry. apply rev_involutive.
  - rewrite Forall_forall in *. intros c Hc. apply F.
    apply list_elem_of_In. apply in_rev. by apply list_elem_of_In.
Qed.

Lemma rstrip_last (s : str) (c : ascii) :
  last (rstrip s) = Some c -> isspace c = false.
Proof.
  unfold rstrip. rewrite last_rev_head. apply drop_while_head.
Qed.

(** [strip] cuts a prefix and a suffix of white space off. *)
Lemma strip_split (s : str) :
  exists pre post, s = pre ++ strip s ++ post
    /\ Forall (fun c => isspace c = true) pre
    /\ Forall (fun c => isspace c = true) post.
Proof.
  destruct (rstrip_split s) as [post [E1 F1]].
  destruct (drop_while_split isspace (rstrip s)) as [pre [E2 F2]].
  exists pre, post. unfold strip, lstrip. split; [|by split].
  rewrite E1 at 1. rewrite E2 at 1. by rewrite <- app_assoc.
Qed.

Lemma strip_head (s : str) (c : ascii) :
  head (strip s) = Some c -> isspace c = false.
Proof. apply drop_while_head. Qed.

Lemma strip_last (s : str) (c : ascii) :
  last (strip s) = Some c -> isspace c = false.
Proof.
  unfold strip, lstrip.
  destruct (drop_while_split isspace (rstrip s)) as [pre [E F]].
  destruct (drop_while isspace (rstrip s)) as [|a l] eqn:D; [discriminate|].
  intros L. apply (rstrip_last s). rewrite E. by rewrite last_app_cons.
Qed.

(** A string without white space at either end is left alone. *)
Lemma strip_id (s : str) :
  (forall c, head s = Some c -> isspace c = false) ->
  (forall c, last s = Some c -> isspace c = false) ->
  strip s = s.
Proof.
  intros Hh Hl. unfold strip, lstrip, rstrip.
  rewrite (drop_while_id isspace (rev s)).
  - rewrite rev_involutive. by apply drop_while_id.
  - intros c. rewrite head_rev_last. apply Hl.
Qed.

Lemma strip_idempotent (s : str) : strip (strip s) = strip s.
Proof. apply strip_id; [apply strip_head | apply strip_last]. Qed.

(** ** [clean_text] *)

Section SubRuns.

Variable p : ascii -> bool.

Lemma sub_runs_class (b : bool) (s : str) (c : ascii) :
  c ∈ Helpers.sub_runs p b s -> p c = true -> c = Helpers.SP.
Proof.
  revert b. induction s as [|a r IH]; intros b; simpl.
  - by intros ?%elem_of_nil.
  - destruct (p a) eqn:Ha.
    + destruct b.
      * apply IH.
      * intros [->|H]%elem_of_cons; [done|]. by apply (IH true).
    + intros [->|H]%elem_of_cons; [congruence|]. by apply (IH false).
Qed.

Lemma sub_runs_inrun_head (s : str) (c : ascii) :
  head (Helpers.sub_runs p true s) = Some c -> p c = false.
Proof.
  induction s as [|a r IH]; simpl; [discriminate|].
  destruct (p a) eqn:Ha; [exact IH|].
  simpl. by intros [= <-].
Qed.

Lemma sub_runs_no_pair (b : bool) (s pre post : str) (c d : ascii) :
  Helpers.sub_runs p b s = pre ++ c :: d :: post ->
  p c = true -> p d = true -> False.
Proof.
  revert b pre. induction s as [|a r IH]; intros b pre; simpl.
  - by destruct pre.
  - assert (Hcons : forall b' x,
        x :: Helpers.sub_runs p b' r = pre ++ c :: d :: post ->
        (x = c -> p c = true -> b' = true) ->
        p c = true -> p d = true -> False).
    { intros b' x E Hx Hc Hd. destruct pre as [|y pre]; simpl in E.
      - injection E as -> E. rewrite (Hx eq_refl Hc) in E.
        pose proof (sub_runs_inrun_head r d) as H. rewrite E in H.
        specialize (H eq_refl). congruence.
      - injection E as -> E. by eapply IH. }
    destruct (p a) eqn:Ha.
    + destruct b.
      * apply IH.
      * intros E. by eapply Hcons.
    + intros E. eapply Hcons; [exact E|]. intros -> ?. congruence.
Qed.

End SubRuns.

(** The words of a text, and [clean_text] as their join. *)

Section WordFacts.

Lemma split_on_sep_app (p : ascii -> bool) (s cur : str) (c : ascii) (t : str) :
  p c = true ->
  split_on p cur (s ++ c :: t) = split_on p cur s ++ split_on p [] t.
Proof.
  intros Hc. revert cur. induction s as [|a s IH]; intros cur; simpl.
  - by rewrite Hc.
  - destruct (p a); [by rewrite IH | apply IH].
Qed.

Lemma split_ws_space_cons (c : ascii) (s : str) :
  isspace c = true -> split_ws (c :: s) = split_ws s.
Proof.
  intros Hc. unfold split_ws. simpl. rewrite Hc. simpl.
  by rewrite filter_cons_False by (intros H; by apply H).
Qed.

Lemma split_ws_spaces_l (pre s : str) :
  Forall (fun c => isspace c = true) pre -> split_ws (pre ++ s) = split_ws s.
Proof.
  induction 1 as [|c pre Hc _ IH]; [done|].
  simpl. by rewrite split_ws_space_cons.
Qed.

Lemma split_ws_spaces (post : str) :
  Forall (fun c => isspace c = true) post -> split_ws post = [].
Proof.
  intros H. rewrite <- (app_nil_r post). by rewrite split_ws_spaces_l.
Qed.

Lemma split_ws_spaces_r (s post : str) :
  Forall (fun c => isspace c = true) post -> split_ws (s ++ post) = split_ws s.
Proof.
  intros H. destruct H as [|c post Hc H]; [by rewrite app_nil_r|].
  pose proof (split_ws_spaces post H) as E.
  unfold split_ws in E |- *. rewrite split_on_sep_app by done.
  rewrite filter_app.
  etransitivity; [|apply app_nil_r]. f_equal. exact E.
Qed.

(** [strip] keeps the words. *)
Lemma split_ws_strip (s : str) : split_ws (strip s) = split_ws s.
Proof.
  destruct (strip_split s) as (pre & post & E & Fpre & Fpost).
  rewrite E at 2. rewrite split_ws_spaces_l by done.
  by rewrite split_ws_spaces_r.
Qed.

(** Replacing white space by white space keeps the words. *)
Lemma split_on_space_map (f : ascii -> ascii) (s cur : str) :
  (forall c, isspace (f c) = isspace c) ->
  (forall c, isspace c = false -> f c = c) ->
  split_on isspace cur (map f s) = split_on isspace cur s.
Proof.
  intros Hf Hid. revert cur. induction s as [|c s IH]; intros cur; simpl; [done|].
  rewrite Hf. destruct (isspace c) eqn:Hc; [by rewrite IH|].
  by rewrite (Hid c Hc), IH.
Qed.

Lemma split_ws_replace_char (a : ascii) (s : str) :
  isspace a = true ->
  split_ws (replace_char a Helpers.SP s) = split_ws s.
Proof.
  intros Ha. unfold split_ws, replace_char. f_equal.
  apply split_on_space_map; intros c.
  - destruct (Ascii.eqb c a) eqn:E; [|done].
    apply Ascii.eqb_eq in E as ->. by rewrite Ha.
  - intros Hc. destruct (Ascii.eqb c a) eqn:E; [|done].
    apply Ascii.eqb_eq in E as ->. congruence.
Qed.

Lemma filter_nonempty_nil (l : list str) :
  filter (fun w : str => w <> []) ([] :: l) = filter (fun w : str => w <> []) l.
Proof. apply filter_cons_False. intros H. by apply H. Qed.

Lemma filter_nonempty_cons (w : str) (l l' : list str) :
  filter (fun w : str => w <> []) l = filter (fun w : str => w <> []) l' ->
  filter (fun w : str => w <> []) (w :: l)
  = filter (fun w : str => w <> []) (w :: l').
Proof. intros E. rewrite !filter_cons. destruct (decide (w <> [])); congruence. Qed.

(** Collapsing the runs of white space keeps the words. *)
Lemma split_on_sub_runs (s cur : str) (b : bool) :
  (b = true -> cur = []) ->
  filter (fun w : str => w <> [])
    (split_on isspace cur (Helpers.sub_runs isspace b s))
  = filter (fun w : str => w <> []) (split_on isspace cur s).
Proof.
  revert cur b. induction s as [|c s IH]; intros cur b Hb; [done|].
  cbn [Helpers.sub_runs split_on]. destruct (isspace c) eqn:Hc.
  - destruct b.
    + rewrite (Hb eq_refl). cbn [rev]. rewrite filter_nonempty_nil.
      by apply IH.
    + cbn [split_on].
      assert (isspace Helpers.SP = true) as -> by reflexivity.
      apply filter_nonempty_cons. by apply IH.
  - cbn [split_on]. rewrite Hc. by apply IH.
Qed.

Lemma join_cons_cons (sep w w' : str) (ws : list str) :
  join sep (w :: w' :: ws) = w ++ sep ++ join sep (w' :: ws).
Proof. reflexivity. Qed.

Lemma rev_cons_nonempty (a : ascii) (cur : str) : rev (a :: cur) <> [].
Proof. simpl. intros H. by apply app_eq_nil in H as [_ ?]. Qed.

(** A text in which white space is single spaces between words is the
    join of its words; [cur] is the word being read, reversed. *)
Lemma normal_is_join (out cur : str) :
  (forall c, c ∈ out -> isspace c = true -> c = Helpers.SP) ->
  (forall pre c d post, out = pre ++ c :: d :: post ->
     ~ (isspace c = true /\ isspace d = true)) ->
  (forall c, last out = Some c -> isspace c = false) ->
  (cur <> [] \/ forall c, head out = Some c -> isspace c = false) ->
  rev cur ++ out
  = join [Helpers.SP]
      (filter (fun w : str => w <> []) (split_on isspace cur out)).
Proof.
  revert cur. induction out as [|c r IH]; intros cur N1 N2 N4 N3.
  - cbn [split_on]. rewrite app_nil_r. destruct cur as [|a cur].
    + rewrite filter_nonempty_nil. reflexivity.
    + rewrite filter_cons_True by apply rev_cons_nonempty. reflexivity.
  - assert (N1r : forall x, x ∈ r -> isspace x = true -> x = Helpers.SP).
    { intros x Hx. apply N1. by right. }
    assert (N2r : forall pre x d post, r = pre ++ x :: d :: post ->
                    ~ (isspace x = true /\ isspace d = true)).
    { intros pre x d post ->. by apply (N2 (c :: pre) x d post). }
    cbn [split_on]. destruct (isspace c) eqn:Hc.
    + assert (c = Helpers.SP) as -> by (apply N1; [by left | done]).
      destruct N3 as [Hcur|N3];
        [|specialize (N3 _ eq_refl); congruence].
      destruct cur as [|a cur]; [done|].
      destruct r as [|d r'].
      { specialize (N4 Helpers.SP eq_refl). congruence. }
      assert (Hd : isspace d = false).
      { destruct (isspace d) eqn:Hd; [|done].
        by destruct (N2 [] Helpers.SP d r' eq_refl). }
      assert (N4r : forall x, last (d :: r') = Some x -> isspace x = false).
      { intros x Hx. by apply N4. }
      assert (N3r : [] <> @nil ascii
                    \/ forall x, head (d :: r') = Some x -> isspace x = false).
      { right. intros x [= <-]. exact Hd. }
      specialize (IH [] N1r N2r N4r N3r). cbn [rev app] in IH.
      rewrite filter_cons_True by apply rev_cons_nonempty.
      destruct (filter (fun w : str => w <> [])
                  (split_on isspace [] (d :: r'))) as [|w ws] eqn:E.
      { discriminate IH. }
      rewrite join_cons_cons, <- IH. reflexivity.
    + rewrite <- (IH (c :: cur)); [|done|done| |by left].
      * cbn [rev]. by rewrite <- app_assoc.
      * intros x Hx. apply N4. destruct r; [discriminate|exact Hx].
Qed.

Lemma clean_text_words (text : str) :
  split_ws (Helpers.clean_text text) = split_ws text.
Proof.
  unfold Helpers.clean_text. rewrite split_ws_strip.
  transitivity (split_ws (replace_char Helpers.LF Helpers.SP
                            (replace_char Helpers.CR Helpers.SP text))).
  - unfold split_ws. by apply split_on_sub_runs.
  - by rewrite !split_ws_replace_char by reflexivity.
Qed.

Lemma clean_text_join (text : str) :
  Helpers.clean_text text
  = join [Helpers.SP] (split_ws (Helpers.clean_text text)).
Proof.
  unfold Helpers.clean_text at 1 2.
  set (t := Helpers.sub_runs isspace false _).
  destruct (strip_split t) as [pre [post [E _]]].
  apply (normal_is_join (strip t) []).
  - intros c Hc. apply (sub_runs_class isspace false
      (replace_char Helpers.LF Helpers.SP
         (replace_char Helpers.CR Helpers.SP text))).
    fold t. rewrite E. apply elem_of_app. right. apply elem_of_app. by left.
  - intros pre' c d post' E' [Hc Hd].
    apply (sub_runs_no_pair isspace false
             (replace_char Helpers.LF Helpers.SP
                (replace_char Helpers.CR Helpers.SP text))
             (pre ++ pre') (post' ++ post) c d); [|done..].
    fold t. rewrite E at 1. rewrite E'. by rewrite <- !app_assoc.
  - apply strip_last.
  - right. apply strip_head.
Qed.

End WordFacts.

(** C9: [clean_text(text)] is the words of the text, in order, joined by
    single spaces: every run of white space between two words has become
    one space, and the runs at the ends are gone.  Hence the output holds
    no carriage return and no line feed, its only white-space character
    is the space, no two white-space characters are in a row, and there
    is no white space at either end. *)
Theorem clean_text_normalised (text : str) :
  Helpers.clean_text text = join [Helpers.SP] (split_ws text)
  /\ Forall (fun c => c <> Helpers.CR /\ c <> Helpers.LF) (Helpers.clean_text text)
  /\ Forall (fun c => isspace c = true -> c = Helpers.SP)
            (Helpers.clean_text text)
  /\ (forall pre c d post,
        Helpers.clean_text text = pre ++ c :: d :: post ->
        ~ (isspace c = true /\ isspace d = true))
  /\ (forall c, head (Helpers.clean_text text) = Some c -> isspace c = false)
  /\ (forall c, last (Helpers.clean_text text) = Some c -> isspace c = false).
Proof.
  split.
  { rewrite clean_text_join. by rewrite clean_text_words. }
  unfold Helpers.clean_text.
  set (t := Helpers.sub_runs isspace false _).
  destruct (strip_split t) as [pre [post [E _]]].
  assert (Hin : forall c, c ∈ strip t -> c ∈ t).
  { intros c Hc. rewrite E. apply elem_of_app. right. apply elem_of_app.
    by left. }
  split; [|split; [|split; [|split]]].
  - apply Forall_forall. intros c Hc. apply Hin in Hc.
    split; intros ->; by pose proof (sub_runs_class isspace _ _ _ Hc eq_refl).
  - apply Forall_forall. intros c Hc Hs. apply Hin in Hc.
    exact (sub_runs_class isspace _ _ _ Hc Hs).
  - intros pre' c d post' E' [Hc Hd].
    apply (sub_runs_no_pair isspace false
             (Str.replace_char Helpers.LF Helpers.SP
                (Str.replace_char Helpers.CR Helpers.SP text))
             (pre ++ pre') (post' ++ post) c d); [|done..].
    fold t. rewrite E at 1. rewrite E'. by rewrite <- !app_assoc.
  - apply strip_head.
  - apply strip_last.
Qed.

(** ** The matcher is sound for the texts of a pattern *)

Section MatcherSound.

Import Re.

Lemma last_char_app (prev : option ascii) (m1 m2 : str) :
  last_char (last_char prev m1) m2 = last_char prev (m1 ++ m2).
Proof.
  unfold last_char. destruct m2 as [|c m2].
  - by rewrite app_nil_r.
  - rewrite last_app_cons.
    destruct (last_cons_is_some c m2) as [d ->]. reflexivity.
Qed.

Lemma rep_loop_sound body P lo hi k :
  sound_for body P ->
  forall fuel n prev s x,
    rep_loop body lo hi k fuel n prev s = Some x ->
    exists j m rest,
      s = m ++ rest /\ iterated P j prev m rest /\ lo <= n + j
      /\ (forall h, hi = Some h -> n <= h -> n + j <= h)
      /\ k (last_char prev m) rest = Some x.
Proof.
  intros Hbody.
  assert (Hstop : forall n prev s x,
    (if lo <=? n then k prev s else None) = Some x ->
    exists j m rest,
      s = m ++ rest /\ iterated P j prev m rest /\ lo <= n + j
      /\ (forall h, hi = Some h -> n <= h -> n + j <= h)
      /\ k (last_char prev m) rest = Some x).
  { intros n prev s x H. destruct (lo <=? n) eqn:E; [|discriminate].
    apply Nat.leb_le in E. exists 0, [], s. simpl.
    repeat split; [lia | intros; lia | exact H]. }
  induction fuel as [|fuel IH]; intros n prev s x; simpl.
  - apply Hstop.
  - destruct (below n hi) eqn:Hb; [|apply Hstop].
    destruct (body prev s _) as [y|] eqn:Eb; [|apply Hstop].
    intros [= ->].
    apply Hbody in Eb as (m1 & rest1 & -> & HP & Hk).
    destruct (length rest1 <? length (m1 ++ rest1)) eqn:Hlen; [|discriminate].
    apply IH in Hk as (j & m2 & rest & -> & Hit & Hlo & Hhi & Hk).
    exists (S j), (m1 ++ m2), rest. split; [by rewrite app_assoc|].
    split.
    { simpl. exists m1, m2. repeat split; try done.
      intros ->. apply Nat.ltb_lt in Hlen. simpl in Hlen. lia. }
    split; [lia|]. split.
    + intros h -> Hn. simpl in Hb. apply Nat.ltb_lt in Hb.
      specialize (Hhi h eq_refl). lia.
    + by rewrite <- last_char_app.
Qed.

Lemma run_sound (r : regex) : sound_for (run r) (matches r).
Proof.
  induction r as [|p|a IHa b IHb|a IHa b IHb|a IHa lo hi| |];
    intros prev s k x; simpl.
  - intros H. by exists [], s.
  - destruct s as [|c s']; [discriminate|].
    destruct (p c) eqn:Hp; [|discriminate].
    intros H. exists [c], s'. eauto.
  - intros H. apply IHa in H as (m1 & rest1 & -> & Ha & H).
    apply IHb in H as (m2 & rest & -> & Hb & H).
    exists (m1 ++ m2), rest. split; [by rewrite app_assoc|].
    split; [by exists m1, m2|]. by rewrite <- last_char_app.
  - destruct (run a prev s k) as [y|] eqn:Ea.
    + intros [= ->]. apply IHa in Ea as (m & rest & -> & Ha & H).
      exists m, rest. auto.
    + intros H. apply IHb in H as (m & rest & -> & Hb & H).
      exists m, rest. auto.
  - intros H.
    apply (rep_loop_sound _ _ _ _ _ IHa) in H
      as (j & m & rest & -> & Hit & Hlo & Hhi & H).
    exists m, rest. split; [done|]. split; [|done].
    exists j. split; [lia|]. split; [|done].
    intros h Hh. specialize (Hhi h Hh). lia.
  - destruct prev; [discriminate|]. intros H. by exists [], s.
  - destruct (xorb _ _) eqn:Hx; [|discriminate].
    intros H. by exists [], s.
Qed.

Lemma match_at_sound (r : regex) (pre : str) (prev : option ascii) (s : str)
    (mt : rmatch) :
  match_at r pre prev s = Some mt ->
  s = group0 mt ++ m_post mt /\ m_pre mt = rev pre
  /\ matches r prev (group0 mt) (m_post mt).
Proof.
  unfold match_at. destruct (run r prev s _) as [rest|] eqn:E; [|discriminate].
  intros [= <-]. simpl.
  apply run_sound in E as (m & rest' & -> & Hm & [= ->]).
  replace (length (m ++ rest) - length rest) with (length m)
    by (rewrite length_app; lia).
  by rewrite take_app_length.
Qed.

(** [re.search] returns a text of the pattern, at the leftmost position
    where the matcher succeeds. *)
Lemma search_from_sound (r : regex) (s pre : str) (mt : rmatch) :
  search_from r pre s = Some mt ->
  exists skipped,
    s = skipped ++ group0 mt ++ m_post mt
    /\ m_pre mt = rev pre ++ skipped
    /\ matches r (last_char (head pre) skipped) (group0 mt) (m_post mt)
    /\ (forall s1 c s2, skipped = s1 ++ c :: s2 ->
          match_at r (rev s1 ++ pre) (last_char (head pre) s1)
                   (c :: s2 ++ group0 mt ++ m_post mt) = None).
Proof.
  revert pre. induction s as [|c s IH]; intros pre; simpl.
  - destruct (match_at r pre (head pre) []) as [m|] eqn:E; [|discriminate].
    intros [= ->]. apply match_at_sound in E as (E & Hpre & Hm).
    exists []. simpl. rewrite app_nil_r. repeat split; try done.
    intros s1 c s2 Hs. by destruct s1.
  - destruct (match_at r pre (head pre) (c :: s)) as [m|] eqn:E.
    + intros [= ->]. apply match_at_sound in E as (E & Hpre & Hm).
      exists []. simpl. rewrite app_nil_r. repeat split; try done.
      intros s1 c' s2 Hs. by destruct s1.
    + intros H. apply IH in H as (skipped & -> & Hpre & Hm & Hleft).
      exists (c :: skipped). simpl in *.
      split; [done|]. split; [by rewrite Hpre, <- app_assoc|]. split.
      { destruct skipped as [|d sk]; [exact Hm|].
        unfold last_char in *.
        change (last (c :: d :: sk)) with (last (d :: sk)).
        destruct (last_cons_is_some d sk) as [y Hy]. rewrite Hy in *.
        exact Hm. }
      intros s1 c' s2 Hs. destruct s1 as [|d s1]; simpl in *.
      * injection Hs as <- <-. exact E.
      * injection Hs as <- ->.
        specialize (Hleft s1 c' s2 eq_refl).
        replace (last_char (head pre) (c :: s1)) with (last_char (Some c) s1).
        { rewrite <- app_assoc. exact Hleft. }
        unfold last_char. destruct s1 as [|e s1]; [reflexivity|].
        change (last (c :: e :: s1)) with (last (e :: s1)).
        by destruct (last_cons_is_some e s1) as [y ->].
Qed.

Lemma search_sound (r : regex) (s : str) (mt : rmatch) :
  search r s = Some mt ->
  s = m_pre mt ++ group0 mt ++ m_post mt
  /\ matches r (last (m_pre mt)) (group0 mt) (m_post mt).
Proof.
  intros H. apply search_from_sound in H as (sk & -> & Hpre & Hm & _).
  simpl in *. subst sk. split; [done|].
  unfold last_char in Hm. simpl in Hm. by destruct (last (m_pre mt)).
Qed.

(** The first element of [re.findall] is [group(0)] of [re.search]. *)
Lemma findall_first (r : regex) (s x : str) (l : list str) :
  findall r s = x :: l ->
  exists mt, search r s = Some mt /\ x = group0 mt.
Proof.
  unfold findall, search. simpl.
  destruct (search_from r [] s) as [mt|]; [|discriminate].
  intros H. exists mt. split; [done|].
  destruct (group0 mt) as [|c g]; [|by injection H].
  destruct (m_post mt); by injection H.
Qed.

End MatcherSound.

(** ** [validate_resume_data] *)

Section ValidatorFacts.

Import Re Validators.

Variable float_repr : pyfloat -> str.

Lemma foldl_insert_lookup {V : Type} (g : string -> V) (l : list string)
    (m0 : gmap string V) (k : string) :
  foldl (fun m k => <[k := g k]> m) m0 l !! k
  = if decide (k ∈ l) then Some (g k) else m0 !! k.
Proof.
  revert m0. induction l as [|a l IH]; intros m0; cbn [foldl].
  - destruct (decide (k ∈ [])) as [H|_]; [by apply elem_of_nil in H | done].
  - rewrite IH. destruct (decide (k ∈ l)) as [Hl|Hl].
    + destruct (decide (k ∈ a :: l)) as [_|Hn]; [done|].
      exfalso. apply Hn. by right.
    + destruct (decide (a = k)) as [->|Hne].
      * rewrite lookup_insert_eq.
        destruct (decide (k ∈ k :: l)) as [_|Hn]; [done|].
        exfalso. apply Hn. by left.
      * rewrite lookup_insert_ne by done.
        destruct (decide (k ∈ a :: l)) as [Hin|_]; [|done].
        apply elem_of_cons in Hin as [->|Hin]; done.
Qed.

(** Every canonical key is present in a validated record, with the
    coerced value of [data.get(k, 'Not Found')]; no other key is. *)
Lemma validate_lookup (data : gmap string value) (k : string) :
  validate_resume_data float_repr data !! k
  = if decide (k ∈ keys)
    then Some (validate_field float_repr k (default (VStr NOT_FOUND) (data !! k)))
    else None.
Proof.
  unfold validate_resume_data.
  rewrite (foldl_insert_lookup
             (fun k => validate_field float_repr k
                         (default (VStr NOT_FOUND) (data !! k)))).
  by case_decide.
Qed.

Lemma coerce_experience_is_float (v : value) :
  exists f, coerce_experience float_repr v = VFloat f.
Proof.
  unfold coerce_experience.
  destruct v as [|b|z|f|s|r]; simpl; eauto;
    try (destruct (float_of_int z); eauto);
    destruct (findall _ _) as [|num0 ?]; eauto;
    destruct (float_of_str num0); eauto.
Qed.

Lemma year_re_texts (prev : option ascii) (m rest : str) :
  matches year_re prev m rest -> year_text m.
Proof.
  intros (m1 & m2 & -> & Hc & (n & Hlo & Hhi & Hit)).
  assert (n = 2) as -> by (specialize (Hhi 2 eq_refl); lia).
  destruct Hit as (d1 & t1 & -> & _ & (c & -> & Hd1) & (d2 & t2 & -> & _ & (d & -> & Hd2) & ->)).
  destruct Hc as [Hc|Hc];
    destruct Hc as (x & y & -> & (a & -> & Ha) & (b & -> & Hb));
    apply Ascii.eqb_eq in Ha, Hb; exists a, b, c, d; subst a b;
    simpl; repeat split; auto.
Qed.

Lemma isdigit_not_space (c : ascii) : isdigit c = true -> isspace c = false.
Proof.
  unfold isdigit, isspace, in_range. generalize (code c). intros n H.
  apply andb_true_iff in H as [H1 H2].
  apply Nat.leb_le in H1, H2.
  repeat (apply orb_false_iff; split);
    try (apply andb_false_iff; (left; apply Nat.leb_gt; lia) || (right; apply Nat.leb_gt; lia));
    apply Nat.eqb_neq; lia.
Qed.

Lemma year_text_strip (m : str) : year_text m -> strip m = m.
Proof.
  intros (a & b & c & d & -> & Hab & Hc & Hd).
  apply strip_id; simpl.
  - intros ? [= <-]. destruct Hab as [[-> _]|[-> _]]; reflexivity.
  - intros ? [= <-]. by apply isdigit_not_space.
Qed.

Lemma year_text_search (m : str) :
  year_text m -> exists mt, search year_re m = Some mt /\ group0 mt = m.
Proof.
  intros (a & b & c & d & -> & Hab & Hc & Hd).
  destruct Hab as [[-> ->]|[-> ->]];
    unfold search, search_from, match_at, year_re; simpl;
    rewrite Hc; simpl; rewrite Hd; simpl; eexists; split; reflexivity.
Qed.

Lemma coerce_year_fixed (v : value) :
  let y := strip_value (coerce_year float_repr v) in
  strip_value (coerce_year float_repr y) = y.
Proof.
  unfold coerce_year.
  destruct (search year_re (py_str float_repr v)) as [mt|] eqn:E; simpl.
  - apply search_sound in E as [_ Hm]. apply year_re_texts in Hm.
    rewrite (year_text_strip _ Hm).
    destruct (year_text_search _ Hm) as (mt' & -> & ->).
    simpl. by rewrite (year_text_strip _ Hm).
  - reflexivity.
Qed.

Lemma strip_value_idempotent (v : value) :
  strip_value (strip_value v) = strip_value v.
Proof. destruct v; simpl; try reflexivity. by rewrite strip_idempotent. Qed.

Lemma validate_field_idempotent (k : string) (v : value) :
  validate_field float_repr k (validate_field float_repr k v)
  = validate_field float_repr k v.
Proof.
  unfold validate_field. repeat case_decide.
  - destruct (coerce_experience_is_float v) as [f ->]. reflexivity.
  - apply coerce_year_fixed.
  - apply strip_value_idempotent.
Qed.

End ValidatorFacts.

(** C4: validation is idempotent. *)
Theorem validate_idempotent (float_repr : pyfloat -> str)
    (x : gmap string value) :
  Validators.validate_resume_data float_repr
    (Validators.validate_resume_data float_repr x)
  = Validators.validate_resume_data float_repr x.
Proof.
  apply map_eq. intros k. rewrite !validate_lookup.
  case_decide; [|reflexivity].
  simpl. by rewrite validate_field_idempotent.
Qed.

(** ** The experience field *)

Section ExperienceFacts.

Import Re Validators.

Lemma iterated_chr (p : ascii -> bool) (n : nat) (prev : option ascii)
    (m rest : str) :
  iterated (matches (Chr p)) n prev m rest ->
  length m = n /\ Forall (fun c => p c = true) m.
Proof.
  revert prev m. induction n as [|n IH]; intros prev m; simpl.
  - intros ->. by split.
  - intros (m1 & m2 & -> & _ & (c & -> & Hc) & Hit).
    apply IH in Hit as [<- F]. split; [reflexivity|]. by constructor.
Qed.

Lemma split_on_plain (p : ascii -> bool) (s cur : str) :
  Forall (fun c => p c = false) s -> split_on p cur s = [rev cur ++ s].
Proof.
  revert cur. induction s as [|c s IH]; intros cur F; simpl.
  - by rewrite app_nil_r.
  - inversion F as [|? ? Hc F']; subst. rewrite Hc, IH by done.
    simpl. by rewrite <- app_assoc.
Qed.

Lemma split_on_first (p : ascii -> bool) (s cur : str) (c : ascii) (s' : str) :
  Forall (fun c => p c = false) s -> p c = true ->
  split_on p cur (s ++ c :: s') = (rev cur ++ s) :: split_on p [] s'.
Proof.
  revert cur. induction s as [|a s IH]; intros cur F Hc; simpl.
  - by rewrite Hc, app_nil_r.
  - inversion F as [|? ? Ha F']; subst. rewrite Ha, IH by done.
    simpl. by rewrite <- app_assoc.
Qed.

Lemma digit_not_dot (c : ascii) :
  isdigit c = true -> Ascii.eqb "." c = false.
Proof.
  intros H. apply Ascii.eqb_neq. intros <-. discriminate.
Qed.

Lemma digits_no_dot (ds : str) :
  Forall (fun c => isdigit c = true) ds ->
  Forall (fun c => Ascii.eqb "." c = false) ds.
Proof. intros F. eapply Forall_impl; [exact F|]. apply digit_not_dot. Qed.

Lemma int_of_digits_nonneg (ds : str) (acc : Z) :
  Forall (fun c => isdigit c = true) ds -> (0 <= acc)%Z ->
  exists z, int_of_digits acc ds = Some z /\ (0 <= z)%Z.
Proof.
  revert acc. induction ds as [|c ds IH]; intros acc F Hacc; simpl.
  - by exists acc.
  - inversion F as [|? ? Hc F']; subst. rewrite Hc.
    apply IH; [done|]. unfold digit_val. lia.
Qed.

Lemma float_bound_pos : (0 < float_bound)%Z.
Proof. apply Z.ltb_lt. vm_compute. reflexivity. Qed.

(** A number that is not negative reads as a float that is not negative,
    or overflows to the positive infinity. *)
Lemma float_of_Q_nonneg (z : Z) (d : positive) :
  (0 <= z)%Z ->
  float_of_Q (Qmake z d) = FInf false
  \/ (float_of_Q (Qmake z d) = FNum (Qmake z d)
      /\ finite_nonneg (FNum (Qmake z d)) = true).
Proof.
  intros Hz. unfold float_of_Q.
  destruct (Qle_bool (inject_Z float_bound) (Qmake z d)); [by left|].
  right. pose proof float_bound_pos as Hb.
  assert (Qle_bool (Qmake z d) (inject_Z (- float_bound)) = false) as ->.
  { unfold Qle_bool. simpl. apply Z.leb_gt. nia. }
  split; [reflexivity|].
  unfold finite_nonneg, Qle_bool. simpl. apply Z.leb_le. lia.
Qed.

Lemma plus_digit_texts (prev : option ascii) (m rest : str) :
  matches (plus digit) prev m rest ->
  m <> [] /\ Forall (fun c => isdigit c = true) m.
Proof.
  intros (n & Hlo & _ & Hit). apply iterated_chr in Hit as [Hlen F].
  split; [|done]. intros ->. simpl in Hlen. lia.
Qed.

Lemma number_re_texts (prev : option ascii) (m rest : str) :
  matches number_re prev m rest -> number_text m.
Proof.
  intros (ip & m2 & -> & Hip & (n & _ & Hhi & Hit)).
  apply plus_digit_texts in Hip as [Hne Fip].
  specialize (Hhi 1 eq_refl).
  destruct n as [|[|n]]; [| |lia].
  - simpl in Hit. subst m2. exists ip, []. rewrite app_nil_r. auto.
  - destruct Hit as (x & y & -> & _ & (d & fp & -> & (c & -> & Hc) & Hfp) & ->).
    apply Ascii.eqb_eq in Hc as <-.
    apply plus_digit_texts in Hfp as [Hfne Ffp].
    exists ip, fp. rewrite app_nil_r. repeat split; auto.
Qed.

(** On a text of the number pattern [float] does not raise, and gives a
    float that is not negative or the positive infinity. *)
Lemma float_of_number_text (m : str) :
  number_text m ->
  exists f, float_of_str m = Some f
            /\ (finite_nonneg f = true \/ f = FInf false).
Proof.
  intros (ip & fp & Hne & Fip & Ffp & [->|[Hfne ->]]); unfold float_of_str.
  - rewrite split_on_plain by (by apply digits_no_dot). simpl.
    destruct ip as [|c ip]; [done|].
    destruct (int_of_digits_nonneg (c :: ip) 0 Fip) as (z & -> & Hz); [lia|].
    simpl. change (inject_Z z) with (Qmake z 1).
    destruct (float_of_Q_nonneg z 1 Hz) as [E|[E F]]; rewrite E.
    + exists (FInf false). split; [reflexivity | by right].
    + eexists. split; [reflexivity | by left].
  - rewrite split_on_first; [|by apply digits_no_dot|reflexivity].
    rewrite split_on_plain by (by apply digits_no_dot).
    cbn [rev app].
    destruct (ip ++ fp) as [|c ds] eqn:Eds; [by destruct ip|].
    assert (Fds : Forall (fun c => isdigit c = true) (c :: ds)).
    { rewrite <- Eds. by apply Forall_app. }
    destruct (int_of_digits_nonneg (c :: ds) 0 Fds) as (z & -> & Hz); [lia|].
    simpl.
    destruct (float_of_Q_nonneg z (Z.to_pos (10 ^ Z.of_nat (length fp))) Hz)
      as [E|[E F]]; rewrite E.
    + exists (FInf false). split; [reflexivity | by right].
    + eexists. split; [reflexivity | by left].
Qed.

End ExperienceFacts.

(** C5, as the code has it: the experience field of a validated record is
    always a float.  A number is cast as it is (an [int] beyond the float
    range gives [0.0]), so a negative, infinite or NaN number stays so.
    Anything else is read through its first numeral: the field is [0.0]
    when there is none, and otherwise the numeral's value, never negative
    and never NaN, infinite only when the numeral exceeds the float
    range. *)
Theorem validate_experience_float (float_repr : pyfloat -> str)
    (data : gmap string value) :
  exists f,
    Validators.validate_resume_data float_repr data
      !! "total_experience_years"%string = Some (VFloat f)
    /\ match default (VStr NOT_FOUND) (data !! "total_experience_years"%string) with
       | VFloat g => f = g
       | VInt z => f = if (float_bound <=? Z.abs z)%Z
                       then FNum (inject_Z 0) else FNum (inject_Z z)
       | VBool b => f = FNum (inject_Z (if b then 1 else 0))
       | v =>
           match Re.findall Validators.number_re (py_str float_repr v) with
           | [] => f = FNum (inject_Z 0)
           | num0 :: _ =>
               float_of_str num0 = Some f
               /\ (finite_nonneg f = true \/ f = FInf false)
           end
       end.
Proof.
  rewrite validate_lookup. rewrite decide_True by (vm_compute; set_solver).
  set (v := default _ _).
  assert (Hstr : forall w,
    exists f,
      match Re.findall Validators.number_re (py_str float_repr w) with
      | [] => VFloat (FNum (inject_Z 0))
      | num0 :: _ =>
          match float_of_str num0 with
          | Some f => VFloat f
          | None => VFloat (FNum (inject_Z 0))
          end
      end = VFloat f
      /\ match Re.findall Validators.number_re (py_str float_repr w) with
         | [] => f = FNum (inject_Z 0)
         | num0 :: _ =>
             float_of_str num0 = Some f
             /\ (finite_nonneg f = true \/ f = FInf false)
         end).
  { intros w. destruct (Re.findall _ _) as [|num0 l] eqn:E; [by eexists|].
    apply findall_first in E as (mt & Hs & ->).
    apply search_sound in Hs as [_ Hm]. apply number_re_texts in Hm.
    destruct (float_of_number_text _ Hm) as (f & -> & Hf). by exists f. }
  unfold Validators.validate_field. simpl.
  destruct v as [|b|z|g|s|r]; simpl.
  - destruct (Hstr VNone) as (f & E & H). exists f. by rewrite <- E.
  - eexists. split; reflexivity.
  - unfold float_of_int. destruct (float_bound <=? Z.abs z)%Z;
      eexists; split; reflexivity.
  - eexists. split; reflexivity.
  - destruct (Hstr (VStr s)) as (f & E & H). exists f. by rewrite <- E.
  - destruct (Hstr (VOther r)) as (f & E & H). exists f. by rewrite <- E.
Qed.

(** C5 as stated fails: a negative number is cast to a negative float. *)
Lemma validate_experience_negative :
  ~ (forall (float_repr : pyfloat -> str) (data : gmap string value),
       exists f,
         Validators.validate_resume_data float_repr data
           !! "total_experience_years"%string = Some (VFloat f)
         /\ finite_nonneg f = true).
Proof.
  intros H.
  destruct (H (fun _ => [])
              {[ "total_experience_years"%string := VInt (-3) ]})
    as (f & E & F).
  vm_compute in E. injection E as <-. vm_compute in F. discriminate.
Qed.

(** ** [extract_with_rules] *)

Section RuleFacts.

Import Re LangchainExtractor.

Lemma rule_defaults_shaped : rule_shaped rule_defaults.
Proof.
  unfold rule_shaped, rule_defaults. rewrite dom_list_to_map_L.
  by rewrite <- list_fmap_compose.
Qed.

Lemma insert_rule_shaped (k : string) (v : value) (data : gmap string value) :
  k ∈ rule_keys -> rule_shaped data -> rule_shaped (<[k := v]> data).
Proof.
  unfold rule_shaped. intros Hk Hd. rewrite dom_insert_L, Hd.
  apply subseteq_union_1_L, singleton_subseteq_l.
  by apply elem_of_list_to_set.
Qed.

Lemma set_if_rule_shaped {A : Type} (k : string) (o : option A)
    (f : A -> value) (data : gmap string value) :
  k ∈ rule_keys -> rule_shaped data -> rule_shaped (set_if k o f data).
Proof.
  intros Hk Hd. destruct o; simpl; [by apply insert_rule_shaped | done].
Qed.

Lemma set_if_lookup_ne {A : Type} (k k' : string) (o : option A)
    (f : A -> value) (data : gmap string value) :
  k <> k' -> set_if k o f data !! k' = data !! k'.
Proof. intros Hne. destruct o; simpl; [by rewrite lookup_insert_ne | done]. Qed.

Lemma extract_with_rules_shaped (resume_text : option str) :
  rule_shaped (extract_with_rules resume_text).
Proof.
  assert (Hin : forall k, bool_decide (k ∈ rule_keys) = true -> k ∈ rule_keys)
    by (intros k; apply bool_decide_eq_true).
  unfold extract_with_rules. cbv zeta.
  repeat case_match;
    repeat first
      [ apply rule_defaults_shaped
      | apply insert_rule_shaped; [apply Hin; vm_compute; reflexivity|]
      | apply set_if_rule_shaped; [apply Hin; vm_compute; reflexivity|] ].
Qed.

End RuleFacts.

(** C6: on every input, [None] and the empty string included, the rule
    extractor returns a mapping that holds every key of the extraction
    schema (and no other key).  It is a function of the text alone: it
    calls no collaborator and has no failing step. *)
Theorem extract_with_rules_total (resume_text : option str) :
  Forall (fun k => is_Some (LangchainExtractor.extract_with_rules resume_text !! k))
         LangchainExtractor.rule_keys
  /\ dom (LangchainExtractor.extract_with_rules resume_text)
     = list_to_set LangchainExtractor.rule_keys.
Proof.
  pose proof (extract_with_rules_shaped resume_text) as H.
  split; [|exact H].
  apply Forall_forall. intros k Hk. apply elem_of_dom.
  unfold LangchainExtractor.rule_shaped in H. rewrite H.
  by apply elem_of_list_to_set.
Qed.

Example extract_with_rules_none :
  map (fun k => LangchainExtractor.extract_with_rules None !! k)
      LangchainExtractor.rule_keys
  = map (fun k => Some (LangchainExtractor.rule_default k))
        LangchainExtractor.rule_keys
  /\ map (fun k => LangchainExtractor.extract_with_rules (Some []) !! k)
         LangchainExtractor.rule_keys
     = map (fun k => Some (LangchainExtractor.rule_default k))
           LangchainExtractor.rule_keys.
Proof. split; vm_compute; reflexivity. Qed.

(** C7, as the code has it: only the first match of the phone pattern is
    looked at.  The field is that match, trimmed, when the trimmed match
    has at least 10 characters (digits, inner separators, plus sign and
    brackets together); otherwise, and when nothing matches, the field
    keeps the sentinel. *)
Theorem rules_phone_first_match (text : str) :
  LangchainExtractor.extract_with_rules (Some text) !! "phone"%string
  = match Re.search LangchainExtractor.phone_re text with
    | Some m =>
        if 10 <=? length (strip (Re.group0 m))
        then Some (VStr (strip (Re.group0 m)))
        else Some (VStr NOT_FOUND)
    | None => Some (VStr NOT_FOUND)
    end.
Proof.
  unfold LangchainExtractor.extract_with_rules. cbv zeta.
  set (d0 := LangchainExtractor.set_if "email" _ _ _).
  assert (H0 : d0 !! "phone"%string = Some (VStr NOT_FOUND)).
  { unfold d0. by rewrite set_if_lookup_ne. }
  set (d1 := match Re.search LangchainExtractor.phone_re _ with
             | Some _ => _ | None => _ end).
  assert (H1 : d1 !! "phone"%string
               = match Re.search LangchainExtractor.phone_re text with
                 | Some m =>
                     if 10 <=? length (strip (Re.group0 m))
                     then Some (VStr (strip (Re.group0 m)))
                     else Some (VStr NOT_FOUND)
                 | None => Some (VStr NOT_FOUND)
                 end).
  { unfold d1. change (default [] (Some text)) with text.
    destruct (Re.search _ text) as [m|]; [|done].
    destruct (10 <=? length (strip (Re.group0 m)));
      [apply lookup_insert_eq | done]. }
  rewrite <- H1. clearbody d1. clear.
  repeat case_match;
    rewrite ?lookup_insert_ne by done;
    by rewrite !set_if_lookup_ne by done.
Qed.

(** C7 as stated fails: a match with fewer than 10 digits sets the field
    when separators bring it to 10 characters. *)
Lemma rules_phone_eight_digits :
  ~ (forall (text : str) (m : Re.rmatch),
       Re.search LangchainExtractor.phone_re text = Some m ->
       length (List.filter isdigit (Re.group0 m)) < 10 ->
       LangchainExtractor.extract_with_rules (Some text) !! "phone"%string
       = Some (VStr NOT_FOUND)).
Proof.
  intros H.
  specialize (H (lit "123-456-78")
                (Re.MkMatch [] (lit "123-456-78") [])).
  assert (E : LangchainExtractor.extract_with_rules (Some (lit "123-456-78"))
              !! "phone"%string = Some (VStr (lit "123-456-78")))
    by (vm_compute; reflexivity).
  rewrite E in H.
  assert (F : Some (VStr (lit "123-456-78")) = Some (VStr NOT_FOUND)).
  { apply H; [vm_compute; reflexivity | vm_compute; lia]. }
  vm_compute in F. discriminate.
Qed.

(** A later match is not tried when the first one is too short. *)
Example rules_phone_only_first :
  LangchainExtractor.extract_with_rules
    (Some (lit "123456 call 9876543210")) !! "phone"%string
  = Some (VStr NOT_FOUND).
Proof. vm_compute. reflexivity. Qed.

(** ** [extract_with_langchain] *)

Section LangchainFacts.

Import LangchainExtractor.

(** C10: on an empty text, or one whose trimmed length is below 20, the
    text-model tier returns the empty mapping and calls neither the
    language model nor the rule extractor. *)
Theorem langchain_short_input (svc : model_service) (resume_text : str) :
  resume_text = [] \/ length (strip resume_text) < 20 ->
  extract_with_langchain svc resume_text = (∅, []).
Proof.
  intros H. unfold extract_with_langchain.
  destruct H as [->|H]; [reflexivity|].
  apply Nat.ltb_lt in H. rewrite H. by rewrite orb_true_r.
Qed.

Lemma langchain_short_input_witness :
  (lit "Jane Doe" = [] \/ length (strip (lit "Jane Doe")) < 20)
  /\ extract_with_langchain Samples.blank_model (lit "Jane Doe") = (∅, []).
Proof.
  assert (H : length (strip (lit "Jane Doe")) < 20) by (vm_compute; lia).
  split; [by right|].
  apply (langchain_short_input Samples.blank_model (lit "Jane Doe")).
  by right.
Defined.

Lemma bind_pair {A B : Type} (a : A) (t : list call) (f : A -> traced B) :
  Trace.bind (a, t) f = ((f a).1, t ++ (f a).2).
Proof. unfold Trace.bind. by destruct (f a). Qed.

Lemma call_model_eq (svc : model_service) (text : str) :
  call_model svc text = (chain_invoke svc text, [CallModel text]).
Proof. reflexivity. Qed.

Lemma call_rules_eq (text : str) :
  call_rules text = (extract_with_rules (Some text), [CallRules text]).
Proof. reflexivity. Qed.

Lemma backfill_step_lookup (data : gmap string value) (kv : string * value)
    (k : string) :
  backfill_step data kv !! k
  = if decide (k = kv.1)
    then match data !! k with
         | Some d => if is_default d || falsy d then Some kv.2 else Some d
         | None => None
         end
    else data !! k.
Proof.
  unfold backfill_step. destruct kv as [k' v']; simpl.
  destruct (decide (k = k')) as [->|Hne].
  - destruct (data !! k') as [d|] eqn:E; [|done].
    destruct (is_default d || falsy d); [by rewrite lookup_insert_eq | done].
  - destruct (data !! k') as [d|]; [|done].
    destruct (is_default d || falsy d); [by rewrite lookup_insert_ne | done].
Qed.

(** The loop over the items of the rule mapping: a key of [data] that
    holds a default takes the value the items give it, every other key
    keeps its own. *)
Lemma foldl_backfill_lookup (l : list (string * value)) :
  NoDup l.*1 ->
  forall (data : gmap string value) (k : string),
    foldl backfill_step data l !! k
    = match data !! k with
      | Some d =>
          if is_default d || falsy d
          then Some (default d ((list_to_map l : gmap string value) !! k))
          else Some d
      | None => None
      end.
Proof.
  induction l as [|[k' v'] l IH]; intros Hnd data k.
  - simpl. destruct (data !! k) as [d|]; [|done].
    by destruct (is_default d || falsy d).
  - simpl in Hnd. apply NoDup_cons in Hnd as [Hk' Hnd].
    cbn [foldl]. rewrite (IH Hnd). rewrite backfill_step_lookup. simpl.
    destruct (decide (k = k')) as [->|Hne].
    + rewrite lookup_insert_eq.
      rewrite (not_elem_of_list_to_map_1 l k' Hk').
      destruct (data !! k') as [d|]; [|done].
      destruct (is_default d || falsy d) eqn:Ed; simpl.
      * by destruct (is_default v' || falsy v').
      * by rewrite Ed.
    + by rewrite lookup_insert_ne.
Qed.

Lemma backfill_lookup (data rule_data : gmap string value) (k : string) :
  backfill data rule_data !! k
  = match data !! k with
    | Some d =>
        if is_default d || falsy d then Some (default d (rule_data !! k))
        else Some d
    | None => None
    end.
Proof.
  unfold backfill.
  rewrite foldl_backfill_lookup by apply NoDup_fst_map_to_list.
  by rewrite list_to_map_to_list.
Qed.

Lemma all_default_lookup (data : gmap string value) (k : string) (d : value) :
  all_default data = true -> data !! k = Some d -> is_default d = true.
Proof.
  unfold all_default. rewrite forallb_forall. intros H Hk.
  apply (H (k, d)). apply list_elem_of_In. by apply elem_of_map_to_list.
Qed.

(** When every value of [data] is a default and the keys agree, the
    backfill yields the rule mapping. *)
Lemma backfill_all_default (data rule_data : gmap string value) :
  all_default data = true -> dom data = dom rule_data ->
  backfill data rule_data = rule_data.
Proof.
  intros Hall Hdom. apply map_eq. intros k. rewrite backfill_lookup.
  destruct (data !! k) as [d|] eqn:E.
  - rewrite (all_default_lookup _ _ _ Hall E). simpl.
    assert (Hk : k ∈ dom rule_data).
    { rewrite <- Hdom. apply elem_of_dom. eauto. }
    apply elem_of_dom in Hk as [v ->]. reflexivity.
  - symmetry. apply not_elem_of_dom. rewrite <- Hdom.
    by apply not_elem_of_dom.
Qed.

Lemma model_dump_dom (fields : ResumeFields) :
  dom (model_dump fields) = list_to_set rule_keys.
Proof. unfold model_dump. rewrite dom_list_to_map_L. reflexivity. Qed.

Lemma model_dump_nonempty (fields : ResumeFields) : model_dump fields <> ∅.
Proof.
  intros H. pose proof (model_dump_dom fields) as D. rewrite H in D.
  rewrite dom_empty_L in D.
  assert (Hin : "name"%string ∈ (list_to_set rule_keys : gset string)).
  { apply elem_of_list_to_set. by left. }
  rewrite <- D in Hin. by apply not_elem_of_empty in Hin.
Qed.

(** C3, as the code has it: the parsed result of the text model is
    backfilled only when every one of its values is a default, and then
    every field takes what the rule extractor gives; a result with some
    value that is not a default is returned as it is. *)
Theorem langchain_backfill_all_or_nothing (svc : model_service)
    (resume_text : str) (fields : ResumeFields) :
  resume_text <> [] -> 20 <= length (strip resume_text) ->
  ChatOpenAI svc = true ->
  chain_invoke svc (take TEXT_BUDGET resume_text) = Returned fields ->
  result (extract_with_langchain svc resume_text)
  = if all_default (model_dump fields)
    then extract_with_rules (Some resume_text)
    else model_dump fields.
Proof.
  intros Hne Hlen Hsvc Hinv. unfold extract_with_langchain.
  rewrite (bool_decide_eq_false_2 _ Hne).
  assert ((length (strip resume_text) <? 20) = false) as ->
    by (apply Nat.ltb_ge; lia).
  rewrite Hsvc. cbn [orb negb]. rewrite call_model_eq, bind_pair, Hinv.
  rewrite (bool_decide_eq_false_2 _ (model_dump_nonempty fields)).
  cbn [orb]. destruct (all_default (model_dump fields)) eqn:Hall.
  - rewrite call_rules_eq, bind_pair. cbn [Trace.ret Trace.result fst].
    apply backfill_all_default; [done|].
    rewrite model_dump_dom. symmetry. apply extract_with_rules_shaped.
  - reflexivity.
Qed.

Lemma langchain_backfill_all_or_nothing_witness :
  Samples.resume_text <> [] /\ 20 <= length (strip Samples.resume_text)
  /\ ChatOpenAI Samples.blank_model = true
  /\ chain_invoke Samples.blank_model (take TEXT_BUDGET Samples.resume_text)
     = Returned Samples.blank_fields
  /\ result (extract_with_langchain Samples.blank_model Samples.resume_text)
     = if all_default (model_dump Samples.blank_fields)
       then extract_with_rules (Some Samples.resume_text)
       else model_dump Samples.blank_fields.
Proof.
  assert (H1 : Samples.resume_text <> []) by discriminate.
  assert (H2 : 20 <= length (strip Samples.resume_text)) by (vm_compute; lia).
  split; [exact H1|]. split; [exact H2|].
  split; [reflexivity|]. split; [reflexivity|].
  apply (langchain_backfill_all_or_nothing Samples.blank_model
           Samples.resume_text Samples.blank_fields H1 H2);
    reflexivity.
Defined.

(** C3 as stated fails: the model filled every field but the email, so
    the default it left for the email is not replaced by the address the
    rule extractor finds. *)
Lemma langchain_partial_not_backfilled :
  ~ (forall (svc : model_service) (resume_text : str) (fields : ResumeFields)
            (k : string) (d rv : value),
       resume_text <> [] -> 20 <= length (strip resume_text) ->
       ChatOpenAI svc = true ->
       chain_invoke svc (take TEXT_BUDGET resume_text) = Returned fields ->
       model_dump fields !! k = Some d -> is_default d = true ->
       extract_with_rules (Some resume_text) !! k = Some rv ->
       is_default rv = false ->
       result (extract_with_langchain svc resume_text) !! k = Some rv).
Proof.
  intros H.
  specialize (H Samples.no_email_model Samples.resume_text
                Samples.no_email_fields "email"%string
                (VStr NOT_FOUND) (VStr (lit "jane.doe@example.com"))).
  assert (E : result (extract_with_langchain Samples.no_email_model
                        Samples.resume_text) !! "email"%string
              = Some (VStr NOT_FOUND)) by (vm_compute; reflexivity).
  rewrite E in H.
  assert (F : Some (VStr NOT_FOUND) = Some (VStr (lit "jane.doe@example.com"))).
  { apply H.
    - discriminate.
    - assert (L : length (strip Samples.resume_text) = 29)
        by (vm_compute; reflexivity).
      rewrite L. lia.
    - reflexivity.
    - reflexivity.
    - vm_compute. reflexivity.
    - reflexivity.
    - vm_compute. reflexivity.
    - reflexivity. }
  discriminate F.
Qed.

End LangchainFacts.

(** ** [process_single_resume] *)

Section PipelineFacts.

Import LangchainExtractor VisionExtractor App.

Ltac trace_step :=
  cbn [Trace.bind Trace.emit Trace.ret Trace.result Trace.calls fst snd app].

Lemma short_text_test (text : str) :
  length (strip text) < 50 ->
  bool_decide (text = []) || (length (strip text) <? 50) = true.
Proof. intros H. apply Nat.ltb_lt in H. rewrite H. apply orb_true_r. Qed.

(** C2: for a [.pdf], [.docx] or [.doc] file, when the vision tier yields
    the empty mapping for the file type of the branch and the text that
    the extractor of the branch returns has a trimmed length below 50 (or
    the extractor raises), no record is produced, and neither the
    language model nor the rule extractor is called.  Only the vision
    call and the text extractor of the branch are constrained. *)
Theorem insufficient_text_rejected (svc : services) (file_name : str)
    (file_content : bytes) (file_type : str) (text : outcome str) :
  Records.branch svc file_name file_content file_type text ->
  extract_with_openai_vision svc file_content file_type = Returned ∅ ->
  (forall t, text = Returned t -> length (strip t) < 50) ->
  result (process_single_resume svc file_name file_content) = None
  /\ Forall (fun c => is_extraction_call c = false)
            (calls (process_single_resume svc file_name file_content)).
Proof.
  intros Hb Hv Ht.
  unfold process_single_resume, process_body.
  unfold call_vision, call_text_pdf, call_text_docx, report_none.
  destruct Hb as [(Hext & -> & ->)|(Hnp & Hext & -> & ->)].
  - rewrite (bool_decide_eq_true_2 _ Hext).
    trace_step. rewrite Hv. rewrite bool_decide_eq_true_2 by reflexivity.
    trace_step.
    destruct (extract_text_from_pdf svc file_content) as [t|] eqn:Et.
    + rewrite (short_text_test t (Ht t eq_refl)). trace_step.
      split; [reflexivity | repeat constructor].
    + trace_step. split; [reflexivity | repeat constructor].
  - rewrite (bool_decide_eq_false_2 _ Hnp), (bool_decide_eq_true_2 _ Hext).
    trace_step. rewrite Hv. rewrite bool_decide_eq_true_2 by reflexivity.
    trace_step.
    destruct (extract_text_from_docx svc file_content) as [t|] eqn:Et.
    + destruct (bool_decide (t = [])).
      { trace_step. split; [reflexivity | repeat constructor]. }
      pose proof (Ht t eq_refl) as Hlen. apply Nat.ltb_lt in Hlen.
      rewrite Hlen. trace_step.
      split; [reflexivity | repeat constructor].
    + trace_step. split; [reflexivity | repeat constructor].
Qed.

Lemma insufficient_text_rejected_witness :
  let svc := Samples.renamed_services in
  Records.branch svc (lit "cv.pdf") [] (lit "pdf")
    (Returned (lit "  page 1 of 1  "))
  /\ extract_with_openai_vision svc [] (lit "pdf") = Returned ∅
  /\ (forall t, Returned (lit "  page 1 of 1  ") = Returned t ->
                length (strip t) < 50)
  /\ result (process_single_resume svc (lit "cv.pdf") []) = None
  /\ Forall (fun c => is_extraction_call c = false)
            (calls (process_single_resume svc (lit "cv.pdf") [])).
Proof.
  intros svc.
  assert (L : length (strip (lit "  page 1 of 1  ")) = 11)
    by (vm_compute; reflexivity).
  assert (Hb : Records.branch svc (lit "cv.pdf") [] (lit "pdf")
                 (Returned (lit "  page 1 of 1  "))).
  { left. repeat split; reflexivity. }
  assert (Hv : extract_with_openai_vision svc [] (lit "pdf") = Returned ∅)
    by reflexivity.
  assert (Ht : forall t, Returned (lit "  page 1 of 1  ") = Returned t ->
                         length (strip t) < 50).
  { intros t E.
    assert (t = lit "  page 1 of 1  ") as -> by (symmetry; by injection E).
    rewrite L. lia. }
  split; [exact Hb|]. split; [exact Hv|]. split; [exact Ht|].
  exact (insufficient_text_rejected svc (lit "cv.pdf") [] (lit "pdf")
           (Returned (lit "  page 1 of 1  ")) Hb Hv Ht).
Defined.

(** With the same collaborators and a text of sufficient length the second
    tier is reached. *)
Example sufficient_text_reaches_model :
  let svc :=
    {| extract_with_openai_vision := fun _ _ => Returned ∅;
       extract_text_from_pdf := fun _ =>
         Returned (lit "Jane Doe, jane.doe@example.com, B.Tech 2019, 5 years of Rocq");
       extract_text_from_docx := fun _ => Returned [];
       model := Samples.blank_model;
       generate_resume_id := lit "0b0e3c1a";
       now := lit "2024-01-01 00:00:00";
       float_repr := fun _ => [] |} in
  existsb is_extraction_call
    (calls (process_single_resume svc (lit "cv.pdf") [])) = true
  /\ match result (process_single_resume svc (lit "cv.pdf") []) with
     | Some _ => true
     | None => false
     end = true.
Proof. split; vm_compute; reflexivity. Qed.

End PipelineFacts.

(** ** [_pdf_to_images] *)

Section RenderFacts.

Import VisionExtractor.

Context {document image : Type}.

Variable lib : pdfium_lib document image.
Variable pdf : document.
Variable scale : Q.

(** The loop appends the images of the pages from [i] on, in order, and
    stops before the first page that fails or after [n] pages. *)
Lemma render_loop_pages (n i : nat) (images : list image) :
  exists rendered,
    render_loop lib pdf scale i n images = images ++ rendered
    /\ length rendered <= n
    /\ (forall j img, rendered !! j = Some img ->
          render lib pdf (i + j) scale = Returned img)
    /\ (length rendered < n ->
          render lib pdf (i + length rendered) scale = Raised).
Proof.
  revert i images. induction n as [|n IH]; intros i images; simpl.
  - exists []. rewrite app_nil_r. repeat split; simpl; try lia.
    intros j img Hj. by rewrite lookup_nil in Hj.
  - destruct (render lib pdf i scale) as [img0|] eqn:E.
    + destruct (IH (S i) (images ++ [img0])) as (rest & -> & Hlen & Hok & Hstop).
      exists (img0 :: rest). rewrite <- app_assoc. simpl.
      split; [reflexivity|]. split; [lia|]. split.
      * intros [|j] img Hj; simpl in Hj.
        -- injection Hj as <-. by rewrite Nat.add_0_r.
        -- rewrite <- Nat.add_succ_comm. by apply Hok.
      * intros Hlt. rewrite <- Nat.add_succ_comm. apply Hstop. lia.
    + exists []. rewrite app_nil_r. simpl.
      split; [reflexivity|]. split; [lia|]. split.
      * intros j img Hj. by rewrite lookup_nil in Hj.
      * intros _. by rewrite Nat.add_0_r.
Qed.

End RenderFacts.

(** C8, as the code has it: without the rasteriser, or when the byte
    stream does not open, the result is empty.  Otherwise the result
    holds, in document order, the image of page [i] at the given scale at
    index [i], for at most [min(page_count, max_pages)] pages; it is
    shorter only when a page fails to render, and then it holds the images
    of the pages before that one.  Nothing is raised to the caller. *)
Theorem pdf_to_images_pages {document image : Type}
    (lib : option (VisionExtractor.pdfium_lib document image))
    (pdf_bytes : VisionExtractor.bytes) (max_pages : Z) (scale : Q) :
  let images := VisionExtractor._pdf_to_images lib pdf_bytes max_pages scale in
  match lib with
  | None => images = []
  | Some l =>
      match VisionExtractor.PdfDocument l pdf_bytes with
      | Raised => images = []
      | Returned pdf =>
          let n := Z.to_nat (Z.min (Z.of_nat (VisionExtractor.page_count l pdf))
                                   max_pages) in
          length images <= n
          /\ (forall i img, images !! i = Some img ->
                VisionExtractor.render l pdf i scale = Returned img)
          /\ (length images < n ->
                VisionExtractor.render l pdf (length images) scale = Raised)
      end
  end.
Proof.
  unfold VisionExtractor._pdf_to_images. destruct lib as [l|]; [|reflexivity].
  destruct (VisionExtractor.PdfDocument l pdf_bytes) as [pdf|]; [|reflexivity].
  simpl.
  destruct (render_loop_pages l pdf scale
              (Z.to_nat (Z.min (Z.of_nat (VisionExtractor.page_count l pdf))
                               max_pages)) 0 [])
    as (rendered & -> & Hlen & Hok & Hstop).
  simpl. auto.
Qed.

(** With the default arguments a document of five pages that all render
    gives the first three pages. *)
Example pdf_to_images_default :
  VisionExtractor._pdf_to_images
    (Some {| VisionExtractor.PdfDocument := fun _ => Returned 5;
             VisionExtractor.page_count := fun pdf => pdf;
             VisionExtractor.render := fun _ i _ => Returned i |})
    [] VisionExtractor.default_max_pages VisionExtractor.default_scale
  = [0; 1; 2].
Proof. reflexivity. Qed.

(** C8 as stated fails: when the second page fails to render, the image
    of the first page is returned, not the empty sequence. *)
Lemma pdf_to_images_partial :
  ~ (forall (lib : VisionExtractor.pdfium_lib nat nat)
            (pdf_bytes : VisionExtractor.bytes) (max_pages : Z) (scale : Q)
            (pdf i : nat),
       VisionExtractor.PdfDocument lib pdf_bytes = Returned pdf ->
       (Z.of_nat i < Z.min (Z.of_nat (VisionExtractor.page_count lib pdf))
                           max_pages)%Z ->
       VisionExtractor.render lib pdf i scale = Raised ->
       VisionExtractor._pdf_to_images (Some lib) pdf_bytes max_pages scale = []).
Proof.
  intros H.
  specialize (H Samples.torn_pdfium [] VisionExtractor.default_max_pages
                VisionExtractor.default_scale 2 1 eq_refl).
  assert (E : VisionExtractor._pdf_to_images (Some Samples.torn_pdfium) []
                VisionExtractor.default_max_pages VisionExtractor.default_scale
              = [0]) by reflexivity.
  rewrite E in H.
  assert (F : [0] = @nil nat) by (apply H; reflexivity).
  discriminate F.
Qed.

(** ** [save_to_excel] in merge mode *)

Section StoreFacts.

Import ExcelHandler.

Lemma fromkeys_elem (l seen : list string) (c : string) :
  c ∈ fromkeys seen l <-> c ∈ l /\ c ∉ seen.
Proof.
  revert seen. induction l as [|a l IH]; intros seen; simpl.
  - split; [by intros ?%elem_of_nil | by intros [?%elem_of_nil _]].
  - case_bool_decide as Ha.
    + rewrite IH. split.
      * intros [H1 H2]. split; [by right | done].
      * intros [[->|H1]%elem_of_cons H2]; [done | by split].
    + rewrite elem_of_cons, IH. split.
      * intros [->|[H1 H2]]; [split; [by left | done]|].
        split; [by right|]. intros H. apply H2. by right.
      * intros [[->|H1]%elem_of_cons H2]; [by left|].
        destruct (decide (c = a)) as [->|Hne]; [by left|].
        right. split; [done|]. by intros [?|?]%elem_of_cons.
Qed.

Lemma fromkeys_NoDup (l seen : list string) : NoDup (fromkeys seen l).
Proof.
  revert seen. induction l as [|a l IH]; intros seen; simpl.
  - constructor.
  - case_bool_decide as Ha; [apply IH|].
    constructor; [|apply IH].
    rewrite fromkeys_elem. intros [_ Hn]. apply Hn. by left.
Qed.

Lemma fromkeys_seen (l seen : list string) :
  (forall c, c ∈ l -> c ∈ seen) -> fromkeys seen l = [].
Proof.
  revert seen. induction l as [|a l IH]; intros seen H; simpl; [done|].
  rewrite bool_decide_eq_true_2 by (apply H; by left).
  apply IH. intros c Hc. apply H. by right.
Qed.

Lemma fromkeys_fresh (l seen : list string) :
  NoDup l -> (forall c, c ∈ l -> c ∉ seen) -> fromkeys seen l = l.
Proof.
  revert seen. induction l as [|a l IH]; intros seen Hnd H; simpl; [done|].
  apply NoDup_cons in Hnd as [Ha Hnd].
  rewrite bool_decide_eq_false_2 by (apply H; by left).
  f_equal. apply IH; [done|]. intros c Hc [->|Hs]%elem_of_cons; [done|].
  by apply (H c); [right|].
Qed.

Lemma fromkeys_app (l1 l2 seen : list string) :
  exists seen',
    fromkeys seen (l1 ++ l2) = fromkeys seen l1 ++ fromkeys seen' l2
    /\ (forall c, c ∈ seen' <-> c ∈ seen \/ c ∈ l1).
Proof.
  revert seen. induction l1 as [|a l1 IH]; intros seen; simpl.
  - exists seen. split; [done|]. intros c. split; [by left|].
    by intros [?|?%elem_of_nil].
  - case_bool_decide as Ha.
    + destruct (IH seen) as (seen' & -> & Hs). exists seen'.
      split; [done|]. intros c. rewrite Hs, elem_of_cons. split.
      * intros [?|?]; auto.
      * intros [?|[->|?]]; auto.
    + destruct (IH (a :: seen)) as (seen' & -> & Hs). exists seen'.
      split; [done|]. intros c. rewrite Hs, !elem_of_cons. tauto.
Qed.

(** The columns of the two reindexed frames, put together, are the union
    again. *)
Lemma fromkeys_twice (l : list string) : NoDup l -> fromkeys [] (l ++ l) = l.
Proof.
  intros Hnd. destruct (fromkeys_app l l []) as (seen' & -> & Hs).
  rewrite fromkeys_fresh; [|done|by intros c _ ?%elem_of_nil].
  rewrite fromkeys_seen; [by rewrite app_nil_r|].
  intros c Hc. apply Hs. by right.
Qed.

Section Dedup.

Variable subset : list string.

Lemma drop_duplicates_last_sublist (rs : list (gmap string value)) :
  sublist (drop_duplicates_last subset rs) rs.
Proof.
  induction rs as [|r rest IH]; simpl; [constructor|].
  case_bool_decide; [by apply sublist_cons | by apply sublist_skip].
Qed.

Lemma drop_duplicates_last_elem (rs : list (gmap string value))
    (r : gmap string value) :
  r ∈ drop_duplicates_last subset rs -> r ∈ rs.
Proof.
  intros H. eapply elem_of_sublist; [exact H|].
  apply drop_duplicates_last_sublist.
Qed.


(** No identity is kept twice. *)
Lemma drop_duplicates_last_NoDup (rs : list (gmap string value)) :
  NoDup (identity subset <$> drop_duplicates_last subset rs).
Proof.
  induction rs as [|r0 rest IH]; simpl; [constructor|].
  case_bool_decide as Hex; [exact IH|].
  rewrite fmap_cons. constructor; [|exact IH].
  intros (r' & E & Hr')%list_elem_of_fmap. apply Hex.
  apply Exists_exists. exists r'. split; [|done].
  by apply drop_duplicates_last_elem.
Qed.


End Dedup.

Lemma fill_row_lookup (cols : list string) (r : gmap string value) (c : string) :
  c ∈ cols -> fill_row cols r !! c = Some (fill_cell (cell r c)).
Proof.
  unfold fill_row. induction cols as [|a cols IH]; simpl.
  - by intros ?%elem_of_nil.
  - intros Hc. destruct (decide (a = c)) as [->|Hne].
    + by rewrite lookup_insert_eq.
    + rewrite lookup_insert_ne by done. apply IH.
      by apply elem_of_cons in Hc as [->|Hc].
Qed.

Lemma fill_cell_not_na (v : value) : isna (fill_cell v) = false.
Proof. unfold fill_cell. by destruct (isna v) eqn:E. Qed.

Lemma merge_frames_eq (existing df_to_save : DataFrame) :
  let cols := fromkeys [] (columns existing ++ columns df_to_save) in
  merge_frames existing df_to_save
  = {| columns := cols;
       rows := fill_row cols <$>
                 kept_rows (dedup_subset cols)
                   (rows (reindex cols existing)
                    ++ rows (reindex cols df_to_save)) |}.
Proof.
  intros cols. unfold merge_frames. fold cols.
  assert (Hc : columns (concat (reindex cols existing) (reindex cols df_to_save))
               = cols).
  { simpl. apply fromkeys_twice, fromkeys_NoDup. }
  rewrite Hc. unfold fillna. simpl in Hc.
  destruct (dedup_subset cols) as [subset|]; simpl; by rewrite Hc.
Qed.

End StoreFacts.



(* ===================================================================== *)
(** * Part III.  Further properties of the code                           *)
(* ===================================================================== *)

(** ** [validate_resume_data]: the shape of a validated record *)

Lemma validate_dom (float_repr : pyfloat -> str) (data : gmap string value) :
  dom (Validators.validate_resume_data float_repr data)
  = list_to_set Validators.keys.
Proof.
  apply set_eq. intros k.
  rewrite elem_of_dom, validate_lookup, elem_of_list_to_set.
  destruct (decide (k ∈ Validators.keys)) as [Hk|Hk].
  - split; [done | eauto].
  - split; [by intros [? ?] | done].
Qed.

(** X1: whatever mapping it is given, the validator returns a record with
    exactly the canonical keys: missing keys are added, unknown keys are
    dropped. *)
Theorem validate_keys (float_repr : pyfloat -> str) (data : gmap string value) :
  dom (Validators.validate_resume_data float_repr data)
  = list_to_set Validators.keys
  /\ (forall k, k ∉ Validators.keys ->
        Validators.validate_resume_data float_repr data !! k = None)
  /\ (forall k, k ∈ Validators.keys ->
        is_Some (Validators.validate_resume_data float_repr data !! k)).
Proof.
  split; [apply validate_dom|]. split; intros k Hk; rewrite validate_lookup.
  - by rewrite decide_False.
  - rewrite decide_True by done. eauto.
Qed.

(** X2: the graduation year of a validated record is a string: four
    characters, [19] or [20] followed by two digits, taken from the text
    of the raw value, or the empty string. *)
Theorem validate_year_shape (float_repr : pyfloat -> str)
    (data : gmap string value) :
  exists y,
    Validators.validate_resume_data float_repr data !! "graduation_year"%string
    = Some (VStr y)
    /\ (y = []
        \/ (Validators.year_text y
            /\ exists pre post,
                 py_str float_repr
                   (default (VStr NOT_FOUND) (data !! "graduation_year"%string))
                 = pre ++ y ++ post)).
Proof.
  rewrite validate_lookup.
  rewrite decide_True by (apply (bool_decide_eq_true_1 _); vm_compute; reflexivity).
  unfold Validators.validate_field. simpl. unfold Validators.coerce_year.
  destruct (Re.search _ _) as [mt|] eqn:E; simpl.
  - apply search_sound in E as [Hs Hm].
    pose proof (year_re_texts _ _ _ Hm) as Hy.
    exists (Re.group0 mt). rewrite (year_text_strip _ Hy).
    split; [reflexivity|]. right. split; [exact Hy|]. eauto.
  - exists []. split; [reflexivity | by left].
Qed.

(** X3: in a validated record every string is trimmed; a value that is
    not a string is the raw value itself, except under the experience
    key. *)
Theorem validate_strings_trimmed (float_repr : pyfloat -> str)
    (data : gmap string value) (k : string) :
  match Validators.validate_resume_data float_repr data !! k with
  | Some (VStr s) => strip s = s
  | Some v => k = "total_experience_years"%string \/ data !! k = Some v
  | None => k ∉ Validators.keys
  end.
Proof.
  rewrite validate_lookup. destruct (decide (k ∈ Validators.keys)); [|done].
  unfold Validators.validate_field.
  destruct (decide (k = "total_experience_years"%string)) as [->|Hne].
  - destruct (coerce_experience_is_float float_repr
                (default (VStr NOT_FOUND)
                   (data !! "total_experience_years"%string))) as [f ->].
    by left.
  - destruct (decide (k = "graduation_year"%string)) as [->|Hne'].
    + unfold Validators.coerce_year.
      destruct (Re.search _ _); simpl; apply strip_idempotent.
    + destruct (data !! k) as [v|] eqn:E; simpl.
      * destruct v; simpl; auto. apply strip_idempotent.
      * apply strip_idempotent.
Qed.

(** ** [is_valid_email] and [clean_phone_number] *)

Section ContactFacts.

Import Re Contact.

Lemma plus_chr_texts (p : ascii -> bool) (prev : option ascii) (m rest : str) :
  matches (plus (Chr p)) prev m rest ->
  m <> [] /\ Forall (fun c => p c = true) m.
Proof.
  intros (n & Hlo & _ & Hit). apply iterated_chr in Hit as [Hlen F].
  split; [|done]. intros ->. simpl in Hlen. lia.
Qed.

End ContactFacts.

(** X4: an address that [is_valid_email] accepts is a non-empty local
    part, one [@], a non-empty domain label, a dot and a non-empty tail,
    each over its own class of characters, possibly followed by one line
    feed (the [$] of the pattern lets it through). *)
Theorem valid_email_shape (email : str) :
  Contact.is_valid_email email = true ->
  exists loc dom tl nl,
    email = loc ++ "@"%char :: dom ++ "."%char :: tl ++ nl
    /\ loc <> [] /\ Forall (fun c => Contact.local_char c = true) loc
    /\ dom <> [] /\ Forall (fun c => Contact.domain_char c = true) dom
    /\ tl <> [] /\ Forall (fun c => Contact.tail_char c = true) tl
    /\ (nl = [] \/ nl = [Helpers.LF]).
Proof.
  unfold Contact.is_valid_email. intros H.
  apply bool_decide_eq_true in H as [x H].
  apply run_sound in H as (m & rest & -> & Hm & Hk).
  destruct Hm as (m0 & m1 & -> & [-> _] & (loc & m2 & -> & Hloc
                    & (a & m3 & -> & (c1 & -> & Hc1)
                    & (dom & m4 & -> & Hdom
                    & (d & tl & -> & (c2 & -> & Hc2) & Htl))))).
  apply Ascii.eqb_eq in Hc1 as <-, Hc2 as <-.
  apply plus_chr_texts in Hloc as [? ?], Hdom as [? ?], Htl as [? ?].
  exists loc, dom, tl, rest. simpl. rewrite <- !app_assoc. simpl.
  rewrite <- !app_assoc. simpl.
  repeat split; try done.
  destruct rest as [|c [|? ?]]; simpl in Hk; try discriminate; [by left|].
  destruct (Str.code c =? 10) eqn:Ec; [|discriminate].
  right. f_equal. apply Nat.eqb_eq in Ec.
  unfold Str.code in Ec. rewrite <- (ascii_nat_embedding c), Ec. reflexivity.
Qed.

Lemma valid_email_shape_witness :
  Contact.is_valid_email (lit "jane.doe@example.com") = true
  /\ exists loc dom tl nl,
       lit "jane.doe@example.com" = loc ++ "@"%char :: dom ++ "."%char :: tl ++ nl
       /\ loc <> [] /\ Forall (fun c => Contact.local_char c = true) loc
       /\ dom <> [] /\ Forall (fun c => Contact.domain_char c = true) dom
       /\ tl <> [] /\ Forall (fun c => Contact.tail_char c = true) tl
       /\ (nl = [] \/ nl = [Helpers.LF]).
Proof.
  assert (H : Contact.is_valid_email (lit "jane.doe@example.com") = true)
    by (vm_compute; reflexivity).
  split; [exact H|].
  exact (valid_email_shape (lit "jane.doe@example.com") H).
Defined.

(** The line feed that [$] lets through, and an address without a dot. *)
Example valid_email_samples :
  Contact.is_valid_email (lit "a@b.c" ++ [Helpers.LF]) = true
  /\ Contact.is_valid_email (lit "jane@localhost") = false
  /\ Contact.is_valid_email (lit "a@b@c.d") = false.
Proof. repeat split; vm_compute; reflexivity. Qed.

(** X5: [clean_phone_number] leaves only plus signs and digits, keeps
    every digit of its input in order, and changes nothing when applied
    again. *)
Theorem clean_phone_number_digits (phone : str) :
  Forall (fun c => c = "+"%char \/ isdigit c = true)
         (Contact.clean_phone_number phone)
  /\ List.filter isdigit (Contact.clean_phone_number phone)
     = List.filter isdigit phone
  /\ Contact.clean_phone_number (Contact.clean_phone_number phone)
     = Contact.clean_phone_number phone.
Proof.
  unfold Contact.clean_phone_number. split; [|split].
  - apply Forall_forall. intros c Hc. apply list_elem_of_In in Hc.
    apply filter_In in Hc as [_ Hc]. unfold Contact.phone_char in Hc.
    apply orb_true_iff in Hc as [Hc|Hc]; [left | by right].
    by apply Ascii.eqb_eq in Hc.
  - induction phone as [|c r IH]; simpl; [done|].
    unfold Contact.phone_char at 1.
    destruct (isdigit c) eqn:Hd.
    + rewrite orb_true_r. simpl. rewrite Hd. by f_equal.
    + rewrite orb_false_r. destruct (Ascii.eqb c "+"); simpl; [|exact IH].
      by rewrite Hd.
  - induction phone as [|c r IH]; simpl; [done|].
    destruct (Contact.phone_char c) eqn:Hc; simpl; [|exact IH].
    rewrite Hc. by f_equal.
Qed.

(** X6: [clean_text(text)] is [" ".join(text.split())]: the words of the
    text, in order, with one space between them; hence it keeps the words
    and changes nothing when applied again. *)
Theorem clean_text_is_join_split (text : str) :
  Helpers.clean_text text = join [Helpers.SP] (split_ws text)
  /\ split_ws (Helpers.clean_text text) = split_ws text
  /\ Helpers.clean_text (Helpers.clean_text text) = Helpers.clean_text text.
Proof.
  assert (H : forall t, Helpers.clean_text t = join [Helpers.SP] (split_ws t)).
  { intros t. rewrite clean_text_join. by rewrite clean_text_words. }
  split; [apply H|]. split; [apply clean_text_words|].
  rewrite (H (Helpers.clean_text text)), clean_text_words. symmetry. apply H.
Qed.

(** ** [extract_with_rules]: the fields one by one *)

Section RuleFields.

Import Re LangchainExtractor RuleSchema.

Lemma set_if_lookup_eq {A : Type} (k : string) (o : option A)
    (f : A -> value) (data : gmap string value) :
  set_if k o f data !! k
  = match o with
    | Some a => Some (f a)
    | None => data !! k
    end.
Proof. destruct o; simpl; [apply lookup_insert_eq | done]. Qed.

Ltac rules_layers text :=
  unfold extract_with_rules; cbv zeta;
  change (default [] (Some text)) with text;
  repeat case_match;
  repeat first [ rewrite lookup_insert_ne by done
               | rewrite set_if_lookup_ne by done ];
  rewrite ?set_if_lookup_eq;
  repeat first [ rewrite lookup_insert_ne by done
               | rewrite set_if_lookup_ne by done ].

Lemma rules_lookup_email (text : str) :
  extract_with_rules (Some text) !! "email"%string
  = Some (VStr (match search email_re text with
                | Some m => group0 m
                | None => NOT_FOUND
                end)).
Proof.
  rules_layers text; destruct (search email_re text); reflexivity.
Qed.

Lemma rules_lookup_year (text : str) :
  extract_with_rules (Some text) !! "graduation_year"%string
  = Some (VStr (match search year_re text with
                | Some m => group0 m
                | None => NOT_FOUND
                end)).
Proof.
  rules_layers text; destruct (search year_re text); reflexivity.
Qed.

Lemma rules_lookup_linkedin (text : str) :
  extract_with_rules (Some text) !! "linkedin"%string
  = Some (VStr (match search linkedin_re text with
                | Some m => group0 m
                | None => NOT_FOUND
                end)).
Proof.
  rules_layers text; destruct (search linkedin_re text); reflexivity.
Qed.

Lemma rules_lookup_github (text : str) :
  extract_with_rules (Some text) !! "github"%string
  = Some (VStr (match search github_re text with
                | Some m => group0 m
                | None => NOT_FOUND
                end)).
Proof.
  rules_layers text; destruct (search github_re text); reflexivity.
Qed.

Lemma rules_lookup_degree (text : str) :
  extract_with_rules (Some text) !! "highest_degree"%string
  = Some (VStr (match find (fun kv => contains (fst kv) (lower text)) degree_map with
                | Some kv => snd kv
                | None => NOT_FOUND
                end)).
Proof.
  rules_layers text; destruct (find _ degree_map); reflexivity.
Qed.

Lemma rules_lookup_name (text : str) :
  extract_with_rules (Some text) !! "name"%string
  = Some (VStr (match find (fun ln => name_candidate ln)
                       (take 10 (map strip
                          (filter (fun ln => strip ln <> []) (splitlines text)))) with
                | Some ln => ln
                | None => NOT_FOUND
                end)).
Proof.
  rules_layers text; destruct (find _ (take 10 _)); reflexivity.
Qed.

Lemma rules_lookup_unwritten (text : option str) (k : string) :
  k ∉ written_keys -> extract_with_rules text !! k = rule_defaults !! k.
Proof.
  intros Hk.
  assert (Hne : forall k', bool_decide (k' ∈ written_keys) = true -> k' <> k).
  { intros k' Hk' ->. by apply bool_decide_eq_true_1 in Hk'. }
  unfold extract_with_rules; cbv zeta.
  repeat case_match;
    repeat first
      [ rewrite lookup_insert_ne by (apply Hne; vm_compute; reflexivity)
      | rewrite set_if_lookup_ne by (apply Hne; vm_compute; reflexivity) ];
    reflexivity.
Qed.

End RuleFields.

Section RuleTexts.

Import Re LangchainExtractor RuleSchema.

Lemma at_least_chr_texts (p : ascii -> bool) (lo : nat) (prev : option ascii)
    (m rest : str) :
  matches (at_least (Chr p) lo) prev m rest ->
  lo <= length m /\ Forall (fun c => p c = true) m.
Proof.
  intros (n & Hlo & _ & Hit). apply iterated_chr in Hit as [Hlen F].
  split; [lia | done].
Qed.

(** The texts of the email pattern. *)
Lemma email_re_texts (prev : option ascii) (m rest : str) :
  matches email_re prev m rest ->
  exists loc dom tl,
    m = loc ++ "@"%char :: dom ++ "."%char :: tl
    /\ loc <> [] /\ Forall (fun c => email_local c = true) loc
    /\ dom <> [] /\ Forall (fun c => email_domain c = true) dom
    /\ 2 <= length tl /\ Forall (fun c => isalpha_ascii c = true) tl.
Proof.
  intros (loc & m2 & -> & Hloc
          & (a & m3 & -> & (c1 & -> & Hc1)
          & (dom & m4 & -> & Hdom
          & (d & tl & -> & (c2 & -> & Hc2) & Htl)))).
  apply Ascii.eqb_eq in Hc1 as <-, Hc2 as <-.
  apply plus_chr_texts in Hloc as [? ?], Hdom as [? ?].
  apply at_least_chr_texts in Htl as [? ?].
  exists loc, dom, tl. simpl. repeat split; done.
Qed.

End RuleTexts.

(** X7: the email the rules give is the leftmost match of the address
    pattern in the text: a non-empty local part, one [@], a non-empty
    domain, a dot and at least two ASCII letters; without a match the
    field keeps the sentinel. *)
Theorem rules_email_shape (text : str) :
  match Re.search LangchainExtractor.email_re text with
  | Some m =>
      LangchainExtractor.extract_with_rules (Some text) !! "email"%string
      = Some (VStr (Re.group0 m))
      /\ text = Re.m_pre m ++ Re.group0 m ++ Re.m_post m
      /\ exists loc dom tl,
           Re.group0 m = loc ++ "@"%char :: dom ++ "."%char :: tl
           /\ loc <> []
           /\ Forall (fun c => LangchainExtractor.email_local c = true) loc
           /\ dom <> []
           /\ Forall (fun c => LangchainExtractor.email_domain c = true) dom
           /\ 2 <= length tl
           /\ Forall (fun c => isalpha_ascii c = true) tl
  | None =>
      LangchainExtractor.extract_with_rules (Some text) !! "email"%string
      = Some (VStr NOT_FOUND)
  end.
Proof.
  rewrite rules_lookup_email.
  destruct (Re.search LangchainExtractor.email_re text) as [m|] eqn:E;
    [|reflexivity].
  apply search_sound in E as [Hs Hm].
  split; [reflexivity|]. split; [exact Hs|].
  by apply email_re_texts in Hm.
Qed.

(** X8: the graduation year the rules give is the leftmost [19xx] or
    [20xx] of the text, four characters long; without one the field keeps
    the sentinel. *)
Theorem rules_year_shape (text : str) :
  match Re.search LangchainExtractor.year_re text with
  | Some m =>
      LangchainExtractor.extract_with_rules (Some text) !! "graduation_year"%string
      = Some (VStr (Re.group0 m))
      /\ text = Re.m_pre m ++ Re.group0 m ++ Re.m_post m
      /\ Validators.year_text (Re.group0 m)
  | None =>
      LangchainExtractor.extract_with_rules (Some text) !! "graduation_year"%string
      = Some (VStr NOT_FOUND)
  end.
Proof.
  rewrite rules_lookup_year.
  destruct (Re.search LangchainExtractor.year_re text) as [m|] eqn:E;
    [|reflexivity].
  apply search_sound in E as [Hs Hm].
  split; [reflexivity|]. split; [exact Hs|].
  by apply year_re_texts in Hm.
Qed.

(** X9: the rules never fill the college, the major, the CGPA, the
    experience, the companies, the designation, the languages, the tools,
    the soft skills or the certifications: on every input these keep the
    default of the literal. *)
Theorem rules_never_written (text : option str) :
  Forall (fun k => LangchainExtractor.extract_with_rules text !! k
                   = Some (LangchainExtractor.rule_default k))
         RuleSchema.never_written.
Proof.
  unfold RuleSchema.never_written.
  repeat (constructor;
          [ rewrite rules_lookup_unwritten
              by (apply (bool_decide_eq_false_1 _); vm_compute; reflexivity);
            vm_compute; reflexivity |]).
  constructor.
Qed.

Section LinkFacts.

Import Re LangchainExtractor RuleSchema.

Lemma match_at_run (r : regex) (pre : str) (prev : option ascii) (s : str)
    (mt : rmatch) :
  match_at r pre prev s = Some mt ->
  run r prev s (fun _ rest => Some rest) = Some (m_post mt).
Proof.
  unfold match_at. destruct (run r prev s _) as [rest|]; [|discriminate].
  by intros [= <-].
Qed.

(** At the position it reports, [re.search] has run the matcher to the
    end of the match. *)
Lemma search_from_run (r : regex) (s pre : str) (mt : rmatch) :
  search_from r pre s = Some mt ->
  exists skipped prev,
    s = skipped ++ group0 mt ++ m_post mt
    /\ m_pre mt = rev pre ++ skipped
    /\ run r prev (group0 mt ++ m_post mt) (fun _ rest => Some rest)
       = Some (m_post mt).
Proof.
  revert pre. induction s as [|c s IH]; intros pre; simpl.
  - destruct (match_at r pre (head pre) []) as [m|] eqn:E; [|discriminate].
    intros [= ->]. pose proof (match_at_run _ _ _ _ _ E) as Hr.
    apply match_at_sound in E as (E & Hpre & _).
    exists [], (head pre). rewrite <- E. simpl. by rewrite app_nil_r.
  - destruct (match_at r pre (head pre) (c :: s)) as [m|] eqn:E.
    + intros [= ->]. pose proof (match_at_run _ _ _ _ _ E) as Hr.
      apply match_at_sound in E as (E & Hpre & _).
      exists [], (head pre). rewrite <- E. simpl. by rewrite app_nil_r.
    + intros H. apply IH in H as (skipped & prev & -> & Hpre & Hr).
      exists (c :: skipped), prev. simpl in *.
      split; [done|]. split; [by rewrite Hpre, <- app_assoc | done].
Qed.

(** A greedy [p*] before the end of the pattern takes every character of
    the class. *)
Lemma star_chr_greedy (p : ascii -> bool) (fuel n : nat) (prev : option ascii)
    (s : str) :
  length s <= fuel ->
  rep_loop (run (Chr p)) 0 None (fun _ rest => Some rest) fuel n prev s
  = Some (drop_while p s).
Proof.
  revert n prev s. induction fuel as [|fuel IH]; intros n prev s Hlen.
  - destruct s; [reflexivity | simpl in Hlen; lia].
  - destruct s as [|c s]; [reflexivity|].
    cbn [rep_loop below run drop_while]. destruct (p c) eqn:Hc; [|reflexivity].
    assert ((length s <? length (c :: s)) = true) as ->
      by (apply Nat.ltb_lt; simpl; lia).
    rewrite IH by (simpl in Hlen; lia). reflexivity.
Qed.

Lemma run_seq (a b : regex) (prev : option ascii) (s : str)
    (k : option ascii -> str -> option str) :
  run (Seq a b) prev s k = run a prev s (fun prev' s' => run b prev' s' k).
Proof. reflexivity. Qed.

Lemma run_star (a : regex) (prev : option ascii) (s : str)
    (k : option ascii -> str -> option str) :
  run (star a) prev s k = rep_loop (run a) 0 None k (length s) 0 prev s.
Proof. reflexivity. Qed.

Lemma seqs_char_i_texts (cs : str) (prev : option ascii) (m rest : str) :
  matches (seqs (map char_i cs)) prev m rest ->
  lower m = lower cs.
Proof.
  revert prev m. induction cs as [|c cs IH]; intros prev m.
  - simpl. by intros ->.
  - destruct cs as [|c' cs].
    + simpl. intros (x & -> & Hx). apply Ascii.eqb_eq in Hx. simpl. by f_equal.
    + change (seqs (map char_i (c :: c' :: cs)))
        with (Seq (char_i c) (seqs (map char_i (c' :: cs)))).
      intros (m1 & m2 & -> & (x & -> & Hx) & Hm2).
      apply Ascii.eqb_eq in Hx. apply IH in Hm2.
      unfold lower in *. simpl. rewrite Hx. f_equal. exact Hm2.
Qed.

Lemma link_re_run (w1 w2 : string) (prev : option ascii) (s x : str) :
  run (seqs [ word_i w1; char_i "."; word_i w2; star (Chr nonspace) ])
      prev s (fun _ rest => Some rest) = Some x ->
  exists h tl,
    s = (h ++ tl) ++ x
    /\ lower h = lower (lit w1 ++ "."%char :: lit w2)
    /\ Forall (fun c => isspace c = false) tl
    /\ (x = [] \/ exists c r, x = c :: r /\ isspace c = true).
Proof.
  change (seqs [ word_i w1; char_i "."; word_i w2; star (Chr nonspace) ])
    with (Seq (word_i w1) (Seq (char_i ".")
            (Seq (word_i w2) (star (Chr nonspace))))).
  intros H. rewrite run_seq in H.
  apply run_sound in H as (m1 & r1 & -> & H1 & H). rewrite run_seq in H.
  apply run_sound in H as (m2 & r2 & -> & (d & -> & Hd) & H).
  rewrite run_seq in H.
  apply run_sound in H as (m3 & r3 & -> & H3 & H).
  rewrite run_star in H. rewrite star_chr_greedy in H by done.
  injection H as <-.
  destruct (drop_while_split nonspace r3) as (tl & E & Ftl).
  exists (m1 ++ [d] ++ m3), tl. split.
  { rewrite E at 1. by rewrite <- !app_assoc. }
  split.
  { apply seqs_char_i_texts in H1, H3. apply Ascii.eqb_eq in Hd.
    unfold lower in *. rewrite !map_app. cbn [map].
    rewrite H1, H3, Hd. reflexivity. }
  split.
  { eapply Forall_impl; [exact Ftl|]. intros c Hc. unfold nonspace in Hc.
    by destruct (isspace c). }
  destruct (drop_while nonspace r3) as [|c r] eqn:D; [by left|].
  right. exists c, r. split; [done|].
  pose proof (drop_while_head nonspace r3 c) as Hh. rewrite D in Hh.
  specialize (Hh eq_refl). unfold nonspace in Hh. by destruct (isspace c).
Qed.

Lemma link_search (w1 w2 site : string) (text : str) (m : rmatch) :
  lower (lit w1 ++ "."%char :: lit w2) = lit site ->
  search (seqs [ word_i w1; char_i "."; word_i w2; star (Chr nonspace) ]) text
  = Some m ->
  text = m_pre m ++ group0 m ++ m_post m
  /\ link_text site (group0 m) (m_post m).
Proof.
  intros Hsite H. pose proof (search_sound _ _ _ H) as [Hs _].
  split; [exact Hs|].
  apply search_from_run in H as (sk & prev & _ & _ & Hr).
  apply link_re_run in Hr as (h & tl & E & Hl & Ftl & Hpost).
  apply app_inv_tail in E. exists h, tl. by rewrite <- Hsite.
Qed.

End LinkFacts.

(** X10: the LinkedIn and GitHub fields the rules give are the leftmost
    occurrence of [linkedin.com], respectively [github.com], in any case,
    together with everything up to the next white space or the end of the
    text; without an occurrence the field keeps the sentinel. *)
Theorem rules_links_run_to_space (text : str) :
  match Re.search LangchainExtractor.linkedin_re text with
  | Some m =>
      LangchainExtractor.extract_with_rules (Some text) !! "linkedin"%string
      = Some (VStr (Re.group0 m))
      /\ text = Re.m_pre m ++ Re.group0 m ++ Re.m_post m
      /\ RuleSchema.link_text "linkedin.com" (Re.group0 m) (Re.m_post m)
  | None =>
      LangchainExtractor.extract_with_rules (Some text) !! "linkedin"%string
      = Some (VStr NOT_FOUND)
  end
  /\ match Re.search LangchainExtractor.github_re text with
     | Some m =>
         LangchainExtractor.extract_with_rules (Some text) !! "github"%string
         = Some (VStr (Re.group0 m))
         /\ text = Re.m_pre m ++ Re.group0 m ++ Re.m_post m
         /\ RuleSchema.link_text "github.com" (Re.group0 m) (Re.m_post m)
     | None =>
         LangchainExtractor.extract_with_rules (Some text) !! "github"%string
         = Some (VStr NOT_FOUND)
     end.
Proof.
  rewrite rules_lookup_linkedin, rules_lookup_github. split.
  - destruct (Re.search LangchainExtractor.linkedin_re text) as [m|] eqn:E;
      [|reflexivity].
    split; [reflexivity|].
    by apply (link_search "linkedin" "com" "linkedin.com").
  - destruct (Re.search LangchainExtractor.github_re text) as [m|] eqn:E;
      [|reflexivity].
    split; [reflexivity|].
    by apply (link_search "github" "com" "github.com").
Qed.

Section DegreeFacts.

Import Re LangchainExtractor RuleSchema.

Lemma starts_with_spec (p s : str) :
  starts_with p s = true <-> exists post, s = p ++ post.
Proof.
  revert s. induction p as [|a p IH]; intros s; simpl.
  - split; [by exists s | done].
  - destruct s as [|b s].
    + split; [done | by intros [post H]].
    + rewrite andb_true_iff, IH. split.
      * intros [E%Ascii.eqb_eq [post ->]]. subst. by exists post.
      * intros [post [= -> ->]]. split; [apply Ascii.eqb_refl | by exists post].
Qed.

(** [p in s] holds exactly when [p] is a substring of [s]. *)
Lemma contains_spec (p s : str) :
  contains p s = true <-> exists pre post, s = pre ++ p ++ post.
Proof.
  induction s as [|c s IH].
  - simpl. rewrite orb_false_r, starts_with_spec. split.
    + intros [post H]. by exists [], post.
    + intros (pre & post & H). symmetry in H.
      apply app_eq_nil in H as [-> H]. exists post. done.
  - cbn [contains]. rewrite orb_true_iff, IH, starts_with_spec. split.
    + intros [[post H]|(pre & post & ->)].
      * by exists [], post.
      * by exists (c :: pre), post.
    + intros (pre & post & H). destruct pre as [|a pre].
      * left. by exists post.
      * right. injection H as -> ->. by exists pre, post.
Qed.

Lemma bool_contra (b : bool) : b = true -> b = false -> False.
Proof. congruence. Qed.

Lemma find_first {A : Type} (f : A -> bool) (before : list A) (x : A)
    (after : list A) :
  f x = true -> Forall (fun y => f y = false) before ->
  find f (before ++ x :: after) = Some x.
Proof.
  intros Hx. induction 1 as [|y before Hy _ IH]; simpl.
  - by rewrite Hx.
  - by rewrite Hy.
Qed.

Lemma degree_labels (kv : str * str) :
  In kv degree_map ->
  bool_decide (snd kv ∈ [lit "PhD"; lit "Masters"; lit "Bachelors"]) = true.
Proof.
  unfold degree_map. simpl.
  intros H. repeat (destruct H as [<-|H]; [vm_compute; reflexivity|]). done.
Qed.

End DegreeFacts.

(** X11: the degree the rules give is one of three labels or the
    sentinel.  It is the label of the first keyword of the table that is a
    substring of the lowered text, and the sentinel exactly when no
    keyword is. *)
Theorem rules_degree_keywords (text : str) :
  exists d,
    LangchainExtractor.extract_with_rules (Some text) !! "highest_degree"%string
    = Some (VStr d)
    /\ d ∈ [lit "PhD"; lit "Masters"; lit "Bachelors"; NOT_FOUND]
    /\ (d = NOT_FOUND <->
        forall kv, kv ∈ LangchainExtractor.degree_map ->
          ~ exists pre post, lower text = pre ++ kv.1 ++ post)
    /\ (forall before kv after,
          LangchainExtractor.degree_map = before ++ kv :: after ->
          (exists pre post, lower text = pre ++ kv.1 ++ post) ->
          Forall (fun kv' => ~ exists pre post, lower text = pre ++ kv'.1 ++ post)
                 before ->
          d = kv.2).
Proof.
  rewrite rules_lookup_degree.
  destruct (find _ LangchainExtractor.degree_map) as [kv|] eqn:E.
  - exists kv.2. split; [reflexivity|].
    pose proof (find_some _ _ E) as [Hin Hc].
    pose proof (degree_labels kv Hin) as Hl.
    apply bool_decide_eq_true_1 in Hl.
    split; [do 3 (apply elem_of_cons in Hl as [->|Hl];
                  [repeat (first [by left | right])|]);
            by apply elem_of_nil in Hl|].
    split.
    + split.
      * intros Hd. rewrite Hd in Hl.
        apply (bool_decide_eq_false_1
                 (NOT_FOUND ∈ [lit "PhD"; lit "Masters"; lit "Bachelors"]))
          in Hl; [done | vm_compute; reflexivity].
      * intros Hno. exfalso. apply (Hno kv); [by apply list_elem_of_In|].
        by apply contains_spec.
    + intros before kv' after Hmap Hsub Hbefore.
      rewrite Hmap in E.
      rewrite (find_first _ before kv' after) in E.
      * by injection E as <-.
      * by apply contains_spec.
      * eapply Forall_impl; [exact Hbefore|]. intros y Hy. simpl.
        destruct (contains y.1 (lower text)) eqn:Hc'; [|done].
        by apply contains_spec in Hc'.
  - exists NOT_FOUND. split; [reflexivity|].
    split; [repeat (first [by left | right])|].
    pose proof (find_none _ _ E) as Hnone. split.
    + split; [|done]. intros _ kv Hkv Hsub.
      apply contains_spec in Hsub. apply list_elem_of_In in Hkv.
      specialize (Hnone kv Hkv). exact (bool_contra _ Hsub Hnone).
    + intros before kv after Hmap Hsub _. exfalso.
      apply contains_spec in Hsub.
      assert (Hin : In kv LangchainExtractor.degree_map).
      { rewrite Hmap. apply in_elt. }
      specialize (Hnone kv Hin). exact (bool_contra _ Hsub Hnone).
Qed.

Section SkillFacts.

Import Re LangchainExtractor RuleSchema.

Lemma code_inj (a b : ascii) : code a = code b -> a = b.
Proof.
  unfold code. intros H.
  rewrite <- (ascii_nat_embedding a), <- (ascii_nat_embedding b). by rewrite H.
Qed.

(** Two strings that [sorted] puts in neither order are equal. *)
Lemma ltb_total (s t : str) : ltb s t = false -> ltb t s = false -> s = t.
Proof.
  revert t. induction s as [|a s IH]; intros [|b t]; simpl; try done.
  destruct (code a <? code b) eqn:E1; [done|].
  destruct (code b <? code a) eqn:E2; [done|].
  intros H1 H2.
  apply Nat.ltb_ge in E1, E2. f_equal; [apply code_inj; lia | by apply IH].
Qed.

Lemma insert_sorted_elem (x y : str) (l : list str) :
  y ∈ insert_sorted x l <-> y = x \/ y ∈ l.
Proof.
  induction l as [|z l IH]; simpl.
  - rewrite list_elem_of_singleton. split; [by left | by intros [?|?%elem_of_nil]].
  - destruct (ltb x z) eqn:E1; [by rewrite elem_of_cons|].
    destruct (ltb z x) eqn:E2.
    + rewrite !elem_of_cons, IH. tauto.
    + rewrite (ltb_total x z E1 E2), elem_of_cons. tauto.
Qed.

Lemma insert_sorted_HdRel (x y : str) (l : list str) :
  lt_str y x -> HdRel lt_str y l -> HdRel lt_str y (insert_sorted x l).
Proof.
  intros Hyx Hl. destruct l as [|z l]; simpl; [by constructor|].
  destruct (ltb x z); [by constructor|].
  destruct (ltb z x); [|done].
  constructor. by inversion Hl.
Qed.

Lemma insert_sorted_Sorted (x : str) (l : list str) :
  Sorted lt_str l -> Sorted lt_str (insert_sorted x l).
Proof.
  induction 1 as [|z l Hs IH Hd]; simpl; [by repeat constructor|].
  destruct (ltb x z) eqn:E1.
  - constructor; [by constructor | by constructor].
  - destruct (ltb z x) eqn:E2; [|by constructor].
    constructor; [exact IH | by apply insert_sorted_HdRel].
Qed.

(** [sorted(set(l))] is strictly increasing and holds the elements of [l]. *)
Lemma sorted_set_spec (l : list str) :
  Sorted lt_str (sorted_set l) /\ (forall y, y ∈ sorted_set l <-> y ∈ l).
Proof.
  induction l as [|x l [IHs IHe]]; simpl.
  - split; [constructor | done].
  - split; [by apply insert_sorted_Sorted|].
    intros y. rewrite insert_sorted_elem, IHe, elem_of_cons. tauto.
Qed.

Lemma rules_lookup_skills (text : str) :
  extract_with_rules (Some text) !! "technical_skills"%string
  = Some (VStr (match skill_tokens text with
                | [] => NOT_FOUND
                | t :: ts => join (lit ", ") (t :: ts)
                end)).
Proof.
  unfold skill_tokens, lines_of, extract_with_rules; cbv zeta.
  change (default [] (Some text)) with text.
  set (d := set_if "graduation_year" _ _ _).
  assert (Hd : d !! "technical_skills"%string = Some (VStr NOT_FOUND)).
  { unfold d. repeat case_match;
      repeat first [ rewrite lookup_insert_ne by done
                   | rewrite set_if_lookup_ne by done ];
      reflexivity. }
  clearbody d.
  destruct (find_skills_section _) as [sec|]; [|exact Hd].
  destruct sec as [|c0 sec]; [exact Hd|].
  destruct (sorted_set _) as [|t ts]; [exact Hd|].
  by rewrite lookup_insert_eq.
Qed.

End SkillFacts.

(** X12: the technical skills the rules give are the tokens of the skills
    section joined by a comma and a space, or the sentinel when there is
    no token.  The tokens are in strictly increasing order (so none occurs
    twice); each is trimmed and at least two characters long, and they are
    exactly the trimmed pieces of the section that are that long. *)
Theorem rules_skills_sorted (text : str) :
  LangchainExtractor.extract_with_rules (Some text) !! "technical_skills"%string
  = Some (VStr (match RuleSchema.skill_tokens text with
                | [] => NOT_FOUND
                | t :: ts => join (lit ", ") (t :: ts)
                end))
  /\ Sorted RuleSchema.lt_str (RuleSchema.skill_tokens text)
  /\ Forall (fun t => 2 <= length t /\ strip t = t) (RuleSchema.skill_tokens text)
  /\ match LangchainExtractor.find_skills_section (RuleSchema.lines_of text) with
     | Some section =>
         forall t, t ∈ RuleSchema.skill_tokens text <->
           exists p, p ∈ split_on LangchainExtractor.skills_separator [] section
                     /\ t = strip p /\ 2 <= length t
     | None => RuleSchema.skill_tokens text = []
     end.
Proof.
  split; [apply rules_lookup_skills|].
  unfold RuleSchema.skill_tokens.
  destruct (LangchainExtractor.find_skills_section _) as [section|];
    [|by repeat split; constructor].
  set (parts := split_on _ [] section).
  destruct (sorted_set_spec
              (map strip (filter (fun p => 2 <= length (strip p)) parts)))
    as [Hs He].
  assert (Hiff : forall t,
    t ∈ sorted_set (map strip (filter (fun p => 2 <= length (strip p)) parts))
    <-> exists p, p ∈ parts /\ t = strip p /\ 2 <= length t).
  { intros t. rewrite He. change (map strip ?l) with (strip <$> l).
    rewrite list_elem_of_fmap. split.
    - intros (p & -> & Hp). apply list_elem_of_filter in Hp as [Hlen Hp].
      by exists p.
    - intros (p & Hp & -> & Hlen). exists p. split; [done|].
      by apply list_elem_of_filter. }
  split; [exact Hs|]. split; [|exact Hiff].
  apply Forall_forall. intros t Ht. apply Hiff in Ht as (p & _ & -> & Hlen).
  split; [exact Hlen | apply strip_idempotent].
Qed.

Section NameFacts.

Import Re LangchainExtractor RuleSchema.

Lemma run_alt_r (a b : regex) (prev : option ascii) (s : str)
    (k : option ascii -> str -> option str) :
  is_Some (run b prev s k) -> is_Some (run (Alt a b) prev s k).
Proof. intros H. simpl. by destruct (run a prev s k). Qed.

Lemma run_alt_l (a b : regex) (prev : option ascii) (s : str)
    (k : option ascii -> str -> option str) :
  is_Some (run a prev s k) -> is_Some (run (Alt a b) prev s k).
Proof. intros [x H]. simpl. rewrite H. eauto. Qed.

(** At an [@] or a digit the pattern [@|linkedin|github|\d] matches. *)
Lemma not_a_name_matches (prev : option ascii) (c : ascii) (s : str) :
  c = "@"%char \/ isdigit c = true ->
  is_Some (run not_a_name_re prev (c :: s) (fun _ rest => Some rest)).
Proof.
  intros [->|Hd]; unfold not_a_name_re.
  - apply run_alt_l. simpl. eauto.
  - do 3 apply run_alt_r. unfold digit. simpl. rewrite Hd. eauto.
Qed.

Lemma search_from_none_chars (s pre : str) :
  search_from not_a_name_re pre s = None ->
  Forall (fun c => c <> "@"%char /\ isdigit c = false) s.
Proof.
  revert pre. induction s as [|c s IH]; intros pre; [constructor|].
  cbn [search_from]. unfold match_at at 1.
  destruct (run not_a_name_re (head pre) (c :: s) _) as [x|] eqn:E;
    [discriminate|].
  intros H. constructor; [|by apply (IH (c :: pre))].
  split.
  - intros ->.
    destruct (not_a_name_matches (head pre) "@" s (or_introl eq_refl)) as [y Hy].
    congruence.
  - destruct (isdigit c) eqn:Hd; [|done].
    destruct (not_a_name_matches (head pre) c s (or_intror Hd)) as [y Hy].
    congruence.
Qed.

Lemma lines_of_elem (text n : str) :
  n ∈ lines_of text -> n <> [] /\ strip n = n.
Proof.
  unfold lines_of. change (map strip ?l) with (strip <$> l).
  intros (ln & -> & Hln)%list_elem_of_fmap.
  apply list_elem_of_filter in Hln as [Hne _].
  split; [exact Hne | apply strip_idempotent].
Qed.

End NameFacts.

(** X13: the name the rules give is the first of the first ten non-blank
    lines, trimmed, that has at most six words, is not a section heading
    and holds no digit and no [@]; when there is no such line the field
    keeps the sentinel. *)
Theorem rules_name_line (text : str) :
  exists n,
    LangchainExtractor.extract_with_rules (Some text) !! "name"%string
    = Some (VStr n)
    /\ match find (fun ln => LangchainExtractor.name_candidate ln)
                  (take 10 (RuleSchema.lines_of text)) with
       | Some ln =>
           n = ln /\ n ∈ take 10 (RuleSchema.lines_of text)
           /\ n <> [] /\ strip n = n
           /\ length (split_ws n) <= 6
           /\ (lower n ∉ LangchainExtractor.header_keywords)
           /\ Forall (fun c => c <> "@"%char /\ isdigit c = false) n
       | None =>
           n = NOT_FOUND
           /\ Forall (fun ln => LangchainExtractor.name_candidate ln = false)
                     (take 10 (RuleSchema.lines_of text))
       end.
Proof.
  rewrite rules_lookup_name. fold (RuleSchema.lines_of text).
  destruct (find _ (take 10 (RuleSchema.lines_of text))) as [ln|] eqn:E.
  - exists ln. split; [reflexivity|]. split; [reflexivity|].
    apply find_some in E as [Hin Hc]. apply list_elem_of_In in Hin.
    split; [exact Hin|].
    assert (Hl : ln ∈ RuleSchema.lines_of text).
    { eapply elem_of_sublist; [exact Hin | apply sublist_take]. }
    destruct (lines_of_elem _ _ Hl) as [Hne Hs].
    split; [exact Hne|]. split; [exact Hs|].
    unfold LangchainExtractor.name_candidate in Hc.
    apply andb_true_iff in Hc as [Hc H3]. apply andb_true_iff in Hc as [H1 H2].
    split; [by apply Nat.leb_le|]. split.
    + apply negb_true_iff in H2. by apply bool_decide_eq_false_1 in H2.
    + apply negb_true_iff in H3. apply bool_decide_eq_false_1 in H3.
      apply (search_from_none_chars ln []).
      destruct (Re.search LangchainExtractor.not_a_name_re ln) as [m|] eqn:Es;
        [|exact Es].
      exfalso. apply H3. eauto.
  - exists NOT_FOUND. split; [reflexivity|]. split; [reflexivity|].
    apply Forall_forall. intros ln Hln. apply list_elem_of_In in Hln.
    exact (find_none _ _ E ln Hln).
Qed.

(** ** [extract_with_langchain]: fallback and shape *)

Section LangchainMore.

Import LangchainExtractor.

Lemma langchain_not_short (svc : model_service) (resume_text : str) :
  resume_text <> [] -> 20 <= length (strip resume_text) ->
  extract_with_langchain svc resume_text
  = if negb (ChatOpenAI svc) then call_rules resume_text
    else
      Trace.bind (call_model svc (take TEXT_BUDGET resume_text)) (fun r =>
        match r with
        | Returned fields =>
            let data := model_dump fields in
            if bool_decide (data = ∅) || all_default data then
              Trace.bind (call_rules resume_text) (fun rule_data =>
                Trace.ret (backfill data rule_data))
            else Trace.ret data
        | Raised => call_rules resume_text
        end).
Proof.
  intros Hne Hlen. unfold extract_with_langchain.
  rewrite (bool_decide_eq_false_2 _ Hne).
  assert ((length (strip resume_text) <? 20) = false) as ->
    by (apply Nat.ltb_ge; lia).
  reflexivity.
Qed.

Lemma backfill_dom (data rule_data : gmap string value) :
  dom (backfill data rule_data) = dom data.
Proof.
  apply set_eq. intros k. rewrite !elem_of_dom, backfill_lookup.
  destruct (data !! k) as [d|]; [|done].
  destruct (is_default d || falsy d); split; eauto.
Qed.

End LangchainMore.

(** X14: when the text is long enough and the text model is missing or
    raises, the tier returns exactly what the rule extractor gives on the
    same text; the model is called at most once and the rules once. *)
Theorem langchain_falls_back_to_rules (svc : LangchainExtractor.model_service)
    (resume_text : str) :
  resume_text <> [] -> 20 <= length (strip resume_text) ->
  LangchainExtractor.ChatOpenAI svc = false
  \/ LangchainExtractor.chain_invoke svc
       (take LangchainExtractor.TEXT_BUDGET resume_text) = Raised ->
  LangchainExtractor.extract_with_langchain svc resume_text
  = (LangchainExtractor.extract_with_rules (Some resume_text),
     (if LangchainExtractor.ChatOpenAI svc
      then [CallModel (take LangchainExtractor.TEXT_BUDGET resume_text)]
      else []) ++ [CallRules resume_text]).
Proof.
  intros Hne Hlen H. rewrite langchain_not_short by done.
  destruct (LangchainExtractor.ChatOpenAI svc) eqn:Hsvc; simpl negb; cbv iota.
  - destruct H as [H|H]; [discriminate|].
    rewrite call_model_eq, bind_pair, H, call_rules_eq. reflexivity.
  - by rewrite call_rules_eq.
Qed.

Lemma langchain_falls_back_to_rules_witness :
  Samples.resume_text <> [] /\ 20 <= length (strip Samples.resume_text)
  /\ LangchainExtractor.extract_with_langchain Samples2.offline_model
       Samples.resume_text
     = (LangchainExtractor.extract_with_rules (Some Samples.resume_text),
        (if LangchainExtractor.ChatOpenAI Samples2.offline_model
         then [CallModel (take LangchainExtractor.TEXT_BUDGET Samples.resume_text)]
         else []) ++ [CallRules Samples.resume_text]).
Proof.
  assert (H1 : Samples.resume_text <> []) by discriminate.
  assert (L : length (strip Samples.resume_text) = 29)
    by (vm_compute; reflexivity).
  assert (H2 : 20 <= length (strip Samples.resume_text)) by (rewrite L; lia).
  split; [exact H1|]. split; [exact H2|].
  exact (langchain_falls_back_to_rules Samples2.offline_model
           Samples.resume_text H1 H2 (or_introl eq_refl)).
Defined.

Lemma langchain_result_dom (svc : LangchainExtractor.model_service)
    (resume_text : str) :
  resume_text <> [] -> 20 <= length (strip resume_text) ->
  dom (result (LangchainExtractor.extract_with_langchain svc resume_text))
  = list_to_set LangchainExtractor.rule_keys.
Proof.
  intros E1 E2. rewrite langchain_not_short by done.
  destruct (LangchainExtractor.ChatOpenAI svc); simpl negb; cbv iota.
  - rewrite call_model_eq, bind_pair.
    destruct (LangchainExtractor.chain_invoke svc _) as [fields|].
    + cbv zeta.
      destruct (bool_decide (LangchainExtractor.model_dump fields = ∅)
                || LangchainExtractor.all_default
                     (LangchainExtractor.model_dump fields)).
      * rewrite call_rules_eq, bind_pair.
        cbn [Trace.ret Trace.result fst].
        rewrite backfill_dom. apply model_dump_dom.
      * cbn [Trace.ret Trace.result fst]. apply model_dump_dom.
    + rewrite call_rules_eq. apply extract_with_rules_shaped.
  - rewrite call_rules_eq. apply extract_with_rules_shaped.
Qed.

(** X15: the mapping the text-model tier returns is empty exactly when
    the text is too short; otherwise it holds the 19 keys of the
    extraction schema and no other, whatever the model does. *)
Theorem langchain_result_shape (svc : LangchainExtractor.model_service)
    (resume_text : str) :
  if bool_decide (resume_text = []) || (length (strip resume_text) <? 20)
  then result (LangchainExtractor.extract_with_langchain svc resume_text) = ∅
  else dom (result (LangchainExtractor.extract_with_langchain svc resume_text))
       = list_to_set LangchainExtractor.rule_keys.
Proof.
  destruct (bool_decide (resume_text = [])) eqn:E1; simpl.
  { unfold LangchainExtractor.extract_with_langchain. by rewrite E1. }
  destruct (length (strip resume_text) <? 20) eqn:E2.
  { unfold LangchainExtractor.extract_with_langchain.
    by rewrite E1, E2. }
  apply bool_decide_eq_false_1 in E1. apply Nat.ltb_ge in E2.
  by apply langchain_result_dom.
Qed.

(** ** [process_single_resume]: what a record is made of *)

Section PipelineMore.

Import LangchainExtractor VisionExtractor App Records.

Lemma result_bind {A B : Type} (m : traced A) (f : A -> traced B) :
  result (Trace.bind m f) = result (f (result m)).
Proof. destruct m as [a t]. unfold Trace.bind. simpl. by destruct (f a). Qed.

Lemma calls_bind {A B : Type} (m : traced A) (f : A -> traced B) :
  calls (Trace.bind m f) = calls m ++ calls (f (result m)).
Proof. destruct m as [a t]. unfold Trace.bind. simpl. by destruct (f a). Qed.

Lemma finish_eq (svc : services) (file_name : str) (ai_data : gmap string value) :
  finish svc file_name ai_data
  = if bool_decide (ai_data = ∅)
    then (Returned None, [Report (lit "AI could not parse " ++ file_name)])
    else (Returned (Some (Validators.validate_resume_data (float_repr svc)
                            (ai_data ∪ base_fields svc file_name))), []).
Proof. unfold finish. destruct (bool_decide (ai_data = ∅)); reflexivity. Qed.

Lemma process_result svc file_name file_content :
  result (process_single_resume svc file_name file_content)
  = match result (process_body svc file_name file_content) with
    | Returned resume_data => resume_data
    | Raised => None
    end.
Proof.
  unfold process_single_resume. rewrite result_bind.
  by destruct (result (process_body svc file_name file_content)).
Qed.

End PipelineMore.

Section PipelineBranches.

Import LangchainExtractor VisionExtractor App Records.

Lemma langchain_gate (svc : model_service) (resume_text : str) :
  (length (strip resume_text) <? 20) = true ->
  extract_with_langchain svc resume_text = (∅, []).
Proof.
  intros H. unfold extract_with_langchain. rewrite H.
  by rewrite orb_true_r.
Qed.

Lemma result_call_vision svc file_content file_type :
  result (call_vision svc file_content file_type)
  = extract_with_openai_vision svc file_content file_type.
Proof. reflexivity. Qed.

Lemma result_call_text_pdf svc file_content :
  result (call_text_pdf svc file_content) = extract_text_from_pdf svc file_content.
Proof. reflexivity. Qed.

Lemma result_call_text_docx svc file_content :
  result (call_text_docx svc file_content) = extract_text_from_docx svc file_content.
Proof. reflexivity. Qed.

Lemma clean_text_stripped (text : str) :
  strip (Helpers.clean_text text) = Helpers.clean_text text.
Proof. unfold Helpers.clean_text. apply strip_idempotent. Qed.

Lemma long_strip_nonempty (text : str) (n : nat) :
  S n <= length (strip text) -> text <> [].
Proof. intros H ->. vm_compute in H. lia. Qed.

Lemma base_fields_lookup (svc : services) (file_name : str) :
  base_fields svc file_name !! "resume_id"%string
  = Some (VStr (generate_resume_id svc))
  /\ base_fields svc file_name !! "file_name"%string = Some (VStr file_name)
  /\ base_fields svc file_name !! "upload_date"%string = Some (VStr (now svc)).
Proof. unfold base_fields. repeat split; by simplify_map_eq. Qed.

(** The identity fields of a record whose extraction result has the keys
    of the extraction schema. *)
Lemma rule_shaped_record (svc : services) (file_name : str)
    (ai_data : gmap string value) :
  dom ai_data = list_to_set rule_keys ->
  let rec := Validators.validate_resume_data (float_repr svc)
               (ai_data ∪ base_fields svc file_name) in
  rec !! "resume_id"%string = Some (VStr (strip (generate_resume_id svc)))
  /\ rec !! "file_name"%string = Some (VStr (strip file_name))
  /\ rec !! "upload_date"%string = Some (VStr (strip (now svc))).
Proof.
  intros Hdom rec. unfold rec.
  destruct (base_fields_lookup svc file_name) as (B1 & B2 & B3).
  assert (Hno : forall k, bool_decide (k ∈ rule_keys) = false ->
                          ai_data !! k = None).
  { intros k Hk. apply not_elem_of_dom. rewrite Hdom.
    rewrite elem_of_list_to_set. by apply (bool_decide_eq_false_1 _). }
  rewrite !validate_lookup.
  rewrite !decide_True by (apply (bool_decide_eq_true_1 _); vm_compute; reflexivity).
  rewrite !lookup_union_r by (apply Hno; vm_compute; reflexivity).
  rewrite B1, B2, B3. unfold Validators.validate_field.
  repeat split; by rewrite !decide_False by done.
Qed.

End PipelineBranches.

(** X16: every record that [process_single_resume] returns is made of an
    extraction result of the file and the identity fields: it is
    [validate_resume_data] of [{**base, **ai_data}], where [ai_data] is
    not empty and is what the vision tier returned for the file, or,
    when the vision tier returned nothing, what the text tier returned on
    the cleaned text of the file, a text of at least 50 characters.  The
    record holds exactly the 22 canonical keys. *)
Theorem process_record_shape (svc : App.services) (file_name : str)
    (file_content : VisionExtractor.bytes) :
  match result (App.process_single_resume svc file_name file_content) with
  | Some rec =>
      dom rec = list_to_set Validators.keys
      /\ exists ai_data,
           ai_data <> ∅
           /\ Records.extracted svc file_name file_content ai_data
           /\ rec = Validators.validate_resume_data (App.float_repr svc)
                      (ai_data ∪ Records.base_fields svc file_name)
  | None => True
  end.
Proof.
  rewrite process_result. unfold App.process_body.
  case_bool_decide as Hpdf.
  - rewrite result_bind, result_call_vision.
    destruct (App.extract_with_openai_vision svc file_content (lit "pdf"))
      as [ai|] eqn:Hv; [|exact I].
    cbv beta iota. case_bool_decide as Hai.
    + subst ai. rewrite result_bind, result_call_text_pdf.
      destruct (App.extract_text_from_pdf svc file_content) as [t|] eqn:Ht;
        [|exact I].
      cbv beta iota.
      destruct (bool_decide (t = []) || (length (strip t) <? 50)) eqn:Hgate;
        [exact I|].
      apply orb_false_elim in Hgate as [_ Hlen]. apply Nat.ltb_ge in Hlen.
      cbv zeta. rewrite result_bind, finish_eq.
      case_bool_decide as Hai'; [exact I|].
      split; [apply validate_dom|]. eexists. split; [exact Hai'|].
      split; [|reflexivity].
      exists (lit "pdf"), (Returned t). split.
      * left. by repeat split.
      * right. split; [exact Hv|]. by exists t.
    + rewrite finish_eq, (bool_decide_eq_false_2 _ Hai).
      split; [apply validate_dom|]. exists ai. split; [exact Hai|].
      split; [|reflexivity].
      exists (lit "pdf"), (App.extract_text_from_pdf svc file_content). split.
      * left. by repeat split.
      * by left.
  - case_bool_decide as Hdoc; [|exact I].
    rewrite result_bind, result_call_vision.
    destruct (App.extract_with_openai_vision svc file_content (lit "docx"))
      as [ai|] eqn:Hv; [|exact I].
    cbv beta iota. case_bool_decide as Hai.
    + subst ai. rewrite result_bind, result_call_text_docx.
      destruct (App.extract_text_from_docx svc file_content) as [t|] eqn:Ht;
        [|exact I].
      cbv beta iota. case_bool_decide as Hempty; [exact I|].
      destruct (length (strip t) <? 50) eqn:Hlen; [exact I|].
      apply Nat.ltb_ge in Hlen.
      cbv zeta. rewrite result_bind, finish_eq.
      case_bool_decide as Hai'; [exact I|].
      split; [apply validate_dom|]. eexists. split; [exact Hai'|].
      split; [|reflexivity].
      exists (lit "docx"), (Returned t). split.
      * right. by repeat split.
      * right. split; [exact Hv|]. by exists t.
    + rewrite finish_eq, (bool_decide_eq_false_2 _ Hai).
      split; [apply validate_dom|]. exists ai. split; [exact Hai|].
      split; [|reflexivity].
      exists (lit "docx"), (App.extract_text_from_docx svc file_content). split.
      * right. by repeat split.
      * by left.
Qed.

(** X17: when the vision tier returns a non-empty mapping it is used
    whole: the record is the validated union of that mapping and the
    identity fields, and nothing else is called; neither the text
    extractor, nor the language model, nor the rules. *)
Theorem vision_result_used_whole (svc : App.services) (file_name : str)
    (file_content : VisionExtractor.bytes) (file_type : str)
    (text : outcome str) (ai_data : gmap string value) :
  Records.branch svc file_name file_content file_type text ->
  App.extract_with_openai_vision svc file_content file_type = Returned ai_data ->
  ai_data <> ∅ ->
  App.process_single_resume svc file_name file_content
  = (Some (Validators.validate_resume_data (App.float_repr svc)
             (ai_data ∪ Records.base_fields svc file_name)),
     [CallVision file_type]).
Proof.
  intros Hb Hv Hne.
  unfold App.process_single_resume, App.process_body, App.call_vision.
  destruct Hb as [(Hext & -> & ->)|(Hnp & Hext & -> & ->)].
  - rewrite (bool_decide_eq_true_2 _ Hext).
    cbn [Trace.bind Trace.emit Trace.ret fst snd app]. rewrite Hv.
    rewrite (bool_decide_eq_false_2 _ Hne), finish_eq.
    rewrite (bool_decide_eq_false_2 _ Hne). reflexivity.
  - rewrite (bool_decide_eq_false_2 _ Hnp), (bool_decide_eq_true_2 _ Hext).
    cbn [Trace.bind Trace.emit Trace.ret fst snd app]. rewrite Hv.
    rewrite (bool_decide_eq_false_2 _ Hne), finish_eq.
    rewrite (bool_decide_eq_false_2 _ Hne). reflexivity.
Qed.

Lemma vision_result_used_whole_witness :
  let d : gmap string value := {[ "name"%string := VStr (lit " Jane Doe ") ]} in
  let svc := Samples2.make_services (Returned d) [] in
  Records.branch svc (lit "cv.PDF") [] (lit "pdf")
    (App.extract_text_from_pdf svc [])
  /\ d <> ∅
  /\ App.process_single_resume svc (lit "cv.PDF") []
     = (Some (Validators.validate_resume_data (App.float_repr svc)
                (d ∪ Records.base_fields svc (lit "cv.PDF"))),
        [CallVision (lit "pdf")]).
Proof.
  intros d svc.
  assert (Hb : Records.branch svc (lit "cv.PDF") [] (lit "pdf")
                 (App.extract_text_from_pdf svc [])).
  { left. repeat split; reflexivity. }
  assert (Hne : d <> ∅).
  { intros H. assert (Hl : d !! "name"%string = None) by (by rewrite H).
    unfold d in Hl. by simplify_map_eq. }
  split; [exact Hb|]. split; [exact Hne|].
  exact (vision_result_used_whole svc (lit "cv.PDF") [] (lit "pdf") _ d
           Hb eq_refl Hne).
Defined.

(** X18: a file whose extension is none of [.pdf], [.docx] and [.doc]
    (in any case) gives no record, and no tier is called for it. *)
Theorem unsupported_extension_rejected (svc : App.services) (file_name : str)
    (file_content : VisionExtractor.bytes) :
  (lower (App.suffix file_name) ∉ [lit ".pdf"; lit ".docx"; lit ".doc"]) ->
  App.process_single_resume svc file_name file_content
  = (None, [Report (lit "Unsupported file format: "
                    ++ lower (App.suffix file_name))]).
Proof.
  intros H. unfold App.process_single_resume, App.process_body.
  rewrite bool_decide_eq_false_2 by (intros E; apply H; rewrite E; by left).
  rewrite bool_decide_eq_false_2 by (intros E; apply H; by right).
  reflexivity.
Qed.

Lemma unsupported_extension_rejected_witness :
  (lower (App.suffix (lit "notes.txt")) ∉ [lit ".pdf"; lit ".docx"; lit ".doc"])
  /\ App.process_single_resume Samples.scanned_services (lit "notes.txt") []
     = (None, [Report (lit "Unsupported file format: "
                       ++ lower (App.suffix (lit "notes.txt")))]).
Proof.
  assert (H : lower (App.suffix (lit "notes.txt"))
              ∉ [lit ".pdf"; lit ".docx"; lit ".doc"]).
  { apply (bool_decide_eq_false_1 _). vm_compute. reflexivity. }
  split; [exact H|].
  exact (unsupported_extension_rejected Samples.scanned_services
           (lit "notes.txt") [] H).
Defined.

(** X19: a text that passes the 50-character gate but whose cleaned form
    is shorter than 20 characters (a text that is mostly white space)
    gives no record: the text tier returns the empty mapping without
    calling the model or the rules. *)
Theorem sparse_text_rejected (svc : App.services) (file_name : str)
    (file_content : VisionExtractor.bytes) (file_type t : str) :
  Records.branch svc file_name file_content file_type (Returned t) ->
  App.extract_with_openai_vision svc file_content file_type = Returned ∅ ->
  50 <= length (strip t) ->
  length (Helpers.clean_text t) < 20 ->
  App.process_single_resume svc file_name file_content
  = (None, [CallVision file_type; Records.text_call file_type;
            Report (lit "AI could not parse " ++ file_name)]).
Proof.
  intros Hb Hv H50 H20.
  assert (Hne : t <> []) by (by apply (long_strip_nonempty t 49)).
  assert (Hgate : (length (strip t) <? 50) = false) by (apply Nat.ltb_ge; lia).
  assert (Hl : LangchainExtractor.extract_with_langchain (App.model svc)
                 (Helpers.clean_text t) = (∅, [])).
  { apply langchain_gate. rewrite clean_text_stripped. by apply Nat.ltb_lt. }
  unfold App.process_single_resume, App.process_body, App.call_vision,
    App.call_text_pdf, App.call_text_docx.
  destruct Hb as [(Hext & -> & Ht)|(Hnp & Hext & -> & Ht)].
  - rewrite (bool_decide_eq_true_2 _ Hext).
    cbn [Trace.bind Trace.emit Trace.ret fst snd app]. rewrite Hv.
    rewrite bool_decide_eq_true_2 by done.
    cbn [Trace.bind Trace.emit Trace.ret fst snd app]. rewrite <- Ht.
    rewrite (bool_decide_eq_false_2 _ Hne), Hgate. cbn [orb].
    rewrite Hl. cbn [Trace.bind]. rewrite finish_eq.
    rewrite bool_decide_eq_true_2 by done. reflexivity.
  - rewrite (bool_decide_eq_false_2 _ Hnp), (bool_decide_eq_true_2 _ Hext).
    cbn [Trace.bind Trace.emit Trace.ret fst snd app]. rewrite Hv.
    rewrite bool_decide_eq_true_2 by done.
    cbn [Trace.bind Trace.emit Trace.ret fst snd app]. rewrite <- Ht.
    rewrite (bool_decide_eq_false_2 _ Hne), Hgate.
    rewrite Hl. cbn [Trace.bind]. rewrite finish_eq.
    rewrite bool_decide_eq_true_2 by done. reflexivity.
Qed.

Lemma sparse_text_rejected_witness :
  let svc := Samples2.make_services (Returned ∅) Samples2.sparse_text in
  Records.branch svc (lit "cv.pdf") [] (lit "pdf") (Returned Samples2.sparse_text)
  /\ 50 <= length (strip Samples2.sparse_text)
  /\ length (Helpers.clean_text Samples2.sparse_text) < 20
  /\ App.process_single_resume svc (lit "cv.pdf") []
     = (None, [CallVision (lit "pdf"); Records.text_call (lit "pdf");
               Report (lit "AI could not parse " ++ lit "cv.pdf")]).
Proof.
  intros svc.
  assert (Hb : Records.branch svc (lit "cv.pdf") [] (lit "pdf")
                 (Returned Samples2.sparse_text)).
  { left. repeat split; reflexivity. }
  assert (L1 : length (strip Samples2.sparse_text) = 62)
    by (vm_compute; reflexivity).
  assert (L2 : length (Helpers.clean_text Samples2.sparse_text) = 3)
    by (vm_compute; reflexivity).
  assert (H1 : 50 <= length (strip Samples2.sparse_text)) by (rewrite L1; lia).
  assert (H2 : length (Helpers.clean_text Samples2.sparse_text) < 20)
    by (rewrite L2; lia).
  split; [exact Hb|]. split; [exact H1|]. split; [exact H2|].
  exact (sparse_text_rejected svc (lit "cv.pdf") [] (lit "pdf")
           Samples2.sparse_text Hb eq_refl H1 H2).
Defined.

(** X20: once the vision tier yields nothing and the text is long enough
    both before and after cleaning, a record is always produced, whatever
    the text model does; its identity fields are the generated id, the
    name of the file and the upload date, each trimmed. *)
Theorem sufficient_text_gives_record (svc : App.services) (file_name : str)
    (file_content : VisionExtractor.bytes) (file_type t : str) :
  Records.branch svc file_name file_content file_type (Returned t) ->
  App.extract_with_openai_vision svc file_content file_type = Returned ∅ ->
  50 <= length (strip t) ->
  20 <= length (Helpers.clean_text t) ->
  exists rec,
    result (App.process_single_resume svc file_name file_content) = Some rec
    /\ rec = Validators.validate_resume_data (App.float_repr svc)
               (result (LangchainExtractor.extract_with_langchain (App.model svc)
                          (Helpers.clean_text t))
                ∪ Records.base_fields svc file_name)
    /\ rec !! "resume_id"%string
       = Some (VStr (strip (App.generate_resume_id svc)))
    /\ rec !! "file_name"%string = Some (VStr (strip file_name))
    /\ rec !! "upload_date"%string = Some (VStr (strip (App.now svc))).
Proof.
  intros Hb Hv H50 H20.
  assert (Hne : t <> []) by (by apply (long_strip_nonempty t 49)).
  assert (Hgate : (length (strip t) <? 50) = false) by (apply Nat.ltb_ge; lia).
  assert (Hdom : dom (result (LangchainExtractor.extract_with_langchain
                                (App.model svc) (Helpers.clean_text t)))
                 = list_to_set LangchainExtractor.rule_keys).
  { apply langchain_result_dom.
    - intros E. rewrite E in H20. simpl in H20. lia.
    - by rewrite clean_text_stripped. }
  set (ai := result (LangchainExtractor.extract_with_langchain
                       (App.model svc) (Helpers.clean_text t))) in *.
  assert (Hai : ai <> ∅).
  { intros E. rewrite E, dom_empty_L in Hdom.
    assert (Hin : "name"%string
                  ∈ (list_to_set LangchainExtractor.rule_keys : gset string)).
    { apply elem_of_list_to_set. by left. }
    rewrite <- Hdom in Hin. by apply not_elem_of_empty in Hin. }
  exists (Validators.validate_resume_data (App.float_repr svc)
            (ai ∪ Records.base_fields svc file_name)).
  split; [|split; [reflexivity | by apply rule_shaped_record]].
  rewrite process_result. unfold App.process_body.
  destruct Hb as [(Hext & -> & Ht)|(Hnp & Hext & -> & Ht)].
  - rewrite (bool_decide_eq_true_2 _ Hext).
    rewrite result_bind, result_call_vision, Hv. cbv beta iota.
    rewrite bool_decide_eq_true_2 by done.
    rewrite result_bind, result_call_text_pdf, <- Ht. cbv beta iota.
    rewrite (bool_decide_eq_false_2 _ Hne), Hgate. cbn [orb].
    cbv zeta. rewrite result_bind. fold ai. rewrite finish_eq.
    by rewrite (bool_decide_eq_false_2 _ Hai).
  - rewrite (bool_decide_eq_false_2 _ Hnp), (bool_decide_eq_true_2 _ Hext).
    rewrite result_bind, result_call_vision, Hv. cbv beta iota.
    rewrite bool_decide_eq_true_2 by done.
    rewrite result_bind, result_call_text_docx, <- Ht. cbv beta iota.
    rewrite (bool_decide_eq_false_2 _ Hne), Hgate.
    cbv zeta. rewrite result_bind. fold ai. rewrite finish_eq.
    by rewrite (bool_decide_eq_false_2 _ Hai).
Qed.

Lemma sufficient_text_gives_record_witness :
  let svc := Samples2.make_services (Returned ∅) Samples2.long_text in
  Records.branch svc (lit "cv.docx") [] (lit "docx") (Returned Samples2.long_text)
  /\ 50 <= length (strip Samples2.long_text)
  /\ 20 <= length (Helpers.clean_text Samples2.long_text)
  /\ exists rec,
       result (App.process_single_resume svc (lit "cv.docx") []) = Some rec
       /\ rec = Validators.validate_resume_data (App.float_repr svc)
                  (result (LangchainExtractor.extract_with_langchain (App.model svc)
                             (Helpers.clean_text Samples2.long_text))
                   ∪ Records.base_fields svc (lit "cv.docx"))
       /\ rec !! "resume_id"%string
          = Some (VStr (strip (App.generate_resume_id svc)))
       /\ rec !! "file_name"%string = Some (VStr (strip (lit "cv.docx")))
       /\ rec !! "upload_date"%string = Some (VStr (strip (App.now svc))).
Proof.
  intros svc.
  assert (Hb : Records.branch svc (lit "cv.docx") [] (lit "docx")
                 (Returned Samples2.long_text)).
  { right. split; [discriminate|]. split; [by left|]. split; reflexivity. }
  assert (L1 : length (strip Samples2.long_text) = 60)
    by (vm_compute; reflexivity).
  assert (L2 : length (Helpers.clean_text Samples2.long_text) = 60)
    by (vm_compute; reflexivity).
  assert (H1 : 50 <= length (strip Samples2.long_text)) by (rewrite L1; lia).
  assert (H2 : 20 <= length (Helpers.clean_text Samples2.long_text))
    by (rewrite L2; lia).
  split; [exact Hb|]. split; [exact H1|]. split; [exact H2|].
  exact (sufficient_text_gives_record svc (lit "cv.docx") [] (lit "docx")
           Samples2.long_text Hb eq_refl H1 H2).
Defined.

(** ** The store, beyond the merge of one save *)

Section StoreMore.

Import ExcelHandler Store.

Lemma fmap_is_map {A B : Type} (f : A -> B) (l : list A) :
  f <$> l = map f l.
Proof. induction l as [|a l IH]; [done|]. by rewrite fmap_cons, IH. Qed.

Lemma map_fmap {A B C : Type} (f : A -> B) (h : B -> C) (l : list A) :
  map h (f <$> l) = (fun r => h (f r)) <$> l.
Proof.
  induction l as [|a l IH]; [done|]. rewrite !fmap_cons.
  change (map h (f a :: (f <$> l))) with (h (f a) :: map h (f <$> l)).
  by f_equal.
Qed.

Lemma project_cell (cols : list string) (r : gmap string value) (c : string) :
  c ∈ cols ->
  cell (filter (fun kv : string * value => kv.1 ∈ cols) r) c = cell r c.
Proof.
  intros Hc. unfold cell. destruct (r !! c) as [v|] eqn:E.
  - by rewrite (map_lookup_filter_Some_2 _ _ _ _ E Hc).
  - rewrite map_lookup_filter_None_2; [done | by left].
Qed.

Lemma fill_row_ext (cols : list string) (r r' : gmap string value) :
  (forall c, c ∈ cols -> cell r c = cell r' c) ->
  fill_row cols r = fill_row cols r'.
Proof.
  intros H. unfold fill_row. f_equal.
  induction cols as [|a cols IH]; [done|]. cbn [map]. f_equal.
  - f_equal. f_equal. apply H. by left.
  - apply IH. intros c Hc. apply H. by right.
Qed.

Lemma fill_row_project (cols cols' : list string) (r : gmap string value) :
  (forall c, c ∈ cols -> c ∈ cols') ->
  fill_row cols (filter (fun kv : string * value => kv.1 ∈ cols') r)
  = fill_row cols r.
Proof. intros H. apply fill_row_ext. intros c Hc. apply project_cell. auto. Qed.

Lemma fill_cell_twice (v : value) : fill_cell (fill_cell v) = fill_cell v.
Proof.
  unfold fill_cell at 1. by rewrite fill_cell_not_na.
Qed.

Lemma fill_row_cell (cols : list string) (r : gmap string value) (c : string) :
  c ∈ cols -> cell (fill_row cols r) c = fill_cell (cell r c).
Proof. intros Hc. unfold cell at 1. by rewrite fill_row_lookup. Qed.

Lemma fill_row_twice (cols : list string) (r : gmap string value) :
  fill_row cols (fill_row cols r) = fill_row cols r.
Proof.
  unfold fill_row at 1 3. f_equal.
  assert (H : forall l, (forall c, c ∈ l -> c ∈ cols) ->
            map (fun c => (c, fill_cell (cell (fill_row cols r) c))) l
            = map (fun c => (c, fill_cell (cell r c))) l).
  { induction l as [|a l IH]; intros Hl; [done|]. cbn [map]. f_equal.
    - f_equal. rewrite fill_row_cell by (apply Hl; by left).
      apply fill_cell_twice.
    - apply IH. intros c Hc. apply Hl. by right. }
  by apply H.
Qed.

Lemma fill_row_outside (cols : list string) (r : gmap string value) (c : string) :
  c ∉ cols -> fill_row cols r !! c = None.
Proof.
  intros Hc. unfold fill_row. apply not_elem_of_list_to_map_1.
  rewrite <- list_fmap_compose.
  intros (c' & -> & Hc')%list_elem_of_fmap. by apply Hc.
Qed.

Lemma identity_ext (subset : list string) (r r' : gmap string value) :
  (forall c, c ∈ subset -> cell r c = cell r' c) ->
  identity subset r = identity subset r'.
Proof.
  intros H. unfold identity.
  induction subset as [|a subset IH]; [done|]. cbn [map]. f_equal.
  - f_equal. apply H. by left.
  - apply IH. intros c Hc. apply H. by right.
Qed.

Lemma identity_project (subset cols : list string) (r : gmap string value) :
  (forall c, c ∈ subset -> c ∈ cols) ->
  identity subset (filter (fun kv : string * value => kv.1 ∈ cols) r)
  = identity subset r.
Proof. intros H. apply identity_ext. intros c Hc. apply project_cell. auto. Qed.

Lemma fill_cell_present (v : value) : isna v = false -> fill_cell v = v.
Proof. intros H. unfold fill_cell. by rewrite H. Qed.

Lemma identity_fill (subset cols : list string) (r : gmap string value) :
  (forall c, c ∈ subset -> c ∈ cols) ->
  complete subset r ->
  identity subset (fill_row cols r) = identity subset r.
Proof.
  intros Hs Hc. apply identity_ext. intros c Hin.
  rewrite fill_row_cell by auto. apply fill_cell_present.
  unfold complete in Hc. rewrite Forall_forall in Hc. by apply Hc.
Qed.

Lemma dedup_subset_incl (cols subset : list string) :
  dedup_subset cols = Some subset -> forall c, c ∈ subset -> c ∈ cols.
Proof.
  unfold dedup_subset. case_bool_decide as H1.
  - intros [= <-] c Hc. apply list_elem_of_singleton in Hc. by subst.
  - destruct (forallb _ _) eqn:E; [|done].
    intros [= <-] c Hc. cbn [forallb] in E.
    apply andb_prop in E as [E1 E2]. apply andb_prop in E2 as [E2 _].
    apply bool_decide_eq_true_1 in E1. apply bool_decide_eq_true_1 in E2.
    apply elem_of_cons in Hc as [->|Hc]; [done|].
    apply list_elem_of_singleton in Hc. by subst.
Qed.

Lemma drop_duplicates_last_id (subset : list string)
    (rs : list (gmap string value)) :
  NoDup (identity subset <$> rs) -> drop_duplicates_last subset rs = rs.
Proof.
  induction rs as [|r rest IH]; [done|]. rewrite fmap_cons.
  intros [Hr Hnd]%NoDup_cons. cbn [drop_duplicates_last].
  rewrite bool_decide_eq_false_2; [by rewrite IH|].
  intros (r' & Hin & E)%Exists_exists. apply Hr.
  apply list_elem_of_fmap. by exists r'.
Qed.

Lemma drop_duplicates_last_app (subset : list string)
    (A B : list (gmap string value)) :
  drop_duplicates_last subset (A ++ B)
  = unmatched subset B (drop_duplicates_last subset A)
    ++ drop_duplicates_last subset B.
Proof.
  induction A as [|a A IH]; [done|].
  cbn [app drop_duplicates_last].
  destruct (decide (Exists (fun r' => identity subset r' = identity subset a) A))
    as [HA|HA].
  - rewrite bool_decide_eq_true_2 by (apply Exists_app; by left).
    by rewrite (bool_decide_eq_true_2 _ HA).
  - rewrite (bool_decide_eq_false_2 _ HA).
    destruct (decide (Exists (fun r' => identity subset r' = identity subset a) B))
      as [HB|HB].
    + rewrite bool_decide_eq_true_2 by (apply Exists_app; by right).
      unfold unmatched. cbn [List.filter].
      by rewrite (bool_decide_eq_true_2 _ HB).
    + rewrite bool_decide_eq_false_2
        by (intros [?|?]%Exists_app; contradiction).
      unfold unmatched. cbn [List.filter].
      rewrite (bool_decide_eq_false_2 _ HB). cbn [negb app].
      f_equal. exact IH.
Qed.

Lemma drop_duplicates_last_fmap (subset : list string)
    (f : gmap string value -> gmap string value)
    (rs : list (gmap string value)) :
  Forall (fun r => identity subset (f r) = identity subset r) rs ->
  drop_duplicates_last subset (f <$> rs) = f <$> drop_duplicates_last subset rs.
Proof.
  induction rs as [|r rest IH]; [done|].
  intros [Hr Hrest]%Forall_cons. rewrite fmap_cons.
  cbn [drop_duplicates_last].
  assert (Hiff : Exists (fun r' => identity subset r' = identity subset (f r))
                        (f <$> rest)
                 <-> Exists (fun r' => identity subset r' = identity subset r)
                            rest).
  { rewrite !Exists_exists. split.
    - intros (x & (y & -> & Hy)%list_elem_of_fmap & E). exists y.
      split; [done|]. rewrite Forall_forall in Hrest.
      by rewrite <- (Hrest y Hy), E.
    - intros (y & Hy & E). exists (f y). split.
      + apply list_elem_of_fmap. by exists y.
      + rewrite Forall_forall in Hrest. by rewrite (Hrest y Hy), E, Hr. }
  rewrite (bool_decide_ext _ _ Hiff). case_bool_decide.
  - by apply IH.
  - rewrite fmap_cons. f_equal. by apply IH.
Qed.

Lemma unmatched_all (subset : list string) (B rs : list (gmap string value)) :
  Forall (fun r => ~ Exists (fun r' => identity subset r' = identity subset r) B)
         rs ->
  unmatched subset B rs = rs.
Proof.
  induction rs as [|r rest IH]; [done|].
  intros [Hr Hrest]%Forall_cons. unfold unmatched. cbn [List.filter].
  rewrite (bool_decide_eq_false_2 _ Hr). cbn [negb]. f_equal. by apply IH.
Qed.

Lemma unmatched_none (subset : list string) (B rs : list (gmap string value)) :
  Forall (fun r => Exists (fun r' => identity subset r' = identity subset r) B)
         rs ->
  unmatched subset B rs = [].
Proof.
  induction rs as [|r rest IH]; [done|].
  intros [Hr Hrest]%Forall_cons. unfold unmatched. cbn [List.filter].
  rewrite (bool_decide_eq_true_2 _ Hr). cbn [negb]. by apply IH.
Qed.

Lemma unmatched_app (subset : list string) (B l1 l2 : list (gmap string value)) :
  unmatched subset B (l1 ++ l2)
  = unmatched subset B l1 ++ unmatched subset B l2.
Proof. apply List.filter_app. Qed.

Lemma unmatched_spec (subset : list string) (B rs : list (gmap string value))
    (r : gmap string value) :
  r ∈ unmatched subset B rs ->
  r ∈ rs /\ ~ Exists (fun r' => identity subset r' = identity subset r) B.
Proof.
  unfold unmatched. rewrite list_elem_of_In, filter_In, <- list_elem_of_In.
  intros [Hin Hb]. split; [done|].
  apply negb_true_iff in Hb. by apply bool_decide_eq_false_1 in Hb.
Qed.

Lemma fromkeys_absorb (l m : list string) :
  NoDup l -> (forall c, c ∈ m -> c ∈ l) -> fromkeys [] (l ++ m) = l.
Proof.
  intros Hnd Hm. destruct (fromkeys_app l m []) as (seen' & -> & Hs).
  rewrite fromkeys_fresh; [|done|by intros c _ ?%elem_of_nil].
  rewrite fromkeys_seen; [by rewrite app_nil_r|].
  intros c Hc. apply Hs. right. by apply Hm.
Qed.


End StoreMore.

Section SaveReturns.

Import ExcelHandler.

(** What [save_to_excel] returns, and when it raises. *)
Lemma save_to_excel_eq (io : pandas) (fs : filesystem) (df : DataFrame)
    (out_path : option string) (selected_columns : option (list string))
    (merge : bool) :
  let path := default default_path out_path in
  let written := frame_written io fs df out_path selected_columns merge in
  save_to_excel io fs df out_path selected_columns merge
  = if mkdir_raises io fs || to_excel_raises io (mkdir_output fs) path written
    then Raised
    else Returned ({| dirs := {[ "output"%string ]} ∪ dirs fs;
                      files := <[path := Workbook written]> (files fs) |},
                   path).
Proof.
  intros path written. unfold save_to_excel, to_excel. fold path. fold written.
  destruct (mkdir_raises io fs); [reflexivity|]. cbn [orb].
  by destruct (to_excel_raises io (mkdir_output fs) path written).
Qed.

Lemma save_to_excel_returned (io : pandas) (fs : filesystem) (df : DataFrame)
    (out_path : option string) (selected_columns : option (list string))
    (merge : bool) (after : filesystem * string) :
  save_to_excel io fs df out_path selected_columns merge = Returned after ->
  after
  = ({| dirs := {[ "output"%string ]} ∪ dirs fs;
        files := <[default default_path out_path
                   := Workbook (frame_written io fs df out_path
                                  selected_columns merge)]> (files fs) |},
     default default_path out_path).
Proof.
  rewrite save_to_excel_eq. cbv zeta.
  destruct (_ || _); [discriminate|]. by intros [= <-].
Qed.


(** The frame that a merge hands to [to_excel] once the path holds the
    workbook of [written] and that workbook reads as [existing]. *)
Lemma frame_written_again (io : pandas) (fs : filesystem) (df : DataFrame)
    (out_path : option string) (selected_columns : option (list string))
    (written existing : DataFrame) :
  files fs !! default default_path out_path = Some (Workbook written) ->
  read_excel io written = Returned existing ->
  frame_written io fs df out_path selected_columns true
  = merge_frames existing (frame_to_save df selected_columns).
Proof.
  intros Hf Hr. unfold frame_written, load_existing. by rewrite Hf, Hr.
Qed.

End SaveReturns.


(** X22: in overwrite mode the frame handed to [to_excel], which is the
    workbook the file holds once the save has returned, does not depend
    on what the store held, on the path or on pandas: it has one row for
    every row of the frame given, in the same order, with under a column
    that is saved the cell of the frame, or [Not Found] where it is
    missing, and nothing under any other label.  The columns saved are
    those of [selected_columns] that the frame has, in the order of
    [selected_columns], or all the columns of the frame when none is
    selected.  (How the workbook reads back is left to [read_excel].) *)
Theorem overwrite_writes_frame (io : ExcelHandler.pandas)
    (fs : ExcelHandler.filesystem)
    (df : ExcelHandler.DataFrame) (out_path : option string)
    (selected_columns : option (list string)) :
  let cols :=
    match selected_columns with
    | Some (c :: cs) =>
        List.filter (fun c => bool_decide (c ∈ ExcelHandler.columns df)) (c :: cs)
    | _ => ExcelHandler.columns df
    end in
  let written :=
    ExcelHandler.frame_written io fs df out_path selected_columns false in
  ExcelHandler.columns written = cols
  /\ length (ExcelHandler.rows written) = length (ExcelHandler.rows df)
  /\ (forall i r, ExcelHandler.rows df !! i = Some r ->
        exists r', ExcelHandler.rows written !! i = Some r'
          /\ (forall c, c ∈ cols ->
                r' !! c = Some (if ExcelHandler.isna (ExcelHandler.cell r c)
                                then VStr NOT_FOUND
                                else ExcelHandler.cell r c))
          /\ (forall c, c ∉ cols -> r' !! c = None))
  /\ (forall io' fs' out_path',
        ExcelHandler.frame_written io' fs' df out_path' selected_columns false
        = written)
  /\ (forall after,
        ExcelHandler.save_to_excel io fs df out_path selected_columns false
        = Returned after ->
        ExcelHandler.files after.1 !! default ExcelHandler.default_path out_path
        = Some (ExcelHandler.Workbook written)).
Proof.
  intros cols written.
  assert (Hw : written
               = ExcelHandler.fillna
                   (ExcelHandler.frame_to_save df selected_columns))
    by reflexivity.
  assert (Hcols : ExcelHandler.columns
                    (ExcelHandler.frame_to_save df selected_columns) = cols).
  { unfold ExcelHandler.frame_to_save, cols.
    by destruct selected_columns as [[|c cs]|]. }
  assert (Hrows : ExcelHandler.rows written
                  = ExcelHandler.fill_row cols <$> ExcelHandler.rows df).
  { rewrite Hw. unfold ExcelHandler.fillna. cbn [ExcelHandler.rows].
    rewrite Hcols. unfold ExcelHandler.frame_to_save.
    destruct selected_columns as [[|c cs]|]; try reflexivity.
    unfold ExcelHandler.reindex. cbn [ExcelHandler.rows].
    rewrite <- list_fmap_compose. apply list_fmap_ext. intros i r _.
    cbn [compose]. by apply fill_row_project. }
  split; [by rewrite Hw|]. rewrite Hrows.
  split; [by rewrite length_fmap|].
  split.
  { intros i r Hr. exists (ExcelHandler.fill_row cols r).
    split; [by rewrite list_lookup_fmap, Hr|].
    split.
    - intros c Hc. by rewrite fill_row_lookup.
    - intros c Hc. by apply fill_row_outside. }
  split; [reflexivity|].
  intros after Hsave. apply save_to_excel_returned in Hsave. subst after.
  cbn [fst ExcelHandler.files]. by rewrite lookup_insert_eq.
Qed.

(** X23: merging into a path that holds no readable workbook is the
    same as overwriting it, provided the columns of the frame are
    distinct and no two of its rows share their identity. *)
Theorem merge_into_fresh_store (io : ExcelHandler.pandas)
    (fs : ExcelHandler.filesystem)
    (df : ExcelHandler.DataFrame) (out_path : option string)
    (selected_columns : option (list string)) :
  let path := default ExcelHandler.default_path out_path in
  let new := ExcelHandler.frame_to_save df selected_columns in
  Store.fresh io fs path ->
  NoDup (ExcelHandler.columns new) ->
  (forall subset,
     ExcelHandler.dedup_subset (ExcelHandler.columns new) = Some subset ->
     NoDup (ExcelHandler.identity subset <$> ExcelHandler.rows new)) ->
  ExcelHandler.save_to_excel io fs df out_path selected_columns true
  = ExcelHandler.save_to_excel io fs df out_path selected_columns false.
Proof.
  intros path new Hfresh Hnd Hids.
  assert (Hw : ExcelHandler.frame_written io fs df out_path selected_columns true
               = ExcelHandler.frame_written io fs df out_path selected_columns
                   false);
    [|unfold ExcelHandler.save_to_excel; by rewrite Hw].
  unfold ExcelHandler.frame_written. fold path. fold new.
  assert (He : ExcelHandler.load_existing io fs path
               = ExcelHandler.empty_frame).
  { unfold ExcelHandler.load_existing.
    destruct Hfresh as [-> | [-> | (df0 & -> & ->)]]; reflexivity. }
  rewrite He, merge_frames_eq.
  cbn [ExcelHandler.columns ExcelHandler.empty_frame app].
  rewrite fromkeys_fresh; [|done|by intros c _ ?%elem_of_nil].
  unfold ExcelHandler.fillna. f_equal.
  unfold ExcelHandler.reindex. cbn [ExcelHandler.rows].
  change (ExcelHandler.rows ExcelHandler.empty_frame)
    with (@nil (gmap string value)).
  cbn [map app].
  match goal with
  | |- context [ExcelHandler.kept_rows ?s ?l] =>
      assert (Hk : ExcelHandler.kept_rows s l = l)
  end.
  { unfold ExcelHandler.kept_rows.
    destruct (ExcelHandler.dedup_subset (ExcelHandler.columns new))
      as [subset|] eqn:E; [|done].
    apply drop_duplicates_last_id.
    rewrite fmap_is_map, map_map.
    erewrite map_ext; [rewrite <- fmap_is_map; exact (Hids subset eq_refl)|].
    intros r. cbv beta. apply identity_project.
    by apply dedup_subset_incl. }
  rewrite Hk, !fmap_is_map, map_map. apply map_ext. intros r.
  by apply fill_row_project.
Qed.

Lemma merge_into_fresh_store_witness :
  Store.fresh Samples.word_io Store.broken_store ExcelHandler.default_path
  /\ NoDup (ExcelHandler.columns
              (ExcelHandler.frame_to_save Store.two_resumes
                 (Some ["name"; "resume_id"; "phone"]%string)))
  /\ ExcelHandler.save_to_excel Samples.word_io Store.broken_store
       Store.two_resumes None (Some ["name"; "resume_id"; "phone"]%string) true
     = ExcelHandler.save_to_excel Samples.word_io Store.broken_store
         Store.two_resumes None (Some ["name"; "resume_id"; "phone"]%string) false.
Proof.
  assert (Hf : Store.fresh Samples.word_io Store.broken_store
                 ExcelHandler.default_path).
  { right. left. reflexivity. }
  assert (Hnd : NoDup (ExcelHandler.columns
                         (ExcelHandler.frame_to_save Store.two_resumes
                            (Some ["name"; "resume_id"; "phone"]%string)))).
  { apply (bool_decide_eq_true_1 _). vm_compute. reflexivity. }
  split; [exact Hf|]. split; [exact Hnd|].
  apply (merge_into_fresh_store Samples.word_io Store.broken_store
           Store.two_resumes None
           (Some ["name"; "resume_id"; "phone"]%string) Hf Hnd).
  intros subset E.
  assert (subset = ["resume_id"%string]) as ->
    by (symmetry; vm_compute in E; by injection E).
  apply (bool_decide_eq_true_1 _). vm_compute. reflexivity.
Defined.

Section MergeAgain.

Import ExcelHandler Store.

Variables (existing new : DataFrame) (cols : list string).

Hypothesis Hcols : cols = fromkeys [] (columns existing ++ columns new).

Lemma merge_columns_again :
  fromkeys [] (columns (merge_frames existing new) ++ columns new) = cols.
Proof.
  rewrite merge_frames_eq. cbn [columns]. rewrite <- Hcols.
  apply fromkeys_absorb; [rewrite Hcols; apply fromkeys_NoDup|].
  intros c Hc. rewrite Hcols. apply fromkeys_elem. split.
  - apply elem_of_app. by right.
  - by intros ?%elem_of_nil.
Qed.

(** The rows of the second merge before the de-duplication: the rows
    saved by the first one, then the new rows once more. *)
Lemma merge_again_eq :
  merge_frames (merge_frames existing new) new
  = {| columns := cols;
       rows := fill_row cols <$>
                 kept_rows (dedup_subset cols)
                   (map (project cols)
                      (fill_row cols <$>
                         kept_rows (dedup_subset cols)
                           (map (project cols) (rows existing) ++ map (project cols) (rows new)))
                    ++ map (project cols) (rows new)) |}.
Proof.
  rewrite (merge_frames_eq (merge_frames existing new) new).
  cbv zeta. rewrite merge_columns_again.
  rewrite (merge_frames_eq existing new). rewrite <- Hcols. reflexivity.
Qed.

Lemma refill (r : gmap string value) :
  fill_row cols (project cols (fill_row cols r)) = fill_row cols r.
Proof.
  unfold project. rewrite fill_row_project by auto. apply fill_row_twice.
Qed.

End MergeAgain.

Section MergeTwice.

Import ExcelHandler Store.

(** Merging [new] into the merge of [existing] and [new], as frames. *)
Lemma merge_again_with_identity (existing new : ExcelHandler.DataFrame)
    (subset : list string) :
  ExcelHandler.dedup_subset
    (ExcelHandler.fromkeys []
       (ExcelHandler.columns existing ++ ExcelHandler.columns new))
  = Some subset ->
  Forall (Store.complete subset)
         (ExcelHandler.rows existing ++ ExcelHandler.rows new) ->
  ExcelHandler.merge_frames (ExcelHandler.merge_frames existing new) new
  = ExcelHandler.merge_frames existing new.
Proof.
  intros Hsub Hcomplete.
  set (cols := fromkeys [] (columns existing ++ columns new)) in *.
  rewrite (merge_again_eq existing new cols eq_refl),
    (merge_frames_eq existing new).
  fold cols.
  f_equal. rewrite Hsub. unfold kept_rows.
  pose proof (dedup_subset_incl _ _ Hsub) as Hincl.
  set (A := map (project cols) (rows existing)).
  set (B := map (project cols) (rows new)).
  set (g := fun r => project cols (fill_row cols r)).
  assert (HAB : Forall (complete subset) (A ++ B)).
  { unfold A, B. rewrite <- map_app, <- fmap_is_map.
    apply Forall_fmap. eapply Forall_impl; [exact Hcomplete|].
    intros r Hr. unfold compose, complete in *.
    rewrite Forall_forall in Hr. apply Forall_forall. intros c Hc.
    unfold project. rewrite project_cell by auto. by apply Hr. }
  assert (Hg : forall r, complete subset r ->
                 identity subset (g r) = identity subset r).
  { intros r Hr. unfold g, project. rewrite identity_project by auto.
    by apply identity_fill. }
  change (rows (reindex cols existing)) with A.
  change (rows (reindex cols new)) with B.
  set (K := drop_duplicates_last subset (A ++ B)).
  assert (HK : Forall (complete subset) K).
  { apply Forall_forall. intros r Hr. rewrite Forall_forall in HAB.
    apply HAB. by apply (drop_duplicates_last_elem subset). }
  assert (HgK : Forall (fun r => identity subset (g r) = identity subset r) K).
  { eapply Forall_impl; [exact HK|]. exact Hg. }
  assert (Hmap : map (project cols) (fill_row cols <$> K) = g <$> K)
    by exact (map_fmap (fill_row cols) (project cols) K).
  rewrite Hmap, drop_duplicates_last_app.
  rewrite (drop_duplicates_last_fmap subset g K HgK).
  rewrite (drop_duplicates_last_id subset K)
    by (apply drop_duplicates_last_NoDup).
  set (A' := unmatched subset B (drop_duplicates_last subset A)).
  set (B' := drop_duplicates_last subset B).
  assert (HKeq : K = A' ++ B') by apply drop_duplicates_last_app.
  assert (HA' : Forall (fun r => complete subset r
                  /\ ~ Exists (fun r' => identity subset r' = identity subset r) B)
                  A').
  { apply Forall_forall. intros r Hr. apply unmatched_spec in Hr as [Hin Hn].
    split; [|done]. rewrite Forall_forall in HAB. apply HAB.
    apply elem_of_app. left. by apply (drop_duplicates_last_elem subset). }
  assert (HB' : Forall (fun r => complete subset r
                  /\ Exists (fun r' => identity subset r' = identity subset r) B)
                  B').
  { apply Forall_forall. intros r Hr.
    apply (drop_duplicates_last_elem subset) in Hr. split.
    - rewrite Forall_forall in HAB. apply HAB. apply elem_of_app. by right.
    - apply Exists_exists. by exists r. }
  rewrite HKeq, (fmap_app g), unmatched_app.
  rewrite (unmatched_all subset B (g <$> A')).
  2:{ apply Forall_fmap. eapply Forall_impl; [exact HA'|].
      intros r [Hc Hn]. unfold compose. intros Hex. apply Hn.
      eapply Exists_impl; [exact Hex|]. intros r' E. cbv beta in E.
      by rewrite E, Hg. }
  rewrite (unmatched_none subset B (g <$> B')).
  2:{ apply Forall_fmap. eapply Forall_impl; [exact HB'|].
      intros r [Hc Hex]. unfold compose.
      eapply Exists_impl; [exact Hex|]. intros r' E. cbv beta in E.
      by rewrite E, Hg. }
  rewrite app_nil_r, !fmap_app. f_equal.
  rewrite <- list_fmap_compose. apply list_fmap_ext. intros i r _.
  unfold compose, g. apply refill.
Qed.


Lemma merge_again_without_identity (existing new : ExcelHandler.DataFrame) :
  let cols :=
    ExcelHandler.fromkeys []
      (ExcelHandler.columns existing ++ ExcelHandler.columns new) in
  ExcelHandler.dedup_subset cols = None ->
  ExcelHandler.rows
    (ExcelHandler.merge_frames (ExcelHandler.merge_frames existing new) new)
  = ExcelHandler.rows (ExcelHandler.merge_frames existing new)
    ++ ExcelHandler.rows
         (ExcelHandler.fillna (ExcelHandler.reindex cols new)).
Proof.
  intros cols Hsub.
  rewrite (merge_again_eq existing new cols eq_refl),
    (merge_frames_eq existing new).
  fold cols.
  cbn [rows]. rewrite Hsub. unfold kept_rows.
  change (rows (reindex cols existing)) with (map (project cols) (rows existing)).
  change (rows (reindex cols new)) with (map (project cols) (rows new)).
  set (AB := map (project cols) (rows existing) ++ map (project cols) (rows new)).
  rewrite (fmap_app (fill_row cols) (map (project cols) (fill_row cols <$> AB))).
  f_equal.
  rewrite (map_fmap (fill_row cols) (project cols)), <- list_fmap_compose.
  apply list_fmap_ext. intros i r _. unfold compose. apply refill.
Qed.


Lemma again_is_after (fs : filesystem) (path : string) (written : DataFrame) :
  let after :=
    {| dirs := {[ "output"%string ]} ∪ dirs fs;
       files := <[path := Workbook written]> (files fs) |} in
  {| dirs := {[ "output"%string ]} ∪ dirs after;
     files := <[path := Workbook written]> (files after) |} = after.
Proof.
  intros after. unfold after. cbn [dirs files]. f_equal.
  - by rewrite (assoc_L (∪)), union_idemp_L.
  - by rewrite insert_insert_eq.
Qed.

End MergeTwice.

(** X24: saving the same frame a second time in merge mode changes
    nothing, under three conditions: the rows have an identity
    ([resume_id], or [file_name] with [upload_date]); no row, persisted
    or new, misses a cell of it; and the workbook of the first save reads
    back as the frame it was written from, which [read_excel] does not do
    for every frame.  Then the second save hands the same frame to
    [to_excel], and when it returns the store is the one the first save
    left. *)
Theorem merge_twice_is_merge_once (io : ExcelHandler.pandas)
    (fs : ExcelHandler.filesystem) (df : ExcelHandler.DataFrame)
    (out_path : option string) (selected_columns : option (list string))
    (subset : list string) (after : ExcelHandler.filesystem * string) :
  let path := default ExcelHandler.default_path out_path in
  let existing := ExcelHandler.load_existing io fs path in
  let new := ExcelHandler.frame_to_save df selected_columns in
  let written :=
    ExcelHandler.frame_written io fs df out_path selected_columns true in
  ExcelHandler.dedup_subset
    (ExcelHandler.fromkeys []
       (ExcelHandler.columns existing ++ ExcelHandler.columns new))
  = Some subset ->
  Forall (Store.complete subset)
         (ExcelHandler.rows existing ++ ExcelHandler.rows new) ->
  ExcelHandler.save_to_excel io fs df out_path selected_columns true
  = Returned after ->
  ExcelHandler.read_excel io written = Returned written ->
  ExcelHandler.frame_written io after.1 df out_path selected_columns true
  = written
  /\ (forall again,
        ExcelHandler.save_to_excel io after.1 df out_path selected_columns true
        = Returned again ->
        again = after).
Proof.
  intros path existing new written Hsub Hcomplete Hsave Hread.
  apply save_to_excel_returned in Hsave. fold path in Hsave.
  fold written in Hsave.
  assert (Hfile : ExcelHandler.files after.1 !! path
                  = Some (ExcelHandler.Workbook written)).
  { subst after. cbn [fst ExcelHandler.files]. by rewrite lookup_insert_eq. }
  assert (Hw : ExcelHandler.frame_written io after.1 df out_path
                 selected_columns true = written).
  { rewrite (frame_written_again io after.1 df out_path selected_columns
               written written Hfile Hread).
    fold new. unfold written, ExcelHandler.frame_written.
    fold path. fold existing. fold new.
    by apply (merge_again_with_identity existing new subset). }
  split; [exact Hw|].
  intros again Hagain. apply save_to_excel_returned in Hagain.
  rewrite Hw in Hagain. fold path in Hagain. subst again after.
  cbn [fst]. f_equal. apply again_is_after.
Qed.

Lemma merge_twice_is_merge_once_witness :
  let io := Store.sample_io in
  let written :=
    ExcelHandler.frame_written io Samples.old_store Store.two_resumes None None
      true in
  exists after,
    Forall (Store.complete ["resume_id"%string])
           (ExcelHandler.rows
              (ExcelHandler.load_existing io Samples.old_store
                 ExcelHandler.default_path)
            ++ ExcelHandler.rows Store.two_resumes)
    /\ ExcelHandler.save_to_excel io Samples.old_store Store.two_resumes
         None None true = Returned after
    /\ ExcelHandler.read_excel io written = Returned written
    /\ ExcelHandler.frame_written io after.1 Store.two_resumes None None true
       = written
    /\ (forall again,
          ExcelHandler.save_to_excel io after.1 Store.two_resumes None None true
          = Returned again ->
          again = after).
Proof.
  intros io written.
  destruct (ExcelHandler.save_to_excel io Samples.old_store Store.two_resumes
              None None true) as [after|] eqn:Hsave;
    [|exfalso; vm_compute in Hsave; discriminate].
  exists after.
  assert (H : Forall (Store.complete ["resume_id"%string])
                     (ExcelHandler.rows
                        (ExcelHandler.load_existing io Samples.old_store
                           ExcelHandler.default_path)
                      ++ ExcelHandler.rows Store.two_resumes)).
  { assert (E : ExcelHandler.load_existing io Samples.old_store
                  ExcelHandler.default_path = Samples.old_frame)
      by (vm_compute; reflexivity).
    rewrite E. repeat constructor. }
  assert (Hread : ExcelHandler.read_excel io written = Returned written)
    by (vm_compute; reflexivity).
  split; [exact H|]. split; [reflexivity|]. split; [exact Hread|].
  refine (merge_twice_is_merge_once io Samples.old_store Store.two_resumes
            None None ["resume_id"%string] after _ H Hsave Hread).
  vm_compute. reflexivity.
Defined.

(** X25: without an identity (no [resume_id] column and not both of
    [file_name] and [upload_date]) nothing is recognised as already
    stored: when the workbook of the first save reads back as the frame
    it was written from, a second save of the same frame hands to
    [to_excel] the rows of the first save followed by the rows of the
    frame once more. *)
Theorem merge_twice_without_identity (io : ExcelHandler.pandas)
    (fs : ExcelHandler.filesystem) (df : ExcelHandler.DataFrame)
    (out_path : option string) (selected_columns : option (list string))
    (after : ExcelHandler.filesystem * string) :
  let path := default ExcelHandler.default_path out_path in
  let existing := ExcelHandler.load_existing io fs path in
  let new := ExcelHandler.frame_to_save df selected_columns in
  let cols :=
    ExcelHandler.fromkeys []
      (ExcelHandler.columns existing ++ ExcelHandler.columns new) in
  let written :=
    ExcelHandler.frame_written io fs df out_path selected_columns true in
  ExcelHandler.dedup_subset cols = None ->
  ExcelHandler.save_to_excel io fs df out_path selected_columns true
  = Returned after ->
  ExcelHandler.read_excel io written = Returned written ->
  ExcelHandler.rows
    (ExcelHandler.frame_written io after.1 df out_path selected_columns true)
  = ExcelHandler.rows written
    ++ ExcelHandler.rows
         (ExcelHandler.fillna (ExcelHandler.reindex cols new)).
Proof.
  intros path existing new cols written Hsub Hsave Hread.
  apply save_to_excel_returned in Hsave. fold path in Hsave.
  fold written in Hsave.
  assert (Hfile : ExcelHandler.files after.1 !! path
                  = Some (ExcelHandler.Workbook written)).
  { subst after. cbn [fst ExcelHandler.files]. by rewrite lookup_insert_eq. }
  rewrite (frame_written_again io after.1 df out_path selected_columns
             written written Hfile Hread).
  fold new. unfold written, ExcelHandler.frame_written.
  fold path. fold existing. fold new.
  by apply (merge_again_without_identity existing new).
Qed.

Lemma merge_twice_without_identity_witness :
  let io := Store.names_io in
  let fs := Store.names_store in
  let written :=
    ExcelHandler.frame_written io fs Samples.names_frame None None true in
  exists after,
    ExcelHandler.save_to_excel io fs Samples.names_frame None None true
    = Returned after
    /\ ExcelHandler.read_excel io written = Returned written
    /\ ExcelHandler.rows
         (ExcelHandler.frame_written io after.1 Samples.names_frame None None
            true)
       = ExcelHandler.rows written
         ++ ExcelHandler.rows
              (ExcelHandler.fillna
                 (ExcelHandler.reindex
                    (ExcelHandler.fromkeys []
                       (ExcelHandler.columns
                          (ExcelHandler.load_existing io fs
                             ExcelHandler.default_path)
                        ++ ExcelHandler.columns Samples.names_frame))
                    Samples.names_frame)).
Proof.
  intros io fs written.
  destruct (ExcelHandler.save_to_excel io fs Samples.names_frame None None true)
    as [after|] eqn:Hsave;
    [|exfalso; vm_compute in Hsave; discriminate].
  exists after.
  assert (Hread : ExcelHandler.read_excel io written = Returned written)
    by (vm_compute; reflexivity).
  split; [reflexivity|]. split; [exact Hread|].
  refine (merge_twice_without_identity io fs Samples.names_frame None None
            after _ Hsave Hread).
  vm_compute. reflexivity.
Defined.

(** ** The vision tier *)

Section Trim.

Variable p : ascii -> bool.

Lemma drop_while_all (w s : str) :
  Forall (fun c => p c = true) w -> drop_while p (w ++ s) = drop_while p s.
Proof.
  induction w as [|c w IH]; [done|].
  intros [Hc Hw]%Forall_cons. cbn [app drop_while]. rewrite Hc. by apply IH.
Qed.

Lemma trim_between (w1 b w2 : str) :
  Forall (fun c => p c = true) w1 ->
  Forall (fun c => p c = true) w2 ->
  b <> [] ->
  (forall c, head b = Some c -> p c = false) ->
  (forall c, last b = Some c -> p c = false) ->
  Vision.trim p (w1 ++ b ++ w2) = b.
Proof.
  intros H1 H2 Hb Hhead Hlast. unfold Vision.trim.
  rewrite !rev_app_distr, <- app_assoc.
  rewrite drop_while_all by (by apply Forall_rev).
  revert Hb Hhead Hlast. induction b as [|x b' _] using rev_ind; [done|].
  intros _ Hhead Hlast.
  rewrite rev_app_distr. cbn [rev app].
  assert (Hx : p x = false) by (apply Hlast; by rewrite last_snoc).
  cbn [drop_while]. rewrite Hx.
  change (x :: rev b' ++ rev w1) with (rev [x] ++ rev b' ++ rev w1).
  rewrite app_assoc, <- !rev_app_distr, rev_involutive.
  rewrite drop_while_all by done.
  by apply drop_while_id.
Qed.

End Trim.

Lemma strip_is_trim (s : str) : strip s = Vision.trim isspace s.
Proof. reflexivity. Qed.

Lemma last_of_spaces (q : ascii -> bool) (b w : str) :
  b <> [] ->
  (forall c, last b = Some c -> q c = false) ->
  Forall (fun c => q c = false) w ->
  forall c, last (b ++ w) = Some c -> q c = false.
Proof.
  intros Hb Hlast Hw c. rewrite last_app.
  destruct (last w) as [y|] eqn:E.
  - intros [= <-]. apply last_Some in E as [w' ->].
    rewrite Forall_app, Forall_singleton in Hw. by destruct Hw.
  - apply Hlast.
Qed.

Lemma space_not_backtick (w : str) :
  Forall (fun c => isspace c = true) w ->
  Forall (fun c => Vision.is_backtick c = false) w.
Proof.
  intros H. eapply Forall_impl; [exact H|].
  intros c Hc. unfold Vision.is_backtick.
  destruct (Ascii.eqb c "`") eqn:E; [|done].
  apply Ascii.eqb_eq in E. subst c. vm_compute in Hc. discriminate.
Qed.

Lemma fenced_parts (w1 w2 body w3 w4 : str) :
  Vision.fenced w1 w2 body w3 w4
  = w1 ++ (lit "```" ++ (lit "json" ++ w2 ++ body ++ w3) ++ lit "```") ++ w4.
Proof.
  unfold Vision.fenced.
  change (lit "```json") with (lit "```" ++ lit "json").
  by rewrite <- !app_assoc.
Qed.

(** A reply in a tagged fence comes out of it as its body. *)
Lemma unfence_fenced (w1 w2 body w3 w4 : str) :
  Forall (fun c => isspace c = true) w1 ->
  Forall (fun c => isspace c = true) w2 ->
  Forall (fun c => isspace c = true) w3 ->
  Forall (fun c => isspace c = true) w4 ->
  body <> [] ->
  strip body = body ->
  last body <> Some "`"%char ->
  Vision.unfence (strip (Vision.fenced w1 w2 body w3 w4)) = body.
Proof.
  intros H1 H2 H3 H4 Hb Hs Ht.
  assert (Hhead : forall c, head body = Some c -> isspace c = false).
  { intros c Hc. rewrite <- Hs in Hc. by apply strip_head in Hc. }
  assert (Hlast : forall c, last body = Some c -> isspace c = false).
  { intros c Hc. rewrite <- Hs in Hc. by apply strip_last in Hc. }
  set (M := lit "json" ++ w2 ++ body ++ w3).
  set (X := lit "```" ++ M ++ lit "```").
  assert (HX : strip (Vision.fenced w1 w2 body w3 w4) = X).
  { rewrite fenced_parts, strip_is_trim. fold M. fold X.
    apply trim_between; [done|done|done| |].
    - intros c [= <-]. reflexivity.
    - intros c. unfold X. rewrite app_assoc, last_app. cbn [last lit].
      intros [= <-]. reflexivity. }
  rewrite HX. unfold Vision.unfence.
  assert (Hstart : starts_with (lit "```") X = true) by reflexivity.
  rewrite Hstart.
  assert (HM : Vision.trim Vision.is_backtick X = M).
  { unfold X. apply trim_between.
    - repeat constructor.
    - repeat constructor.
    - done.
    - intros c [= <-]. reflexivity.
    - assert (HMeq : M = (lit "json" ++ w2) ++ (body ++ w3))
        by (unfold M; by rewrite <- !app_assoc).
      rewrite HMeq. intros c. rewrite last_app.
      destruct (last (body ++ w3)) as [y|] eqn:E.
      + intros [= <-].
        apply (last_of_spaces Vision.is_backtick body w3); [done| | |exact E].
        * intros c Hc. unfold Vision.is_backtick.
          destruct (Ascii.eqb c "`") eqn:E'; [|done].
          apply Ascii.eqb_eq in E'. subst c. contradiction.
        * by apply space_not_backtick.
      + apply last_None in E. apply app_eq_nil in E as [E _]. contradiction. }
  rewrite HM. unfold M.
  assert (Hrm : Vision.remove_first (lit "json") (lit "json" ++ w2 ++ body ++ w3)
                = w2 ++ body ++ w3) by reflexivity.
  rewrite Hrm, strip_is_trim. by apply trim_between.
Qed.

Section VisionCall.

Context {document image : Type}.

Variable env : Vision.environment document image.

(** Once the request is sent, the function is the request followed by the
    reading of its reply. *)
Lemma vision_after_request (file_bytes : VisionExtractor.bytes)
    (file_type : str) (urls : list str) :
  Vision.reaches_api env file_bytes file_type urls ->
  Vision.extract_with_openai_vision env file_bytes file_type
  = match Vision.reply env urls with
    | Raised => Raised
    | Returned content =>
        match Vision.json_loads env
                (Vision.unfence (strip (default [] content))) with
        | Returned (Vision.JDict data) => Returned data
        | _ => Returned ∅
        end
    end.
Proof.
  intros (Hb & Ho & (api_key & Hk & Hne & Hc) & Hi & Hu).
  unfold Vision.extract_with_openai_vision.
  rewrite (bool_decide_eq_false_2 _ Hb), Ho, Hk.
  rewrite (bool_decide_eq_false_2 _ Hne), Hc. cbn [negb].
  destruct (Vision.images_of env file_bytes file_type) as [|img images] eqn:E;
    [done|].
  rewrite Hu. destruct (Vision.reply env urls) as [content|]; [|done].
  by destruct (Vision.json_loads env _) as [[data|]|].
Qed.

End VisionCall.

(** X26: a reply whose text is a [```json] fence around a body, with any
    white space around the fence and inside it, is read as the body
    alone: the result is the dict that [json.loads] makes of the body, or
    the empty dict when it makes none.  The body is trimmed, not empty,
    and does not end in a backtick. *)
Theorem vision_fenced_reply {document image : Type}
    (env : Vision.environment document image)
    (file_bytes : VisionExtractor.bytes) (file_type : str) (urls : list str)
    (w1 w2 body w3 w4 : str) :
  Vision.reaches_api env file_bytes file_type urls ->
  Vision.reply env urls = Returned (Some (Vision.fenced w1 w2 body w3 w4)) ->
  Forall (fun c => isspace c = true) (w1 ++ w2 ++ w3 ++ w4) ->
  body <> [] ->
  strip body = body ->
  last body <> Some "`"%char ->
  Vision.extract_with_openai_vision env file_bytes file_type
  = match Vision.json_loads env body with
    | Returned (Vision.JDict data) => Returned data
    | _ => Returned ∅
    end.
Proof.
  intros Hreach Hreply Hw Hb Hs Ht.
  apply Forall_app in Hw as [H1 Hw]. apply Forall_app in Hw as [H2 Hw].
  apply Forall_app in Hw as [H3 H4].
  rewrite (vision_after_request env _ _ _ Hreach), Hreply.
  cbn [default from_option id].
  by rewrite unfence_fenced.
Qed.

Lemma vision_fenced_reply_witness :
  let env := Vision.sample_env (Returned (Some Vision.ann_reply)) in
  let urls := [lit "data:image/png;base64,AA=="] in
  Vision.reaches_api env Vision.pdf_bytes (lit "pdf") urls
  /\ Vision.extract_with_openai_vision env Vision.pdf_bytes (lit "pdf")
     = match Vision.json_loads env Vision.ann_json with
       | Returned (Vision.JDict data) => Returned data
       | _ => Returned ∅
       end.
Proof.
  intros env urls.
  assert (Hreach : Vision.reaches_api env Vision.pdf_bytes (lit "pdf") urls).
  { split; [discriminate|]. split; [reflexivity|].
    split; [exists (lit "sk-test"); by repeat split|].
    split; [|reflexivity].
    assert (E : Vision.images_of env Vision.pdf_bytes (lit "pdf") = [0])
      by (vm_compute; reflexivity).
    rewrite E. discriminate. }
  split; [exact Hreach|].
  apply (vision_fenced_reply env Vision.pdf_bytes (lit "pdf") urls
           [] ["010"%char] Vision.ann_json ["010"%char] [] Hreach eq_refl).
  - repeat constructor.
  - discriminate.
  - vm_compute. reflexivity.
  - vm_compute. discriminate.
Defined.

(** X27: data that the vision tier returns comes from nowhere but the
    reply: a non-empty result means that the file was not empty, the
    client, the key and at least one image were there, the request
    returned, and the result is the dict that [json.loads] made of the
    reply's text, trimmed and taken out of its fence. *)
Theorem vision_data_from_reply {document image : Type}
    (env : Vision.environment document image)
    (file_bytes : VisionExtractor.bytes) (file_type : str)
    (data : gmap string value) :
  Vision.extract_with_openai_vision env file_bytes file_type = Returned data ->
  data <> ∅ ->
  exists urls content,
    Vision.reaches_api env file_bytes file_type urls
    /\ Vision.reply env urls = Returned content
    /\ Vision.json_loads env (Vision.unfence (strip (default [] content)))
       = Returned (Vision.JDict data).
Proof.
  unfold Vision.extract_with_openai_vision, Vision.reaches_api.
  intros H Hne.
  case_bool_decide as Hb; [by injection H as <-|].
  destruct (Vision.OpenAI env) eqn:Ho; [|by injection H as <-].
  cbn [negb] in H.
  destruct (Vision.OPENAI_API_KEY env) as [api_key|] eqn:Hk;
    [|by injection H as <-].
  case_bool_decide as Hkey; [by injection H as <-|].
  destruct (Vision.new_client env api_key) eqn:Hc; [|by injection H as <-].
  cbn [negb] in H.
  destruct (Vision.images_of env file_bytes file_type) as [|img images] eqn:Hi;
    [by injection H as <-|].
  destruct (Vision.data_urls env (img :: images)) as [urls|] eqn:Hu; [|done].
  destruct (Vision.reply env urls) as [content|] eqn:Hr; [|done].
  destruct (Vision.json_loads env _) as [[d|]|] eqn:Hj;
    [|by injection H as <-|by injection H as <-].
  injection H as ->. exists urls, content.
  split; [|done]. split; [done|]. split; [done|].
  split; [by exists api_key|]. done.
Qed.

Lemma vision_data_from_reply_witness :
  let env := Vision.sample_env (Returned (Some Vision.ann_json)) in
  Vision.ann <> ∅
  /\ exists urls content,
       Vision.reaches_api env Vision.pdf_bytes (lit "pdf") urls
       /\ Vision.reply env urls = Returned content
       /\ Vision.json_loads env (Vision.unfence (strip (default [] content)))
          = Returned (Vision.JDict Vision.ann).
Proof.
  intros env.
  assert (Hne : Vision.ann <> ∅).
  { intros H. assert (Hl : Vision.ann !! "name"%string = None) by (by rewrite H).
    unfold Vision.ann in Hl. by simplify_map_eq. }
  split; [exact Hne|].
  apply (vision_data_from_reply env Vision.pdf_bytes (lit "pdf") Vision.ann);
    [|exact Hne].
  vm_compute. reflexivity.
Defined.

(** X28: when the request raises, so does the function (its handlers
    name [json], which is not bound yet), and [process_single_resume]
    then gives no record: after the call of the vision tier it only
    reports the error, and the text of the file is never extracted. *)
Theorem vision_request_failure_aborts {document image : Type}
    (env : Vision.environment document image) (svc : App.services)
    (file_name : str) (file_content : VisionExtractor.bytes)
    (file_type : str) (text : outcome str) (urls : list str) :
  Records.branch svc file_name file_content file_type text ->
  App.extract_with_openai_vision svc file_content file_type
  = Vision.extract_with_openai_vision env file_content file_type ->
  Vision.reaches_api env file_content file_type urls ->
  Vision.reply env urls = Raised ->
  Vision.extract_with_openai_vision env file_content file_type = Raised
  /\ App.process_single_resume svc file_name file_content
     = (None, [CallVision file_type;
               Report (lit "Error processing " ++ file_name)]).
Proof.
  intros Hb Hsvc Hreach Hreply.
  assert (Hv : Vision.extract_with_openai_vision env file_content file_type
               = Raised).
  { by rewrite (vision_after_request env _ _ _ Hreach), Hreply. }
  split; [exact Hv|]. rewrite Hv in Hsvc.
  unfold App.process_single_resume, App.process_body, App.call_vision.
  destruct Hb as [(Hext & -> & _)|(Hnp & Hext & -> & _)].
  - rewrite (bool_decide_eq_true_2 _ Hext).
    cbn [Trace.bind Trace.emit Trace.ret fst snd app]. rewrite Hsvc.
    reflexivity.
  - rewrite (bool_decide_eq_false_2 _ Hnp), (bool_decide_eq_true_2 _ Hext).
    cbn [Trace.bind Trace.emit Trace.ret fst snd app]. rewrite Hsvc.
    reflexivity.
Qed.

Lemma vision_request_failure_aborts_witness :
  let env := Vision.sample_env Raised in
  let svc := Vision.sample_services env in
  let urls := [lit "data:image/png;base64,AA=="] in
  Records.branch svc (lit "cv.pdf") Vision.pdf_bytes (lit "pdf")
    (App.extract_text_from_pdf svc Vision.pdf_bytes)
  /\ Vision.reaches_api env Vision.pdf_bytes (lit "pdf") urls
  /\ Vision.extract_with_openai_vision env Vision.pdf_bytes (lit "pdf") = Raised
  /\ App.process_single_resume svc (lit "cv.pdf") Vision.pdf_bytes
     = (None, [CallVision (lit "pdf");
               Report (lit "Error processing " ++ lit "cv.pdf")]).
Proof.
  intros env svc urls.
  assert (Hb : Records.branch svc (lit "cv.pdf") Vision.pdf_bytes (lit "pdf")
                 (App.extract_text_from_pdf svc Vision.pdf_bytes)).
  { left. repeat split; reflexivity. }
  assert (Hreach : Vision.reaches_api env Vision.pdf_bytes (lit "pdf") urls).
  { split; [discriminate|]. split; [reflexivity|].
    split; [exists (lit "sk-test"); by repeat split|].
    split; [|reflexivity].
    assert (E : Vision.images_of env Vision.pdf_bytes (lit "pdf") = [0])
      by (vm_compute; reflexivity).
    rewrite E. discriminate. }
  split; [exact Hb|]. split; [exact Hreach|].
  exact (vision_request_failure_aborts env svc (lit "cv.pdf") Vision.pdf_bytes
           (lit "pdf") _ urls Hb eq_refl Hreach eq_refl).
Defined.

(** ** The text of a PDF and of a DOCX file *)

Lemma add_pages_app (text : str) (pages : list str) :
  PdfParser.add_pages text pages = text ++ PdfParser.add_pages [] pages.
Proof.
  unfold PdfParser.add_pages. revert text.
  induction pages as [|page pages IH]; intros text; cbn [fold_left].
  - by rewrite app_nil_r.
  - rewrite (IH (PdfParser.add_page text page)),
      (IH (PdfParser.add_page [] page)).
    rewrite app_assoc. f_equal.
    unfold PdfParser.add_page. destruct page; [by rewrite app_nil_r|done].
Qed.

Lemma accepted_length (text : str) :
  PdfParser.accepted text = (50 <? length (strip text)).
Proof.
  unfold PdfParser.accepted. case_bool_decide as E; [|done].
  subst text. reflexivity.
Qed.

(** X29: where the text of a PDF comes from.  It is the text that
    pdfplumber read when that reader did not fail and read more than 50
    characters, white space at the ends apart.  Otherwise the text of
    PyPDF2 is added behind what pdfplumber read, which is kept, so that a
    short file that both readers read is returned with its text twice;
    and the result is this sum, unless the sum has fewer than 50
    characters and the OCR read more than 20, when it is the text of the
    OCR. *)
Theorem pdf_text_sources (lib : PdfParser.libraries)
    (file_content : VisionExtractor.bytes) :
  let r1 := PdfParser.pdfplumber lib file_content in
  let r2 := PdfParser.PyPDF2 lib file_content in
  let t1 := PdfParser.add_pages [] (PdfParser.page_texts r1) in
  let t2 := PdfParser.add_pages [] (PdfParser.page_texts r2) in
  let ocr_text := PdfParser.extract_text_with_ocr lib file_content in
  let text := PdfParser.extract_text_from_pdf lib file_content in
  (PdfParser.failed r1 = false /\ 50 < length (strip t1) -> text = t1)
  /\ (~ (PdfParser.failed r1 = false /\ 50 < length (strip t1)) ->
      (text = t1 ++ t2
       /\ (50 <= length (strip (t1 ++ t2)) \/ length (strip ocr_text) <= 20))
      \/ (text = ocr_text
          /\ length (strip (t1 ++ t2)) < 50 /\ 20 < length (strip ocr_text))).
Proof.
  intros r1 r2 t1 t2 ocr_text text.
  unfold text, PdfParser.extract_text_from_pdf.
  fold r1. fold t1. fold r2. rewrite (add_pages_app t1). fold t2. fold ocr_text.
  rewrite !accepted_length.
  split.
  - intros [Hf Hlen]. rewrite Hf. cbn [negb andb].
    by rewrite (proj2 (Nat.ltb_lt _ _) Hlen).
  - intros Hnot.
    assert (H1 : negb (PdfParser.failed r1) && (50 <? length (strip t1)) = false).
    { destruct (PdfParser.failed r1); [done|]. cbn [negb andb].
      apply Nat.ltb_ge. destruct (decide (50 < length (strip t1))); [|lia].
      exfalso. by apply Hnot. }
    rewrite H1.
    destruct (negb (PdfParser.failed r2) && (50 <? length (strip (t1 ++ t2))))
      eqn:H2.
    { left. split; [done|]. left.
      apply andb_prop in H2 as [_ H2]. apply Nat.ltb_lt in H2. lia. }
    destruct (length (strip (t1 ++ t2)) <? 50) eqn:H3.
    + apply Nat.ltb_lt in H3.
      destruct (negb (bool_decide (ocr_text = []))
                && (20 <? length (strip ocr_text))) eqn:H4.
      * right. apply andb_prop in H4 as [_ H4]. apply Nat.ltb_lt in H4.
        by repeat split.
      * left. split; [done|]. right.
        apply andb_false_iff in H4 as [H4|H4].
        -- apply negb_false_iff, bool_decide_eq_true_1 in H4. rewrite H4.
           vm_compute. lia.
        -- apply Nat.ltb_ge in H4. lia.
    + left. split; [done|]. left. apply Nat.ltb_ge in H3. lia.
Qed.

Lemma pdf_text_sources_witness :
  let lib := PdfParser.same_readers [PdfParser.short_page] in
  let t := PdfParser.short_page ++ ["010"%char] in
  PdfParser.extract_text_from_pdf lib [] = t ++ t.
Proof.
  intros lib t.
  assert (Hnot : ~ (PdfParser.failed (PdfParser.pdfplumber lib []) = false
                    /\ 50 < length (strip (PdfParser.add_pages []
                                 (PdfParser.page_texts
                                    (PdfParser.pdfplumber lib [])))))).
  { intros [_ H]. vm_compute in H. lia. }
  destruct (proj2 (pdf_text_sources lib []) Hnot) as [[H _]|[_ [H _]]].
  - exact H.
  - exfalso. vm_compute in H. lia.
Defined.

(** X30: a file with the extension [.docx] or [.doc] that does not
    start with the bytes [PK], as no binary [.doc] does, has no text for
    the DOCX parser, whatever the document library would read: when the
    vision tier yields nothing for it, there is no record, and the model
    and the rules are not called. *)
Theorem docx_without_signature_rejected (lib : DocxParser.library)
    (svc : App.services) (file_name : str)
    (file_content : VisionExtractor.bytes) :
  (lower (App.suffix file_name) ∈ [lit ".docx"; lit ".doc"]) ->
  App.extract_with_openai_vision svc file_content (lit "docx") = Returned ∅ ->
  App.extract_text_from_docx svc file_content
  = Returned (DocxParser.extract_text_from_docx lib file_content) ->
  DocxParser.startswith DocxParser.PK file_content = false ->
  DocxParser.extract_text_from_docx lib file_content = []
  /\ App.process_single_resume svc file_name file_content
     = (None, [CallVision (lit "docx"); CallTextDocx;
               Report (lit "Failed to extract any text from " ++ file_name)]).
Proof.
  intros Hext Hv Hsvc Hpk.
  assert (Ht : DocxParser.extract_text_from_docx lib file_content = []).
  { unfold DocxParser.extract_text_from_docx. case_bool_decide; [done|].
    by rewrite Hpk. }
  split; [exact Ht|]. rewrite Ht in Hsvc.
  assert (Hnp : lower (App.suffix file_name) <> lit ".pdf").
  { intros E. rewrite E in Hext.
    apply (bool_decide_eq_true_2 _) in Hext. vm_compute in Hext. discriminate. }
  unfold App.process_single_resume, App.process_body, App.call_vision,
    App.call_text_docx.
  rewrite (bool_decide_eq_false_2 _ Hnp), (bool_decide_eq_true_2 _ Hext).
  cbn [Trace.bind Trace.emit Trace.ret fst snd app]. rewrite Hv.
  rewrite bool_decide_eq_true_2 by done.
  cbn [Trace.bind Trace.emit Trace.ret fst snd app]. rewrite Hsvc.
  rewrite bool_decide_eq_true_2 by done. reflexivity.
Qed.

Lemma docx_without_signature_rejected_witness :
  let lib := {| DocxParser.combined_text := fun _ => Returned Samples2.long_text |} in
  let svc := DocxParser.sample_services lib in
  (lower (App.suffix (lit "cv.DOC")) ∈ [lit ".docx"; lit ".doc"])
  /\ DocxParser.startswith DocxParser.PK DocxParser.ole_bytes = false
  /\ DocxParser.extract_text_from_docx lib DocxParser.ole_bytes = []
  /\ App.process_single_resume svc (lit "cv.DOC") DocxParser.ole_bytes
     = (None, [CallVision (lit "docx"); CallTextDocx;
               Report (lit "Failed to extract any text from " ++ lit "cv.DOC")]).
Proof.
  intros lib svc.
  assert (Hext : lower (App.suffix (lit "cv.DOC")) ∈ [lit ".docx"; lit ".doc"]).
  { apply (bool_decide_eq_true_1 _). vm_compute. reflexivity. }
  assert (Hpk : DocxParser.startswith DocxParser.PK DocxParser.ole_bytes = false)
    by reflexivity.
  split; [exact Hext|]. split; [exact Hpk|].
  exact (docx_without_signature_rejected lib svc (lit "cv.DOC")
           DocxParser.ole_bytes Hext eq_refl eq_refl Hpk).
Defined.
